(** * GoodGrails pipeline: book ingestion, pricing, record store and search

    A shallow embedding of the TypeScript services of the bookstore worker
    ([src/services/*.ts], [src/utils/helpers.ts], [src/routes/public.ts])
    together with the properties of the ingestion pipeline that the
    specification states about them.

    Conventions of the embedding:
    - a JavaScript [number] is an IEEE-754 binary64 value ([spec_float] with
      precision 53 and maximal exponent 1024), with the rounding of every
      operation written out by the library's [SFmul], [SFsub], [SFdiv];
    - a JavaScript string is a [string] of 8-bit characters.  On ASCII text
      the two are the same sequence of characters, and [toLowerCase],
      [toUpperCase], [trim], [parseInt] and the class [\s] are defined
      here as they act on ASCII text; what is stated of them is stated
      for ASCII text ([is_ascii]).  [undefined]/[null] is [None];
    - a number bound to an SQL statement, or written into the JSON text of
      a column, travels as JSON: [NaN] and the infinities arrive as NULL
      and [-0] as [0] ([json_number]);
    - code that reads the clock, draws a UUID, talks to a remote server, to
      the R2 bucket or to the D1 database is a computation in the monad [M]
      over an explicit [World], parameterised by an [Env] of oracles that
      fixes what the outside answers. *)

From Stdlib Require Import ZArith QArith List Sorted String Ascii Bool Lia.
From Stdlib Require Import Floats.SpecFloat.
From stdpp Require Import base option gmap.
From stdpp Require strings.
Import ListNotations.

Local Open Scope string_scope.
Local Open Scope Z_scope.

(* ================================================================== *)
(** ** JavaScript numbers *)
(* ================================================================== *)

Module JsNumber.

Definition prec : Z := 53.
Definition emax : Z := 1024.

Definition number : Type := spec_float.

(** The double nearest to the integer [z] (exact below 2^53). *)
Definition of_Z (z : Z) : number := binary_normalize prec emax z 0 false.

Definition mul : number -> number -> number := SFmul prec emax.
Definition sub : number -> number -> number := SFsub prec emax.
Definition div : number -> number -> number := SFdiv prec emax.

(** A decimal literal [n/d] of the source text, e.g. [1.1] is
    [literal 11 10]: the correctly rounded quotient of two exactly
    representable integers is the double nearest to the decimal. *)
Definition literal (n d : Z) : number := div (of_Z n) (of_Z d).

(** The real value [(-1)^s * m * 2^e] of a finite double, as a signed
    mantissa. *)
Definition signed (s : bool) (m : positive) : Z :=
  if s then Z.neg m else Z.pos m.

(** [Math.ceil]: the least integer not below the argument; zeros,
    infinities and NaN are returned as they are; a result of zero keeps
    the sign of the argument. *)
Definition Math_ceil (x : number) : number :=
  match x with
  | S754_finite s m e =>
      let v := signed s m in
      let c := if 0 <=? e then v * 2 ^ e else - ((- v) / 2 ^ (- e)) in
      if c =? 0 then S754_zero s else of_Z c
  | _ => x
  end.

(** [Math.round]: the nearest integer, halves rounded towards
    +infinity, that is floor(x + 1/2) computed exactly. *)
Definition Math_round (x : number) : number :=
  match x with
  | S754_finite s m e =>
      let v := signed s m in
      let r := if 0 <=? e then v * 2 ^ e
               else (2 * v + 2 ^ (- e)) / 2 ^ (1 - e) in
      if r =? 0 then S754_zero s else of_Z r
  | _ => x
  end.

(** [x <= y] of JavaScript (false as soon as one side is NaN). *)
Definition leb (x y : number) : bool := SFleb x y.

(** Truthiness of a number: everything but [0], [-0] and [NaN]. *)
Definition truthy (x : number) : bool :=
  match x with
  | S754_zero _ | S754_nan => false
  | _ => true
  end.

(** The integer a double stands for, when it is one. *)
Definition to_Z (x : number) : option Z :=
  match x with
  | S754_zero _ => Some 0
  | S754_finite s m e =>
      let v := signed s m in
      if 0 <=? e then Some (v * 2 ^ e)
      else if v mod 2 ^ (- e) =? 0 then Some (v / 2 ^ (- e)) else None
  | _ => None
  end.

(** [Number.isFinite]: neither [NaN] nor an infinity. *)
Definition is_finite (x : number) : bool :=
  match x with
  | S754_zero _ | S754_finite _ _ _ => true
  | S754_infinity _ | S754_nan => false
  end.

(** A zero without its sign; every other number as it is. *)
Definition unsigned_zero (x : number) : number :=
  match x with
  | S754_zero _ => S754_zero false
  | _ => x
  end.

(** What is left of a number that has been written as JSON text and read
    again ([JSON.stringify], then a parser): [NaN] and the infinities are
    written [null], [-0] is written [0], every other number is written
    so that it reads back as itself. *)
Definition json_number (x : number) : option number :=
  if is_finite x then Some (unsigned_zero x) else None.

(** The value SQLite takes for [LIMIT ?] and [OFFSET ?]: an integer, or a
    real that is one and fits 64 bits; anything else, NULL included, is a
    datatype mismatch. *)
Definition sql_integer (x : number) : option Z :=
  match to_Z x with
  | Some z => if (- 2 ^ 63 <? z) && (z <? 2 ^ 63) then Some z else None
  | None => None
  end.

End JsNumber.
Import JsNumber.

(* ================================================================== *)
(** ** JavaScript strings *)
(* ================================================================== *)

Module JsString.

Definition is_upper (c : ascii) : bool :=
  let n := nat_of_ascii c in (65 <=? n)%nat && (n <=? 90)%nat.
Definition is_lower (c : ascii) : bool :=
  let n := nat_of_ascii c in (97 <=? n)%nat && (n <=? 122)%nat.
Definition is_digit (c : ascii) : bool :=
  let n := nat_of_ascii c in (48 <=? n)%nat && (n <=? 57)%nat.

Definition is_alnum (c : ascii) : bool := is_digit c || is_upper c || is_lower c.

Definition lower_char (c : ascii) : ascii :=
  if is_upper c then ascii_of_nat (nat_of_ascii c + 32) else c.
Definition upper_char (c : ascii) : ascii :=
  if is_lower c then ascii_of_nat (nat_of_ascii c - 32) else c.

Fixpoint map_chars (f : ascii -> ascii) (s : string) : string :=
  match s with
  | EmptyString => EmptyString
  | String c s' => String (f c) (map_chars f s')
  end.

(** [s.toLowerCase()] and [s.toUpperCase()] on the letters A-Z, a-z. *)
Definition toLowerCase : string -> string := map_chars lower_char.
Definition toUpperCase : string -> string := map_chars upper_char.

Fixpoint startsWith (p s : string) : bool :=
  match p, s with
  | EmptyString, _ => true
  | String a p', String b s' => if Ascii.eqb a b then startsWith p' s' else false
  | String _ _, EmptyString => false
  end.

(** [s.includes(kw)]: [kw] occurs in [s] as a contiguous substring. *)
Fixpoint includes (s kw : string) : bool :=
  startsWith kw s ||
  match s with
  | EmptyString => false
  | String _ s' => includes s' kw
  end.

Fixpoint filter_chars (keep : ascii -> bool) (s : string) : string :=
  match s with
  | EmptyString => EmptyString
  | String c s' =>
      if keep c then String c (filter_chars keep s') else filter_chars keep s'
  end.

(** White space recognised by [trim]: TAB, LF, VT, FF, CR and space. *)
Definition is_space (c : ascii) : bool :=
  let n := nat_of_ascii c in ((9 <=? n)%nat && (n <=? 13)%nat) || (n =? 32)%nat.

Fixpoint trimStart (s : string) : string :=
  match s with
  | String c s' => if is_space c then trimStart s' else s
  | EmptyString => EmptyString
  end.

Fixpoint trimEnd (s : string) : string :=
  match s with
  | EmptyString => EmptyString
  | String c s' =>
      match trimEnd s' with
      | EmptyString => if is_space c then EmptyString else String c EmptyString
      | t => String c t
      end
  end.

Definition trim (s : string) : string := trimEnd (trimStart s).

(** [l.join(sep)] *)
Fixpoint join (sep : string) (l : list string) : string :=
  match l with
  | [] => ""
  | [x] => x
  | x :: rest => x ++ sep ++ join sep rest
  end.

(** Truthiness of an optional string: defined and not empty. *)
Definition truthy (o : option string) : bool :=
  match o with
  | Some (String _ _) => true
  | _ => false
  end.

(** A text of ASCII characters only: the texts on which the 8-bit string
    of the embedding is the string of the program, character by
    character. *)
Fixpoint is_ascii (s : string) : bool :=
  match s with
  | EmptyString => true
  | String c s' => (nat_of_ascii c <? 128)%nat && is_ascii s'
  end.

(** The value of a character as a digit of a radix up to 36. *)
Definition digit_value (radix : Z) (c : ascii) : option Z :=
  let n := Z.of_nat (nat_of_ascii c) in
  let value :=
    if is_digit c then Some (n - 48)
    else if is_lower c then Some (n - 87)
    else if is_upper c then Some (n - 55)
    else None in
  match value with
  | Some d => if d <? radix then Some d else None
  | None => None
  end.

(** The integer written by the longest prefix of [s] made of digits of
    the radix, [acc] being what has been read so far ([None]: nothing
    yet). *)
Fixpoint parse_digits (radix : Z) (acc : option Z) (s : string) : option Z :=
  match s with
  | EmptyString => acc
  | String c s' =>
      match digit_value radix c with
      | Some d =>
          parse_digits radix
            (Some (radix * match acc with Some a => a | None => 0 end + d)) s'
      | None => acc
      end
  end.

(** [parseInt(s)] without a radix: leading white space is skipped, a sign
    is read, [0x] or [0X] announces hexadecimal digits, and the digits
    that follow are read up to the first character that is none; without
    a digit the result is [NaN]. *)
Definition parseInt (s : string) : number :=
  let s := trimStart s in
  let (negative, s) :=
    match s with
    | String "-" rest => (true, rest)
    | String "+" rest => (false, rest)
    | _ => (false, s)
    end in
  let (radix, s) :=
    match s with
    | String "0" (String "x" rest) => (16, rest)
    | String "0" (String "X" rest) => (16, rest)
    | _ => (10, s)
    end in
  match parse_digits radix None s with
  | None => S754_nan
  | Some z => if z =? 0 then S754_zero negative else of_Z (if negative then - z else z)
  end.

End JsString.
Import JsString.

(** [a || b] on values whose truthiness is [t]. *)
Definition js_or {A : Type} (t : A -> bool) (a b : A) : A :=
  if t a then a else b.

Notation "a '|s|' b" := (js_or JsString.truthy a b)
  (at level 50, left associativity).

(** Optional chaining [o?.f]. *)
Definition optional_chain {A B : Type} (o : option A) (f : A -> option B)
    : option B :=
  match o with
  | Some a => f a
  | None => None
  end.

Notation "o ?. f" := (optional_chain o f) (at level 40, left associativity).

(* ================================================================== *)
(** ** utils/helpers.ts *)
(* ================================================================== *)

(** [Math.round(pounds * 100)] *)
Definition poundsToPence (pounds : number) : number :=
  Math_round (mul pounds (of_Z 100)).

(** The characters that [/[^0-9X]/gi] leaves in place. *)
Definition isbn_char (c : ascii) : bool :=
  is_digit c || Ascii.eqb c "X"%char || Ascii.eqb c "x"%char.

(** [isbn.replace(/[^0-9X]/gi, '').toUpperCase()] *)
Definition normalizeISBN (isbn : string) : string :=
  toUpperCase (filter_chars isbn_char isbn).

Definition isValidISBN (isbn : string) : bool :=
  let normalized := normalizeISBN isbn in
  (String.length normalized =? 10)%nat || (String.length normalized =? 13)%nat.

(** [BookstoreError(message, statusCode)], and any other thrown [Error]. *)
Inductive Exn : Type :=
| BookstoreError (message : string) (statusCode : Z)
| OtherError (message : string).

Definition exn_message (e : Exn) : string :=
  match e with
  | BookstoreError m _ => m
  | OtherError m => m
  end.

(* ================================================================== *)
(** ** types.ts *)
(* ================================================================== *)

Inductive BookCondition : Type := like_new | very_good | good | acceptable.

Inductive BookStatus : Type := draft | pending_review | live | sold | removed.

(** The string a condition is at run time. *)
Definition condition_label (c : BookCondition) : string :=
  match c with
  | like_new => "like_new"
  | very_good => "very_good"
  | good => "good"
  | acceptable => "acceptable"
  end.

Definition BookStatus_eqb (a b : BookStatus) : bool :=
  match a, b with
  | draft, draft | pending_review, pending_review | live, live
  | sold, sold | removed, removed => true
  | _, _ => false
  end.

Record BookMetadata : Type := {
  publisher : option string;
  publish_date : option string;
  page_count : option number;
  language : option string;
  categories : option (list string);
  isbn_10 : option string;
  isbn_13 : option string;
  goodreads_url : option string;
  average_rating : option number;
  ratings_count : option number
}.

Record AIEnrichment : Type := {
  emotional_tone : option (list string);
  shock_factor : option number;
  pace : option string;
  atmosphere : option (list string);
  vibe_keywords : option string;
  themes : option (list string);
  similar_to : option (list string)
}.

Record Book : Type := {
  id : string;
  isbn : string;
  title : string;
  author : string;
  description : option string;
  cover_url : option string;
  condition : BookCondition;
  cost_price : number;
  sell_price : number;
  in_stock : bool;
  metadata : option BookMetadata;
  vibe_tags : option string;
  ai_enrichment : option AIEnrichment;
  review_summary : option string;
  vector_id : option string;
  status : BookStatus;
  created_at : string;
  updated_at : string;
  sold_at : option string
}.

(** [Partial<Book>]: every field of [Book] may be left out. *)
Record PartialBook : Type := {
  p_id : option string;
  p_isbn : option string;
  p_title : option string;
  p_author : option string;
  p_description : option string;
  p_cover_url : option string;
  p_condition : option BookCondition;
  p_cost_price : option number;
  p_sell_price : option number;
  p_in_stock : option bool;
  p_metadata : option BookMetadata;
  p_vibe_tags : option string;
  p_ai_enrichment : option AIEnrichment;
  p_review_summary : option string;
  p_vector_id : option string;
  p_status : option BookStatus;
  p_created_at : option string;
  p_updated_at : option string;
  p_sold_at : option string
}.

(** The empty object [{}] as a [Partial<Book>]. *)
Definition no_fields : PartialBook :=
  {| p_id := None; p_isbn := None; p_title := None; p_author := None;
     p_description := None; p_cover_url := None; p_condition := None;
     p_cost_price := None; p_sell_price := None; p_in_stock := None;
     p_metadata := None; p_vibe_tags := None; p_ai_enrichment := None;
     p_review_summary := None; p_vector_id := None; p_status := None;
     p_created_at := None; p_updated_at := None; p_sold_at := None |}.

Record IngestBookRequest : Type := {
  req_isbn : string;
  req_condition : BookCondition;
  req_cost_price : number;          (* in pounds *)
  custom_title : option string;
  custom_author : option string
}.

Record NamedEntity : Type := { name : string }.

Record OpenLibraryData : Type := {
  ol_title : option string;
  ol_authors : option (list NamedEntity);
  ol_description : option string;
  ol_cover_url : option string;
  ol_publish_date : option string;
  ol_publishers : option (list string);
  ol_number_of_pages : option number;
  ol_subjects : option (list string)
}.

Record GoogleBooksData : Type := {
  gb_title : option string;
  gb_authors : option (list string);
  gb_description : option string;
  gb_cover_url : option string;
  gb_publishedDate : option string;
  gb_publisher : option string;
  gb_pageCount : option number;
  gb_categories : option (list string);
  gb_averageRating : option number;
  gb_ratingsCount : option number
}.

(** [ExternalMetadata]; the [reviews] and [market_prices] members are never
    written by the pipeline and are left out. *)
Record ExternalMetadata : Type := {
  open_library : option OpenLibraryData;
  google_books : option GoogleBooksData
}.

Record IngestBookResponse : Type := {
  success : bool;
  book_id : string;
  book : Book;
  resp_metadata : ExternalMetadata;
  suggested_price : option number;  (* in pounds, for display *)
  errors : option (list string)
}.

Record MergedMetadata : Type := {
  m_title : string;
  m_author : string;
  m_description : option string;
  m_cover_url : option string;
  m_metadata : BookMetadata
}.

(* ================================================================== *)
(** ** services/metadata.ts: merging and pricing *)
(* ================================================================== *)

Module MetadataService.

Definition truthy_number (o : option number) : bool :=
  match o with
  | Some n => JsNumber.truthy n
  | None => false
  end.

(** Arrays and objects are truthy whenever they are there. *)
Definition defined {A : Type} (o : option A) : bool :=
  match o with Some _ => true | None => false end.

Definition extractAuthor (gb : option GoogleBooksData)
    (ol : option OpenLibraryData) : string :=
  match gb ?. gb_authors with
  | Some (a :: rest) => join ", " (a :: rest)
  | _ =>
      match ol ?. ol_authors with
      | Some (a :: rest) => join ", " (List.map name (a :: rest))
      | _ => "Unknown Author"
      end
  end.

Definition extractCoverUrl (gb : option GoogleBooksData)
    (ol : option OpenLibraryData) : option string :=
  if JsString.truthy (gb ?. gb_cover_url) then gb ?. gb_cover_url
  else if JsString.truthy (ol ?. ol_cover_url) then ol ?. ol_cover_url
  else None.

Definition extractISBN13 (gb : option GoogleBooksData)
    (ol : option OpenLibraryData) : option string :=
  match gb with
  | Some _ => None
  | None => None
  end.

Definition mergeMetadata (external : ExternalMetadata) : MergedMetadata :=
  let ol := open_library external in
  let gb := google_books external in
  let title :=
    match (gb ?. gb_title) |s| (ol ?. ol_title) |s| Some "Unknown Title" with
    | Some t => t
    | None => ""
    end in
  let author := extractAuthor gb ol in
  let description := (gb ?. gb_description) |s| (ol ?. ol_description) in
  let cover_url := extractCoverUrl gb ol in
  let metadata :=
    {| publisher :=
         (gb ?. gb_publisher) |s| (ol ?. ol_publishers ?. head);
       publish_date := (gb ?. gb_publishedDate) |s| (ol ?. ol_publish_date);
       page_count :=
         js_or truthy_number (gb ?. gb_pageCount) (ol ?. ol_number_of_pages);
       language := Some "en";
       categories :=
         js_or defined (gb ?. gb_categories)
               (ol ?. ol_subjects ?. (fun subjects => Some (take 5%nat subjects)));
       isbn_10 := None;
       isbn_13 := extractISBN13 gb ol;
       goodreads_url := None;
       average_rating := gb ?. gb_averageRating;
       ratings_count := gb ?. gb_ratingsCount |} in
  {| m_title := title; m_author := author; m_description := description;
     m_cover_url := cover_url; m_metadata := metadata |}.

(** [calculateSuggestedPrice(costPrice, condition)]; the optional
    [marketPrices] argument is never read. *)
Definition calculateSuggestedPrice (costPrice : number) (condition : string)
    : number :=
  let baseMarkup := literal 30 10 in
  let conditionMultiplier :=
    if String.eqb condition "like_new" then literal 12 10
    else if String.eqb condition "very_good" then literal 11 10
    else if String.eqb condition "good" then literal 10 10
    else if String.eqb condition "acceptable" then literal 8 10
    else literal 10 10 in
  let calculatedPrice := mul (mul costPrice baseMarkup) conditionMultiplier in
  let rounded := sub (Math_ceil calculatedPrice) (literal 1 100) in
  Math_round (mul rounded (of_Z 100)).

End MetadataService.

(* ================================================================== *)
(** ** services/enrichment.ts: the keyword heuristics *)
(* ================================================================== *)

Module EnrichmentService.

Definition extractVibeKeywords (description : option string) : string :=
  match description with
  | Some (String c d) => trim (String.substring 0 100 (String c d))
  | _ => ""
  end.

Definition commonThemes : list string :=
  ["love"; "death"; "war"; "family"; "identity"; "power";
   "betrayal"; "revenge"; "redemption"; "coming-of-age";
   "mystery"; "adventure"; "romance"; "tragedy"].

Definition extractThemes (description : option string) : list string :=
  match description with
  | Some (String c d) =>
      let lowerDesc := toLowerCase (String c d) in
      List.filter (fun theme => includes lowerDesc theme) commonThemes
  | _ => []
  end.

(** The entries of a keyword table whose bucket has a keyword occurring
    in [lowerDesc], in the order of the table. *)
Definition matching_buckets (table : list (string * list string))
    (lowerDesc : string) : list string :=
  List.map fst
    (List.filter (fun entry => existsb (fun kw => includes lowerDesc kw) (snd entry))
                 table).

Definition toneKeywords : list (string * list string) :=
  [("dark", ["dark"; "grim"; "bleak"; "sinister"; "ominous"]);
   ("uplifting", ["hope"; "joy"; "triumph"; "inspiring"; "uplifting"]);
   ("melancholic", ["sad"; "melancholic"; "sorrowful"; "tragic"; "loss"]);
   ("humorous", ["funny"; "witty"; "comedy"; "humorous"; "satire"]);
   ("intense", ["intense"; "gripping"; "powerful"; "visceral"; "raw"])].

Definition inferEmotionalTone (description : option string) : list string :=
  match description with
  | Some (String c d) =>
      match matching_buckets toneKeywords (toLowerCase (String c d)) with
      | [] => ["neutral"]
      | tones => tones
      end
  | _ => ["neutral"]
  end.

Definition shockKeywords : list string :=
  ["shocking"; "disturbing"; "graphic"; "controversial";
   "provocative"; "unsettling"; "dark"; "twisted"].

(** The scores are integers between 5 and 13 before clamping, which
    doubles represent exactly: the arithmetic is written on [Z]. *)
Definition calculateShockFactor (description : option string) : Z :=
  let score := 5 in
  let score :=
    match description with
    | Some (String c d) =>
        let lowerDesc := toLowerCase (String c d) in
        let matches := List.filter (fun kw => includes lowerDesc kw) shockKeywords in
        score + Z.of_nat (List.length matches)
    | _ => score
    end in
  Z.min (Z.max score 1) 10.

Definition inferPace (description : option string) : string :=
  match description with
  | Some (String c d) =>
      let lowerDesc := toLowerCase (String c d) in
      if includes lowerDesc "slow" || includes lowerDesc "meditative"
      then "slow_burn"
      else if includes lowerDesc "fast" || includes lowerDesc "thriller"
              || includes lowerDesc "action"
      then "fast_paced"
      else "moderate"
  | _ => "moderate"
  end.

Definition atmosphereKeywords : list (string * list string) :=
  [("atmospheric", ["atmospheric"; "immersive"; "vivid"]);
   ("dark", ["dark"; "gothic"; "noir"]);
   ("light", ["light"; "cheerful"; "bright"]);
   ("mysterious", ["mystery"; "mysterious"; "enigmatic"]);
   ("romantic", ["romantic"; "love"; "passion"])].

Definition inferAtmosphere (description : option string) : list string :=
  match description with
  | Some (String c d) =>
      matching_buckets atmosphereKeywords (toLowerCase (String c d))
  | _ => []
  end.

(** [enrichBook]: the heuristics are pure string functions and cannot
    throw, so the [catch] branch of the source is never taken. *)
Definition enrichBook (title author : string) (description : option string)
    : AIEnrichment :=
  let vibe_keywords := extractVibeKeywords description in
  let themes := extractThemes description in
  {| emotional_tone := Some (inferEmotionalTone description);
     shock_factor := Some (of_Z (calculateShockFactor description));
     pace := Some (inferPace description);
     atmosphere := Some (inferAtmosphere description);
     vibe_keywords := Some vibe_keywords;
     themes := Some themes;
     similar_to := Some [] |}.

End EnrichmentService.

(* ================================================================== *)
(** ** The outside world *)
(* ================================================================== *)

(** What a remote body turns out to be when it is read ([response.json()],
    [response.arrayBuffer()]): unreadable (the read throws), readable but
    without the entry looked for, or the entry. *)
Inductive Body (A : Type) : Type :=
| Unreadable
| Empty
| Content (a : A).
Arguments Unreadable {A}.
Arguments Empty {A}.
Arguments Content {A} a.

Record HttpResponse (A : Type) : Type := {
  ok : bool;
  http_status : Z;
  content_type : option string;
  body : Body A
}.
Arguments ok {A} _.
Arguments http_status {A} _.
Arguments content_type {A} _.
Arguments body {A} _.

(** [fetch(url)] either rejects (network failure) or resolves to a
    response. *)
Inductive Reply (A : Type) : Type :=
| NetworkError
| Responded (r : HttpResponse A).
Arguments NetworkError {A}.
Arguments Responded {A} r.

Inductive Request : Type :=
| GetOpenLibrary (isbn : string)
| GetGoogleBooks (isbn : string)
| GetImage (url : string).

Record R2Object : Type := {
  r2_data : string;
  r2_contentType : string
}.

(** A row of the [books] table. [metadata] and [ai_enrichment] are stored
    as JSON text; the embedding keeps the value the text stands for. *)
Record BookRow : Type := {
  rowid : Z;
  r_id : string;
  r_isbn : string;
  r_title : string;
  r_author : string;
  r_description : option string;
  r_cover_url : option string;
  r_condition : BookCondition;
  r_cost_price : number;
  r_sell_price : number;
  r_in_stock : Z;
  r_metadata : option BookMetadata;
  r_vibe_tags : option string;
  r_ai_enrichment : option AIEnrichment;
  r_review_summary : option string;
  r_vector_id : option string;
  r_status : BookStatus;
  r_created_at : string;
  r_updated_at : string;
  r_sold_at : option string
}.

(** A row of the [books_fts] virtual table. *)
Record FtsRow : Type := {
  fts_rowid : Z;
  fts_book_id : string;
  fts_title : string;
  fts_author : string;
  fts_description : option string;
  fts_vibe_tags : option string
}.

Record D1Database : Type := {
  books : list BookRow;
  books_fts : list FtsRow
}.

Record World : Type := {
  DB : D1Database;
  ASSETS : gmap string R2Object;
  requests : list Request;        (* the lookups issued so far, in order *)
  ticks : nat;                    (* timestamps read so far *)
  draws : nat                     (* UUIDs drawn so far *)
}.

(** The answers of everything the worker does not control. *)
Record Env : Type := {
  open_library_api : string -> Reply OpenLibraryData;
  google_books_api : string -> Reply GoogleBooksData;
  image_host : string -> Reply string;
  r2_put_succeeds : string -> bool;
  clock : nat -> string;
  randomUUID : nat -> string;
  (** the FTS5 engine: whether a text is a query of its query language
      (a MATCH with any other text is an error), which index rows a query
      matches, and the [bm25] rank of a row for a query over a given
      index *)
  fts5_accepts : string -> bool;
  fts5_match : string -> FtsRow -> bool;
  fts5_bm25 : string -> list FtsRow -> FtsRow -> Q
}.

(* ================================================================== *)
(** ** Computations: state and exceptions *)
(* ================================================================== *)

Inductive Outcome (A : Type) : Type :=
| Returned (a : A)
| Thrown (e : Exn).
Arguments Returned {A} a.
Arguments Thrown {A} e.

Definition M (A : Type) : Type := World -> Outcome A * World.

Definition ret {A : Type} (a : A) : M A := fun w => (Returned a, w).

Definition throw {A : Type} (e : Exn) : M A := fun w => (Thrown e, w).

Definition bind {A B : Type} (m : M A) (k : A -> M B) : M B :=
  fun w =>
    match m w with
    | (Returned a, w') => k a w'
    | (Thrown e, w') => (Thrown e, w')
    end.

(** [try { m } catch (e) { handler e }]: the effects of [m] up to the
    throw stay. *)
Definition try_catch {A : Type} (m : M A) (handler : Exn -> M A) : M A :=
  fun w =>
    match m w with
    | (Returned a, w') => (Returned a, w')
    | (Thrown e, w') => handler e w'
    end.

Definition get_world : M World := fun w => (Returned w, w).
Definition put_world (w' : World) : M unit := fun _ => (Returned tt, w').

Notation "'let*' x ':=' m 'in' k" := (bind m (fun x => k))
  (at level 10, x name, m at level 100, k at level 200).
Notation "m1 ';;' m2" := (bind m1 (fun _ => m2))
  (at level 100, m2 at level 200, right associativity).

Definition set_DB (d : D1Database) (w : World) : World :=
  {| DB := d; ASSETS := ASSETS w; requests := requests w;
     ticks := ticks w; draws := draws w |}.

Section Services.

Variable env : Env.

(** [new Date().toISOString()] *)
Definition getCurrentTimestamp : M string :=
  fun w =>
    (Returned (clock env (ticks w)),
     {| DB := DB w; ASSETS := ASSETS w; requests := requests w;
        ticks := S (ticks w); draws := draws w |}).

(** [crypto.randomUUID()] *)
Definition generateUUID : M string :=
  fun w =>
    (Returned (randomUUID env (draws w)),
     {| DB := DB w; ASSETS := ASSETS w; requests := requests w;
        ticks := ticks w; draws := S (draws w) |}).

Definition record_request (r : Request) : M unit :=
  fun w =>
    (Returned tt,
     {| DB := DB w; ASSETS := ASSETS w; requests := requests w ++ [r];
        ticks := ticks w; draws := draws w |}).

(* ---------------------------------------------------------------- *)
(** *** MetadataService: the two provider lookups *)

(** What a lookup makes of a reply: everything but a readable entry of
    an [ok] response is [null]; a rejected [fetch] and an unreadable
    body are caught inside the lookup. *)
Definition entry_of_reply {A : Type} (r : Reply A) : option A :=
  match r with
  | NetworkError => None
  | Responded resp =>
      if negb (ok resp) then None
      else match body resp with
           | Content a => Some a
           | Empty => None
           | Unreadable => None
           end
  end.

Definition fetchOpenLibrary (isbn : string) : M (option OpenLibraryData) :=
  record_request (GetOpenLibrary isbn) ;;
  ret (entry_of_reply (open_library_api env isbn)).

Definition fetchGoogleBooks (isbn : string) : M (option GoogleBooksData) :=
  record_request (GetGoogleBooks isbn) ;;
  ret (entry_of_reply (google_books_api env isbn)).

(** [Promise.allSettled([p])] seen from one promise: its outcome, never
    an exception. *)
Definition settled {A : Type} (m : M A) : M (Outcome A) :=
  fun w => let (o, w') := m w in (Returned o, w').

Definition fetchMetadata (isbn : string) : M ExternalMetadata :=
  let normalizedISBN := normalizeISBN isbn in
  let* openLibrary := settled (fetchOpenLibrary normalizedISBN) in
  let* googleBooks := settled (fetchGoogleBooks normalizedISBN) in
  let metadata_open_library :=
    match openLibrary with
    | Returned value => value
    | Thrown _ => None
    end in
  let metadata_google_books :=
    match googleBooks with
    | Returned value => value
    | Thrown _ => None
    end in
  match metadata_open_library, metadata_google_books with
  | None, None =>
      throw (BookstoreError ("Could not fetch metadata for ISBN: " ++ isbn) 404)
  | _, _ =>
      ret {| open_library := metadata_open_library;
             google_books := metadata_google_books |}
  end.

(* ---------------------------------------------------------------- *)
(** *** StorageService (R2) *)

Definition extensions : list (string * string) :=
  [("image/jpeg", ".jpg"); ("image/jpg", ".jpg"); ("image/png", ".png");
   ("image/gif", ".gif"); ("image/webp", ".webp");
   ("application/pdf", ".pdf")].

Fixpoint assoc (key : string) (table : list (string * string))
    : option string :=
  match table with
  | [] => None
  | (k, v) :: rest => if String.eqb k key then Some v else assoc key rest
  end.

(** What the object literal [extensions] inherits from
    [Object.prototype]: the members every object has, each with the text
    it gives when it is spliced into a template literal (a native
    function prints as its source placeholder, the prototype itself as
    [[object Object]]). *)
Definition Object_prototype : list (string * string) :=
  [("constructor", "function Object() { [native code] }");
   ("__defineGetter__", "function __defineGetter__() { [native code] }");
   ("__defineSetter__", "function __defineSetter__() { [native code] }");
   ("hasOwnProperty", "function hasOwnProperty() { [native code] }");
   ("__lookupGetter__", "function __lookupGetter__() { [native code] }");
   ("__lookupSetter__", "function __lookupSetter__() { [native code] }");
   ("isPrototypeOf", "function isPrototypeOf() { [native code] }");
   ("propertyIsEnumerable", "function propertyIsEnumerable() { [native code] }");
   ("toString", "function toString() { [native code] }");
   ("valueOf", "function valueOf() { [native code] }");
   ("__proto__", "[object Object]");
   ("toLocaleString", "function toLocaleString() { [native code] }")].

(** [extensions[contentType] || '.jpg'], as the key of the upload then
    holds it: the lookup finds the six entries of the table and, for a
    content type that is the name of one, the inherited members. *)
Definition getFileExtension (contentType : string) : string :=
  match assoc contentType extensions with
  | Some ext => ext
  | None =>
      match assoc contentType Object_prototype with
      | Some member => member
      | None => ".jpg"
      end
  end.

Definition getPublicUrl (key : string) : string := "/assets/" ++ key.

(** [fetch(imageUrl)] *)
Definition fetch_image (imageUrl : string) : M (HttpResponse string) :=
  record_request (GetImage imageUrl) ;;
  match image_host env imageUrl with
  | NetworkError => throw (OtherError "fetch failed")
  | Responded r => ret r
  end.

(** [response.arrayBuffer()] *)
Definition arrayBuffer (r : HttpResponse string) : M string :=
  match body r with
  | Content data => ret data
  | Empty => ret ""
  | Unreadable => throw (OtherError "body stream failed")
  end.

(** [env.ASSETS.put(key, data, {httpMetadata: {contentType}})] *)
Definition ASSETS_put (key data contentType : string) : M unit :=
  if r2_put_succeeds env key then
    fun w =>
      (Returned tt,
       {| DB := DB w;
          ASSETS := <[key := {| r2_data := data; r2_contentType := contentType |}]>
                      (ASSETS w);
          requests := requests w; ticks := ticks w; draws := draws w |})
  else throw (OtherError "R2 put failed").

Definition uploadBookCover (bookId imageUrl : string) : M string :=
  try_catch
    (let* response := fetch_image imageUrl in
     if negb (ok response) then
       throw (BookstoreError ("Failed to download image from " ++ imageUrl) 400)
     else
       let contentType :=
         match content_type response with
         | Some (String c ct) => String c ct
         | _ => "image/jpeg"
         end in
       let* imageData := arrayBuffer response in
       let fileExtension := getFileExtension contentType in
       let key := "covers/" ++ bookId ++ fileExtension in
       ASSETS_put key imageData contentType ;;
       ret (getPublicUrl key))
    (fun error => ret imageUrl).

(* ---------------------------------------------------------------- *)
(** *** DatabaseService (D1) *)

(** [Boolean(row.in_stock)] and the rest of [deserializeBook]. *)
Definition deserializeBook (row : BookRow) : Book :=
  {| id := r_id row; isbn := r_isbn row; title := r_title row;
     author := r_author row; description := r_description row;
     cover_url := r_cover_url row; condition := r_condition row;
     cost_price := r_cost_price row; sell_price := r_sell_price row;
     in_stock := negb (r_in_stock row =? 0);
     metadata := r_metadata row; vibe_tags := r_vibe_tags row;
     ai_enrichment := r_ai_enrichment row;
     review_summary := r_review_summary row; vector_id := r_vector_id row;
     status := r_status row; created_at := r_created_at row;
     updated_at := r_updated_at row; sold_at := r_sold_at row |}.

(** [value || null] on a text column. *)
Definition or_null (o : option string) : option string :=
  if JsString.truthy o then o else None.

(** A number member of an object that has been through
    [JSON.stringify] and [JSON.parse]. *)
Definition json_member (o : option number) : option number :=
  match o with
  | Some x => json_number x
  | None => None
  end.

(** [JSON.parse(JSON.stringify(metadata))]: what the [metadata] column
    gives back for a metadata bag.  Texts and lists of texts are read
    back as they were written, numbers as [json_number] says. *)
Definition json_metadata (m : BookMetadata) : BookMetadata :=
  {| publisher := publisher m; publish_date := publish_date m;
     page_count := json_member (page_count m);
     language := language m; categories := categories m;
     isbn_10 := isbn_10 m; isbn_13 := isbn_13 m;
     goodreads_url := goodreads_url m;
     average_rating := json_member (average_rating m);
     ratings_count := json_member (ratings_count m) |}.

(** [JSON.parse(JSON.stringify(ai_enrichment))] *)
Definition json_enrichment (e : AIEnrichment) : AIEnrichment :=
  {| emotional_tone := emotional_tone e;
     shock_factor := json_member (shock_factor e);
     pace := pace e; atmosphere := atmosphere e;
     vibe_keywords := vibe_keywords e; themes := themes e;
     similar_to := similar_to e |}.

(** The values [createBook] binds to its INSERT, as the row they make when
    the two prices are finite (a price that is not is bound as NULL and
    makes no row, see [sql_insert_book]). *)
Definition row_of_book (rid : Z) (b : Book) : BookRow :=
  {| rowid := rid; r_id := id b; r_isbn := isbn b; r_title := title b;
     r_author := author b; r_description := or_null (description b);
     r_cover_url := or_null (cover_url b); r_condition := condition b;
     r_cost_price := unsigned_zero (cost_price b);
     r_sell_price := unsigned_zero (sell_price b);
     r_in_stock := if in_stock b then 1 else 0;
     r_metadata := json_metadata <$> metadata b;
     r_vibe_tags := or_null (vibe_tags b);
     r_ai_enrichment := json_enrichment <$> ai_enrichment b;
     r_review_summary := or_null (review_summary b);
     r_vector_id := or_null (vector_id b); r_status := status b;
     r_created_at := created_at b; r_updated_at := updated_at b;
     r_sold_at := None |}.

(** The index row the triggers [books_fts_insert] and [books_fts_update]
    write for a row of [books]. *)
Definition fts_of_row (r : BookRow) : FtsRow :=
  {| fts_rowid := rowid r; fts_book_id := r_id r; fts_title := r_title r;
     fts_author := r_author r; fts_description := r_description r;
     fts_vibe_tags := r_vibe_tags r |}.

(** SQLite gives a new row the largest rowid in use plus one. *)
Definition next_rowid (rows : list BookRow) : Z :=
  1 + fold_right Z.max 0 (List.map rowid rows).

(** [INSERT INTO books ... VALUES (...)] with the NOT NULL, PRIMARY KEY
    and UNIQUE constraints of the schema, followed by the AFTER INSERT
    trigger.  Of the values bound to NOT NULL columns only the two prices
    can arrive as NULL: the texts are strings, [condition] and [status]
    are among the values their CHECK lists, and [in_stock] is 1 or 0. *)
Definition sql_insert_book (b : Book) : M unit :=
  fun w =>
    let db := DB w in
    if negb (is_finite (cost_price b)) then
      (Thrown (OtherError "D1_ERROR: NOT NULL constraint failed: books.cost_price"), w)
    else if negb (is_finite (sell_price b)) then
      (Thrown (OtherError "D1_ERROR: NOT NULL constraint failed: books.sell_price"), w)
    else if existsb (fun r => String.eqb (r_id r) (id b)) (books db) then
      (Thrown (OtherError "D1_ERROR: UNIQUE constraint failed: books.id"), w)
    else if existsb (fun r => String.eqb (r_isbn r) (isbn b)) (books db) then
      (Thrown (OtherError "D1_ERROR: UNIQUE constraint failed: books.isbn"), w)
    else
      let row := row_of_book (next_rowid (books db)) b in
      (Returned tt,
       set_DB {| books := books db ++ [row];
                 books_fts := books_fts db ++ [fts_of_row row] |} w).

Definition createBook (bookData : PartialBook) : M Book :=
  let* id := generateUUID in
  let* now := getCurrentTimestamp in
  match p_isbn bookData, p_title bookData, p_author bookData,
        p_cost_price bookData, p_sell_price bookData with
  | Some isbn, Some title, Some author, Some cost_price, Some sell_price =>
      let book :=
        {| id := id; isbn := isbn; title := title; author := author;
           description := p_description bookData;
           cover_url := p_cover_url bookData;
           condition :=
             match p_condition bookData with Some c => c | None => good end;
           cost_price := cost_price; sell_price := sell_price;
           in_stock := true;
           metadata := p_metadata bookData;
           vibe_tags := p_vibe_tags bookData;
           ai_enrichment := p_ai_enrichment bookData;
           review_summary := p_review_summary bookData;
           vector_id := p_vector_id bookData;
           status :=
             match p_status bookData with Some s => s | None => draft end;
           created_at := now; updated_at := now; sold_at := None |} in
      sql_insert_book book ;;
      ret book
  | _, _, _, _, _ =>
      (* a required column bound to [undefined] *)
      throw (OtherError "D1_ERROR: NOT NULL constraint failed")
  end.

(** [SELECT * FROM books WHERE id = ?] then [.first()] *)
Definition getBook (id : string) : M (option Book) :=
  fun w =>
    (Returned (deserializeBook <$>
                 List.find (fun r => String.eqb (r_id r) id) (books (DB w))),
     w).

Definition getBookByISBN (isbn : string) : M (option Book) :=
  fun w =>
    (Returned (deserializeBook <$>
                 List.find (fun r => String.eqb (r_isbn r) isbn) (books (DB w))),
     w).

(** The members of [allowedFields]. *)
Inductive Field : Type :=
| F_title | F_author | F_description | F_cover_url | F_sell_price
| F_in_stock | F_metadata | F_vibe_tags | F_ai_enrichment
| F_review_summary | F_vector_id | F_status.

Definition allowedFields : list Field :=
  [F_title; F_author; F_description; F_cover_url;
   F_sell_price; F_in_stock; F_metadata; F_vibe_tags;
   F_ai_enrichment; F_review_summary; F_vector_id; F_status].

(** One [column = ?] of the SET clause with the value bound to it
    ([metadata] and [ai_enrichment] as the value their JSON text holds). *)
Inductive Assignment : Type :=
| Set_title (v : string)
| Set_author (v : string)
| Set_description (v : string)
| Set_cover_url (v : string)
| Set_sell_price (v : number)
| Set_in_stock (v : Z)
| Set_metadata (v : BookMetadata)
| Set_vibe_tags (v : string)
| Set_ai_enrichment (v : AIEnrichment)
| Set_review_summary (v : string)
| Set_vector_id (v : string)
| Set_status (v : BookStatus)
| Set_updated_at (v : string).

(** The body of the loop over [allowedFields]: a field of the payload
    that is not [undefined] contributes its assignment. *)
Definition field_assignment (updates : PartialBook) (field : Field)
    : option Assignment :=
  match field with
  | F_title => Set_title <$> p_title updates
  | F_author => Set_author <$> p_author updates
  | F_description => Set_description <$> p_description updates
  | F_cover_url => Set_cover_url <$> p_cover_url updates
  | F_sell_price => Set_sell_price <$> p_sell_price updates
  | F_in_stock =>
      (fun value : bool => Set_in_stock (if value then 1 else 0))
        <$> p_in_stock updates
  | F_metadata =>
      (fun value => Set_metadata (json_metadata value)) <$> p_metadata updates
  | F_vibe_tags => Set_vibe_tags <$> p_vibe_tags updates
  | F_ai_enrichment =>
      (fun value => Set_ai_enrichment (json_enrichment value))
        <$> p_ai_enrichment updates
  | F_review_summary => Set_review_summary <$> p_review_summary updates
  | F_vector_id => Set_vector_id <$> p_vector_id updates
  | F_status => Set_status <$> p_status updates
  end.

Definition apply_assignment (r : BookRow) (a : Assignment) : BookRow :=
  {| rowid := rowid r; r_id := r_id r; r_isbn := r_isbn r;
     r_title := match a with Set_title v => v | _ => r_title r end;
     r_author := match a with Set_author v => v | _ => r_author r end;
     r_description :=
       match a with Set_description v => Some v | _ => r_description r end;
     r_cover_url :=
       match a with Set_cover_url v => Some v | _ => r_cover_url r end;
     r_condition := r_condition r; r_cost_price := r_cost_price r;
     r_sell_price :=
       match a with
       | Set_sell_price v => unsigned_zero v
       | _ => r_sell_price r
       end;
     r_in_stock := match a with Set_in_stock v => v | _ => r_in_stock r end;
     r_metadata :=
       match a with Set_metadata v => Some v | _ => r_metadata r end;
     r_vibe_tags :=
       match a with Set_vibe_tags v => Some v | _ => r_vibe_tags r end;
     r_ai_enrichment :=
       match a with Set_ai_enrichment v => Some v | _ => r_ai_enrichment r end;
     r_review_summary :=
       match a with Set_review_summary v => Some v | _ => r_review_summary r end;
     r_vector_id :=
       match a with Set_vector_id v => Some v | _ => r_vector_id r end;
     r_status := match a with Set_status v => v | _ => r_status r end;
     r_created_at := r_created_at r;
     r_updated_at :=
       match a with Set_updated_at v => v | _ => r_updated_at r end;
     r_sold_at := r_sold_at r |}.

(** The AFTER UPDATE trigger: the index row of the old rowid is deleted
    and the row of the new values inserted. *)
Definition books_fts_update (old new : BookRow) (fts : list FtsRow)
    : list FtsRow :=
  List.filter (fun f => negb (fts_rowid f =? rowid old)) fts ++ [fts_of_row new].

(** [UPDATE books SET <sets> WHERE id = ?], row by row. *)
Fixpoint update_rows (id : string) (sets : list Assignment)
    (rows : list BookRow) (fts : list FtsRow) : list BookRow * list FtsRow :=
  match rows with
  | [] => ([], fts)
  | r :: rest =>
      if String.eqb (r_id r) id then
        let r' := fold_left apply_assignment sets r in
        let (rest', fts') := update_rows id sets rest (books_fts_update r r' fts) in
        (r' :: rest', fts')
      else
        let (rest', fts') := update_rows id sets rest fts in
        (r :: rest', fts')
  end.

(** An assignment that binds NULL to a NOT NULL column: of the values
    [updateBook] binds, only a sell price that is not finite. *)
Definition binds_null (a : Assignment) : bool :=
  match a with
  | Set_sell_price v => negb (is_finite v)
  | _ => false
  end.

(** The UPDATE fails, and changes nothing, when a row it reaches would
    get NULL in a NOT NULL column. *)
Definition sql_update_book (id : string) (sets : list Assignment) : M unit :=
  fun w =>
    if existsb binds_null sets
       && existsb (fun r => String.eqb (r_id r) id) (books (DB w))
    then
      (Thrown (OtherError "D1_ERROR: NOT NULL constraint failed: books.sell_price"), w)
    else
      let (rows, fts) := update_rows id sets (books (DB w)) (books_fts (DB w)) in
      (Returned tt, set_DB {| books := rows; books_fts := fts |} w).

Definition updateBook (id : string) (updates : PartialBook) : M (option Book) :=
  let* existing := getBook id in
  match existing with
  | None => ret None
  | Some existing =>
      let* now := getCurrentTimestamp in
      let fields := omap (field_assignment updates) allowedFields in
      match fields with
      | [] => ret (Some existing)
      | _ :: _ =>
          sql_update_book id (fields ++ [Set_updated_at now]) ;;
          getBook id
      end
  end.

(** Ascending, stable insertion sort on a rational key: the reading of
    [ORDER BY] taken here. *)
Fixpoint insert_by {A : Type} (key : A -> Q) (x : A) (l : list A) : list A :=
  match l with
  | [] => [x]
  | y :: l' =>
      if Qle_bool (key x) (key y) then x :: y :: l' else y :: insert_by key x l'
  end.

Definition order_by {A : Type} (key : A -> Q) (l : list A) : list A :=
  fold_right (insert_by key) [] l.

(** [LIMIT n]: a negative limit is no limit. *)
Definition sql_limit {A : Type} (n : Z) (l : list A) : list A :=
  if n <? 0 then l else take (Z.to_nat n) l.

(** [books_fts fts JOIN books b ON b.rowid = fts.rowid] *)
Definition fts_join_books (db : D1Database) : list (FtsRow * BookRow) :=
  flat_map
    (fun f => List.map (pair f)
                (List.filter (fun b => rowid b =? fts_rowid f) (books db)))
    (books_fts db).

Definition search_where (query : string) (fb : FtsRow * BookRow) : bool :=
  fts5_match env query (fst fb)
  && BookStatus_eqb (r_status (snd fb)) live
  && (r_in_stock (snd fb) =? 1).

Definition search_rows (query : string) (limit : Z) (db : D1Database)
    : list (FtsRow * BookRow) :=
  sql_limit limit
    (order_by (fun fb => fts5_bm25 env query (books_fts db) (fst fb))
       (List.filter (search_where query) (fts_join_books db))).

(** [limit] is the integer SQLite takes for [LIMIT ?].  A text that is
    not a query of FTS5 makes the MATCH, and with it the statement,
    fail. *)
Definition searchBooksByKeyword (query : string) (limit : Z) : M (list Book) :=
  if fts5_accepts env query then
    fun w =>
      (Returned (List.map (fun fb => deserializeBook (snd fb))
                   (search_rows query limit (DB w))),
       w)
  else throw (OtherError "D1_ERROR: fts5: syntax error").

(* ---------------------------------------------------------------- *)
(** *** IngestionService *)

Definition with_cover_url (b : Book) (url : option string) : Book :=
  {| id := id b; isbn := isbn b; title := title b; author := author b;
     description := description b; cover_url := url;
     condition := condition b; cost_price := cost_price b;
     sell_price := sell_price b; in_stock := in_stock b;
     metadata := metadata b; vibe_tags := vibe_tags b;
     ai_enrichment := ai_enrichment b; review_summary := review_summary b;
     vector_id := vector_id b; status := status b;
     created_at := created_at b; updated_at := updated_at b;
     sold_at := sold_at b |}.

(** Step 9 of [ingestBook]: transfer the cover once the book has its id.
    Returns the created book, with its cover reference replaced when the
    transfer produced a new one, and the soft errors. *)
Definition transfer_cover (createdBook : Book) (cover_url : option string)
    (errors : list string) : M (Book * list string) :=
  match cover_url with
  | Some (String c u) =>
      let cover := String c u in
      if JsString.truthy (Some (id createdBook)) then
        try_catch
          (let* uploadedCoverUrl := uploadBookCover (id createdBook) cover in
           if negb (String.eqb uploadedCoverUrl cover) then
             (let* updated :=
                updateBook (id createdBook)
                  {| p_id := None; p_isbn := None; p_title := None;
                     p_author := None; p_description := None;
                     p_cover_url := Some uploadedCoverUrl;
                     p_condition := None; p_cost_price := None;
                     p_sell_price := None; p_in_stock := None;
                     p_metadata := None; p_vibe_tags := None;
                     p_ai_enrichment := None; p_review_summary := None;
                     p_vector_id := None; p_status := None;
                     p_created_at := None; p_updated_at := None;
                     p_sold_at := None |} in
              ret (with_cover_url createdBook (Some uploadedCoverUrl), errors))
           else ret (createdBook, errors))
          (fun error =>
             ret (createdBook,
                  (errors ++ ["Cover upload failed - using external URL"])%list))
      else ret (createdBook, errors)
  | _ => ret (createdBook, errors)
  end.

Definition ingestBook (request : IngestBookRequest) : M IngestBookResponse :=
  let errors : list string := [] in
  try_catch
    ((* 1. Validate input *)
     if negb (isValidISBN (req_isbn request)) then
       throw (BookstoreError "Invalid ISBN format" 400)
     else if leb (req_cost_price request) (of_Z 0) then
       throw (BookstoreError "Cost price must be greater than 0" 400)
     else
       (* 2. Check if book already exists *)
       let* existing := getBookByISBN (req_isbn request) in
       match existing with
       | Some existing =>
           throw (BookstoreError
                    ("Book with ISBN " ++ req_isbn request
                     ++ " already exists (ID: " ++ id existing ++ ")") 409)
       | None =>
           (* 3. Fetch metadata from external sources *)
           let* externalMetadata :=
             try_catch (fetchMetadata (req_isbn request))
               (fun error =>
                  throw (BookstoreError
                           ("Failed to fetch metadata: " ++ exn_message error)
                           404)) in
           (* 4. Merge and extract metadata *)
           let merged := MetadataService.mergeMetadata externalMetadata in
           let title :=
             match custom_title request with
             | Some (String c t) => String c t
             | _ => m_title merged
             end in
           let author :=
             match custom_author request with
             | Some (String c a) => String c a
             | _ => m_author merged
             end in
           (* 5. Enrichment *)
           let ai_enrichment :=
             EnrichmentService.enrichBook title author (m_description merged) in
           (* 6. the cover is transferred after the book has its id *)
           let cover_url := m_cover_url merged in
           (* 7. Calculate suggested price *)
           let cost_price_pence := poundsToPence (req_cost_price request) in
           let suggested_price :=
             MetadataService.calculateSuggestedPrice cost_price_pence
               (condition_label (req_condition request)) in
           (* 8. Create book record in database *)
           let book :=
             {| p_id := None; p_isbn := Some (req_isbn request);
                p_title := Some title; p_author := Some author;
                p_description := m_description merged;
                p_cover_url := cover_url;
                p_condition := Some (req_condition request);
                p_cost_price := Some cost_price_pence;
                p_sell_price := Some suggested_price;
                p_in_stock := Some true;
                p_metadata := Some (m_metadata merged);
                p_vibe_tags := vibe_keywords ai_enrichment;
                p_ai_enrichment := Some ai_enrichment;
                p_review_summary := None; p_vector_id := None;
                p_status := Some pending_review;
                p_created_at := None; p_updated_at := None;
                p_sold_at := None |} in
           let* createdBook := createBook book in
           (* 9. Upload cover with book ID *)
           let* transferred := transfer_cover createdBook cover_url errors in
           (* 10. Return response *)
           ret {| success := true;
                  book_id := id (fst transferred);
                  book := fst transferred;
                  resp_metadata := externalMetadata;
                  suggested_price := Some (div suggested_price (of_Z 100));
                  errors :=
                    match snd transferred with
                    | [] => None
                    | e :: es => Some (e :: es)
                    end |}
       end)
    (fun error =>
       match error with
       | BookstoreError _ _ => throw error
       | OtherError message =>
           throw (BookstoreError ("Failed to ingest book: " ++ message) 500)
       end).

(** The optional body of the approve action; [final_price] is in pounds. *)
Record ApproveUpdates : Type := {
  final_price : option number;
  upd_title : option string;
  upd_author : option string;
  upd_description : option string;
  upd_vibe_tags : option string
}.

Definition approveBook (bookId : string) (updates : option ApproveUpdates)
    : M Book :=
  let* book := getBook bookId in
  match book with
  | None => throw (BookstoreError "Book not found" 404)
  | Some book =>
      if BookStatus_eqb (status book) live then
        throw (BookstoreError "Book is already live" 400)
      else
        let updateData :=
          {| p_id := None; p_isbn := None;
             p_title := or_null (updates ?. upd_title);
             p_author := or_null (updates ?. upd_author);
             p_description := or_null (updates ?. upd_description);
             p_cover_url := None; p_condition := None; p_cost_price := None;
             p_sell_price :=
               match updates ?. final_price with
               | Some price =>
                   if JsNumber.truthy price then Some (poundsToPence price)
                   else None
               | None => None
               end;
             p_in_stock := None; p_metadata := None;
             p_vibe_tags := or_null (updates ?. upd_vibe_tags);
             p_ai_enrichment := None; p_review_summary := None;
             p_vector_id := None;
             p_status := Some live;
             p_created_at := None; p_updated_at := None; p_sold_at := None |} in
        let* updatedBook := updateBook bookId updateData in
        match updatedBook with
        | None => throw (BookstoreError "Failed to update book" 500)
        | Some updatedBook => ret updatedBook
        end
  end.

Definition rejectBook (bookId : string) : M unit :=
  let* book := getBook bookId in
  match book with
  | None => throw (BookstoreError "Book not found" 404)
  | Some _ =>
      let* updated :=
        updateBook bookId
          {| p_id := None; p_isbn := None; p_title := None; p_author := None;
             p_description := None; p_cover_url := None; p_condition := None;
             p_cost_price := None; p_sell_price := None; p_in_stock := None;
             p_metadata := None; p_vibe_tags := None; p_ai_enrichment := None;
             p_review_summary := None; p_vector_id := None;
             p_status := Some removed;
             p_created_at := None; p_updated_at := None; p_sold_at := None |} in
      ret tt
  end.

(* ---------------------------------------------------------------- *)
(** *** routes/public.ts: GET /api/search *)

Inductive ApiResponse (A : Type) : Type :=
| successResponse (data : A) (status : Z)
| errorResponse (error : string) (status : Z).
Arguments successResponse {A} data status.
Arguments errorResponse {A} error status.

Definition handleError {A : Type} (error : Exn) : ApiResponse A :=
  match error with
  | BookstoreError message statusCode => errorResponse message statusCode
  | OtherError message => errorResponse message 500
  end.

Record SearchResults : Type := {
  query : string;
  results : list Book;
  total : nat
}.

(** [url.searchParams.get(name) || fallback] *)
Definition param_or (param : option string) (fallback : string) : string :=
  match param with
  | Some (String c rest) => String c rest
  | _ => fallback
  end.

(** A statement with the number [x] bound to [LIMIT ?] or [OFFSET ?]:
    it runs with the integer SQLite takes for [x], and fails with a
    datatype mismatch when there is none ([parseInt] gave [NaN]). *)
Definition with_integer {A : Type} (x : number) (statement : Z -> M A) : M A :=
  match sql_integer x with
  | Some n => statement n
  | None => throw (OtherError "D1_ERROR: datatype mismatch")
  end.

(** [q] and [limit_param] are the [q] and [limit] parameters of the URL
    ([None] when they are not there). *)
Definition searchBooks (q limit_param : option string)
    : M (ApiResponse SearchResults) :=
  try_catch
    (let limit := parseInt (param_or limit_param "20") in
     match q with
     | Some (String c rest) =>
         let query := String c rest in
         if (String.length (trim query) =? 0)%nat then
           ret (errorResponse "Search query is required" 400)
         else
           let* books := with_integer limit (searchBooksByKeyword query) in
           ret (successResponse
                  {| query := query; results := books;
                     total := List.length books |} 200)
     | _ => ret (errorResponse "Search query is required" 400)
     end)
    (fun error => ret (handleError error)).

End Services.

Arguments successResponse {A} data status.
Arguments errorResponse {A} error status.

(* ================================================================== *)
(** ** The specification's vocabulary *)
(* ================================================================== *)

(** The characters an identifier is made of: the ten digits and the
    letter X in either case. *)
Definition IsbnChar (c : ascii) : Prop :=
  In c ["0"; "1"; "2"; "3"; "4"; "5"; "6"; "7"; "8"; "9"; "X"; "x"]%char.

(** [Stripped raw t]: [t] is [raw] with every character that is not an
    [IsbnChar] removed. *)
Inductive Stripped : string -> string -> Prop :=
| Stripped_empty : Stripped "" ""
| Stripped_keep (c : ascii) (raw t : string) :
    IsbnChar c -> Stripped raw t -> Stripped (String c raw) (String c t)
| Stripped_drop (c : ascii) (raw t : string) :
    ~ IsbnChar c -> Stripped raw t -> Stripped (String c raw) t.

(** The check digit rule of ISBN-10 (the weighted sum of the ten digits,
    weights 10 down to 1 and X standing for 10, is a multiple of 11): the
    rule a checksum verification would apply. *)
Definition isbn_digit_value (c : ascii) : Z :=
  if is_digit c then Z.of_nat (nat_of_ascii c) - 48 else 10.

Fixpoint isbn10_weighted_sum (weight : Z) (s : string) : Z :=
  match s with
  | EmptyString => 0
  | String c s' => weight * isbn_digit_value c + isbn10_weighted_sum (weight - 1) s'
  end.

Definition isbn10_checksum_ok (isbn : string) : bool :=
  isbn10_weighted_sum 10 (normalizeISBN isbn) mod 11 =? 0.

(** [kw] occurs in [d] as a substring, letter case set aside. *)
Definition occurs_ci (kw d : string) : Prop :=
  exists pre mid post : string,
    d = pre ++ mid ++ post /\ toLowerCase mid = toLowerCase kw.

(** A text value a provider offers: defined and not empty. *)
Definition present (o : option string) : Prop :=
  exists s : string, o = Some s /\ s <> "".

(** A provider offers authors: the list is there and not empty. *)
Definition offers {A : Type} (o : option (list A)) : Prop :=
  exists l : list A, o = Some l /\ l <> [].

(** The multiplier table of the pricing rule. *)
Definition condition_multiplier (c : BookCondition) : number :=
  match c with
  | like_new => literal 12 10
  | very_good => literal 11 10
  | good => literal 10 10
  | acceptable => literal 8 10
  end.

(** The pricing rule as the specification words it, for a cost in minor
    units: the product in major units, rounded up to a whole unit, less
    0.01, times 100, rounded. *)
Definition specified_price (cost_minor : number) (c : BookCondition) : number :=
  let major := div cost_minor (of_Z 100) in
  let product := mul (mul major (literal 30 10)) (condition_multiplier c) in
  Math_round (mul (sub (Math_ceil product) (literal 1 100)) (of_Z 100)).

(** The price the code suggests for a cost of [c] minor units is an
    integer above the specified one. *)
Definition suggested_above_specified (c : Z) (cond : BookCondition) : bool :=
  match to_Z (MetadataService.calculateSuggestedPrice (of_Z c) (condition_label cond)),
        to_Z (specified_price (of_Z c) cond) with
  | Some suggested, Some specified => specified <? suggested
  | _, _ => false
  end.

(** The integers [lo], [lo + 1], ..., [lo + n - 1]. *)
Fixpoint Z_range (lo : Z) (n : nat) : list Z :=
  match n with
  | O => []
  | S n' => lo :: Z_range (lo + 1) n'
  end.

(** The key under which the cover of a book is stored, given the response
    of the image host. *)
Definition storage_key (bookId : string) (r : HttpResponse string) : string :=
  "covers/" ++ bookId ++
  getFileExtension
    (match content_type r with
     | Some (String c ct) => String c ct
     | _ => "image/jpeg"
     end).

(** The content type [uploadBookCover] reads off a response:
    [headers.get('content-type') || 'image/jpeg']. *)
Definition served_type (r : HttpResponse string) : string :=
  match content_type r with
  | Some (String c ct) => String c ct
  | _ => "image/jpeg"
  end.

(** The image host names a content type that is not the name of a member
    of [Object.prototype]: the extension of the stored file is then one
    of the table, or [.jpg]. *)
Definition ordinary_type (env : Env) (imageUrl : string) : Prop :=
  forall r : HttpResponse string,
    image_host env imageUrl = Responded r ->
    assoc (served_type r) Object_prototype = None.

(** A text of letters, digits and [-], [.], [_], [~] only: what a URL
    carries in its path as it is written, with nothing to encode, to
    decode or to take for a separator. *)
Fixpoint url_plain (s : string) : bool :=
  match s with
  | EmptyString => true
  | String c s' =>
      (is_alnum c || Ascii.eqb c "-" || Ascii.eqb c "." || Ascii.eqb c "_"
       || Ascii.eqb c "~")
      && url_plain s'
  end.

(** What makes an asset transfer fail: the download is rejected, answers
    with a status that is not ok, its body cannot be read, or the bucket
    refuses the write. *)
Definition transfer_fails (env : Env) (bookId imageUrl : string) : Prop :=
  match image_host env imageUrl with
  | NetworkError => True
  | Responded r =>
      ok r = false \/ body r = Unreadable \/
      r2_put_succeeds env (storage_key bookId r) = false
  end.

(** A lookup that failed, as opposed to one that found nothing. *)
Definition lookup_failed {A : Type} (r : Reply A) : Prop :=
  match r with
  | NetworkError => True
  | Responded resp => ok resp = false \/ body resp = Unreadable
  end.

(** The world once the lookups [rs] have been issued. *)
Definition note_requests (rs : list Request) (w : World) : World :=
  {| DB := DB w; ASSETS := ASSETS w; requests := requests w ++ rs;
     ticks := ticks w; draws := draws w |}.

(** What the two providers have for an identifier, as the lookups see
    it. *)
Definition open_library_has (env : Env) (isbn : string) : option OpenLibraryData :=
  entry_of_reply (open_library_api env (normalizeISBN isbn)).

Definition google_books_has (env : Env) (isbn : string) : option GoogleBooksData :=
  entry_of_reply (google_books_api env (normalizeISBN isbn)).

(** The payload of an update carries none of the fields of the
    allowlist. *)
Definition no_allowed_field (u : PartialBook) : Prop :=
  p_title u = None /\ p_author u = None /\ p_description u = None
  /\ p_cover_url u = None /\ p_sell_price u = None /\ p_in_stock u = None
  /\ p_metadata u = None /\ p_vibe_tags u = None /\ p_ai_enrichment u = None
  /\ p_review_summary u = None /\ p_vector_id u = None /\ p_status u = None.

(** The value of a field after an update: the payload's when the payload
    has one, the old one otherwise. *)
Definition or_keep {X : Type} (old : X) (o : option X) : X :=
  match o with
  | Some new => new
  | None => old
  end.

(** The value an assignment writes to a given column, if it writes that
    column. *)
Definition writes_title (a : Assignment) : option string :=
  match a with Set_title v => Some v | _ => None end.
Definition writes_author (a : Assignment) : option string :=
  match a with Set_author v => Some v | _ => None end.
Definition writes_description (a : Assignment) : option (option string) :=
  match a with Set_description v => Some (Some v) | _ => None end.
Definition writes_cover_url (a : Assignment) : option (option string) :=
  match a with Set_cover_url v => Some (Some v) | _ => None end.
Definition writes_sell_price (a : Assignment) : option number :=
  match a with Set_sell_price v => Some (unsigned_zero v) | _ => None end.
Definition writes_in_stock (a : Assignment) : option Z :=
  match a with Set_in_stock v => Some v | _ => None end.
Definition writes_metadata (a : Assignment) : option (option BookMetadata) :=
  match a with Set_metadata v => Some (Some v) | _ => None end.
Definition writes_vibe_tags (a : Assignment) : option (option string) :=
  match a with Set_vibe_tags v => Some (Some v) | _ => None end.
Definition writes_ai_enrichment (a : Assignment) : option (option AIEnrichment) :=
  match a with Set_ai_enrichment v => Some (Some v) | _ => None end.
Definition writes_review_summary (a : Assignment) : option (option string) :=
  match a with Set_review_summary v => Some (Some v) | _ => None end.
Definition writes_vector_id (a : Assignment) : option (option string) :=
  match a with Set_vector_id v => Some (Some v) | _ => None end.
Definition writes_status (a : Assignment) : option BookStatus :=
  match a with Set_status v => Some v | _ => None end.
Definition writes_updated_at (a : Assignment) : option string :=
  match a with Set_updated_at v => Some v | _ => None end.

(** The assignments [updateBook] sends to the database. *)
Definition update_sets (updates : PartialBook) (now : string) : list Assignment :=
  omap (field_assignment updates) allowedFields ++ [Set_updated_at now].

(** A query parameter that [parseInt] reads as the integer [n]: its text,
    or the fallback when it is absent or empty, is ASCII, begins (after
    white space) with the digits of [n], and [n] is of a size that numbers
    hold exactly. *)
Definition reads_as (param : option string) (fallback : string) (n : Z) : Prop :=
  is_ascii (param_or param fallback) = true
  /\ to_Z (parseInt (param_or param fallback)) = Some n
  /\ - 2 ^ 53 <= n <= 2 ^ 53.

(** A query parameter in which [parseInt] finds no number. *)
Definition reads_as_NaN (param : option string) (fallback : string) : Prop :=
  is_ascii (param_or param fallback) = true
  /\ parseInt (param_or param fallback) = S754_nan.

(** The sell price of a payload is one the table refuses: a number that
    is not finite arrives as NULL in a NOT NULL column. *)
Definition price_refused (updates : PartialBook) : bool :=
  match p_sell_price updates with
  | Some v => negb (is_finite v)
  | None => false
  end.

(** The world after one reading of the clock. *)
Definition tick (w : World) : World :=
  {| DB := DB w; ASSETS := ASSETS w; requests := requests w;
     ticks := S (ticks w); draws := draws w |}.

(** The approval rule as the specification states it: only a draft or a
    book pending review can be approved. *)
Definition approval_only_from_draft_or_pending : Prop :=
  forall (env : Env) (bookId : string) (updates : option ApproveUpdates)
         (w w' : World) (existing approved : Book),
    fst (getBook bookId w) = Returned (Some existing) ->
    approveBook env bookId updates w = (Returned approved, w') ->
    status existing = draft \/ status existing = pending_review.

(** The payload [approveBook] hands to [updateBook]. *)
Definition approval_payload (updates : option ApproveUpdates) : PartialBook :=
  {| p_id := None; p_isbn := None;
     p_title := or_null (updates ?. upd_title);
     p_author := or_null (updates ?. upd_author);
     p_description := or_null (updates ?. upd_description);
     p_cover_url := None; p_condition := None; p_cost_price := None;
     p_sell_price :=
       match updates ?. final_price with
       | Some price =>
           if JsNumber.truthy price then Some (poundsToPence price) else None
       | None => None
       end;
     p_in_stock := None; p_metadata := None;
     p_vibe_tags := or_null (updates ?. upd_vibe_tags);
     p_ai_enrichment := None; p_review_summary := None; p_vector_id := None;
     p_status := Some live;
     p_created_at := None; p_updated_at := None; p_sold_at := None |}.

(** The merge of two provider results. *)
Definition merge_of (ol : option OpenLibraryData) (gb : option GoogleBooksData)
    : MergedMetadata :=
  MetadataService.mergeMetadata {| open_library := ol; google_books := gb |}.

(** [x] comes no later than [y] in ascending order of [key]. *)
Definition ascending_by {A : Type} (key : A -> Q) (x y : A) : Prop :=
  (key x <= key y)%Q.

(** The merge of what the two providers have for an identifier. *)
Definition merged_for (env : Env) (isbn : string) : MergedMetadata :=
  MetadataService.mergeMetadata
    {| open_library := open_library_has env isbn;
       google_books := google_books_has env isbn |}.

(** The record [ingestBook] hands to [createBook]. *)
Definition ingest_data (env : Env) (req : IngestBookRequest) : PartialBook :=
  let merged := merged_for env (req_isbn req) in
  let title :=
    match custom_title req with
    | Some (String c t) => String c t
    | _ => m_title merged
    end in
  let author :=
    match custom_author req with
    | Some (String c a) => String c a
    | _ => m_author merged
    end in
  let ai_enrichment :=
    EnrichmentService.enrichBook title author (m_description merged) in
  let cost_price_pence := poundsToPence (req_cost_price req) in
  {| p_id := None; p_isbn := Some (req_isbn req);
     p_title := Some title; p_author := Some author;
     p_description := m_description merged;
     p_cover_url := m_cover_url merged;
     p_condition := Some (req_condition req);
     p_cost_price := Some cost_price_pence;
     p_sell_price :=
       Some (MetadataService.calculateSuggestedPrice cost_price_pence
               (condition_label (req_condition req)));
     p_in_stock := Some true;
     p_metadata := Some (m_metadata merged);
     p_vibe_tags := vibe_keywords ai_enrichment;
     p_ai_enrichment := Some ai_enrichment;
     p_review_summary := None; p_vector_id := None;
     p_status := Some pending_review;
     p_created_at := None; p_updated_at := None; p_sold_at := None |}.

(** The price [ingestBook] suggests for a request, in pence. *)
Definition suggested_pence (req : IngestBookRequest) : number :=
  MetadataService.calculateSuggestedPrice (poundsToPence (req_cost_price req))
    (condition_label (req_condition req)).

(** A request that ingestion takes as far as the asset transfer: it
    passes validation, its identifier is not in the store, one provider at
    least has data, the id drawn for the book is not taken, and its cost
    and the price suggested for it are finite amounts of pence (the
    table takes no other). *)
Definition ingestible (env : Env) (req : IngestBookRequest) (w : World) : Prop :=
  isValidISBN (req_isbn req) = true
  /\ leb (req_cost_price req) (of_Z 0) = false
  /\ List.find (fun r => String.eqb (r_isbn r) (req_isbn req)) (books (DB w)) = None
  /\ (open_library_has env (req_isbn req) <> None
      \/ google_books_has env (req_isbn req) <> None)
  /\ existsb (fun r => String.eqb (r_id r) (randomUUID env (draws w)))
       (books (DB w)) = false
  /\ is_finite (poundsToPence (req_cost_price req)) = true
  /\ is_finite (suggested_pence req) = true.

(** The full-text index agrees with the table: rowids are not shared, and
    every index row is the one the triggers write for a row of [books]. *)
Definition index_consistent (db : D1Database) : Prop :=
  List.NoDup (List.map rowid (books db))
  /\ forall f : FtsRow, In f (books_fts db) ->
       exists r : BookRow, In r (books db) /\ f = fts_of_row r.

(** The rank the search orders by. *)
Definition rank (env : Env) (query : string) (db : D1Database)
    (fb : FtsRow * BookRow) : Q :=
  fts5_bm25 env query (books_fts db) (fst fb).

(* ================================================================== *)
(** ** A small bookshop to run the services on *)
(* ================================================================== *)

Module Shop.

Definition moonstone : GoogleBooksData :=
  {| gb_title := Some "The Moonstone";
     gb_authors := Some ["Wilkie Collins"];
     gb_description := Some "A dark and twisted mystery.";
     gb_cover_url := Some "https://books.example/moonstone.png";
     gb_publishedDate := Some "1868"; gb_publisher := None;
     gb_pageCount := None; gb_categories := None;
     gb_averageRating := None; gb_ratingsCount := None |}.

Definition moonstone_ol : OpenLibraryData :=
  {| ol_title := Some "The moonstone (OL)";
     ol_authors := Some [{| name := "Collins, Wilkie" |}];
     ol_description := Some "A novel.";
     ol_cover_url := Some "https://covers.example/ol.jpg";
     ol_publish_date := None; ol_publishers := Some ["Tinsley Brothers"];
     ol_number_of_pages := None; ol_subjects := None |}.

Definition digit_string (n : nat) : string :=
  String (ascii_of_nat (48 + n)) "".

(** The words of an ASCII text as the default tokenizer of FTS5 cuts
    them: the maximal runs of letters and digits, in lower case.  [word]
    is the run being read. *)
Fixpoint words_from (word : string) (s : string) : list string :=
  match s with
  | EmptyString => match word with EmptyString => [] | _ => [word] end
  | String c s' =>
      if is_alnum c then words_from (word ++ String (lower_char c) "") s'
      else match word with
           | EmptyString => words_from "" s'
           | _ => word :: words_from "" s'
           end
  end.

Definition words (s : string) : list string := words_from "" s.

(** The words of the indexed columns of an index row. *)
Definition indexed_words (f : FtsRow) : list string :=
  (words (fts_title f) ++ words (fts_author f)
   ++ words (match fts_description f with Some d => d | None => "" end)
   ++ words (match fts_vibe_tags f with Some v => v | None => "" end))%list.

(** The queries this engine is asked: one word of letters and digits
    that is not an operator of the query language.  Such a query matches
    the rows that have the word, letter case set aside. *)
Definition one_word (q : string) : bool :=
  negb (String.eqb q "")
  && String.eqb (filter_chars is_alnum q) q
  && negb (existsb (String.eqb q) ["AND"; "OR"; "NOT"; "NEAR"]).

(** Google Books knows every identifier, Open Library is down, and the
    image host answers 503. *)
Definition env : Env :=
  {| open_library_api := fun _ => NetworkError;
     google_books_api := fun _ =>
       Responded {| ok := true; http_status := 200; content_type := None;
                    body := Content moonstone |};
     image_host := fun _ =>
       Responded {| ok := false; http_status := 503; content_type := None;
                    body := Unreadable |};
     r2_put_succeeds := fun _ => true;
     clock := fun n => "2025-10-21T10:00:0" ++ digit_string n ++ ".000Z";
     randomUUID := fun n => "book-" ++ digit_string n;
     fts5_accepts := one_word;
     fts5_match := fun q f => existsb (String.eqb (toLowerCase q)) (indexed_words f);
     fts5_bm25 := fun _ _ f => inject_Z (fts_rowid f) |}.

(** Neither provider has anything. *)
Definition env_nothing : Env :=
  {| open_library_api := fun _ => NetworkError;
     google_books_api := fun _ =>
       Responded {| ok := true; http_status := 200; content_type := None;
                    body := Empty |};
     image_host := image_host env;
     r2_put_succeeds := r2_put_succeeds env;
     clock := clock env; randomUUID := randomUUID env;
     fts5_accepts := fts5_accepts env;
     fts5_match := fts5_match env; fts5_bm25 := fts5_bm25 env |}.

Definition empty_world : World :=
  {| DB := {| books := []; books_fts := [] |}; ASSETS := ∅;
     requests := []; ticks := 0; draws := 0 |}.

Definition request : IngestBookRequest :=
  {| req_isbn := "978-0-375-75785-3"; req_condition := very_good;
     req_cost_price := of_Z 5; custom_title := None; custom_author := None |}.

Definition bad_request : IngestBookRequest :=
  {| req_isbn := "12345"; req_condition := good;
     req_cost_price := of_Z 5; custom_title := None; custom_author := None |}.

(** The world after [request] has been ingested: one book, pending
    review. *)
Definition world_pending : World := snd (ingestBook env request empty_world).

(** One book that has been sold. *)
Definition sold_row : BookRow :=
  {| rowid := 1; r_id := "book-0"; r_isbn := "9780375757853";
     r_title := "The Moonstone"; r_author := "Wilkie Collins";
     r_description := None; r_cover_url := None; r_condition := good;
     r_cost_price := of_Z 500; r_sell_price := of_Z 1499; r_in_stock := 0;
     r_metadata := None; r_vibe_tags := None; r_ai_enrichment := None;
     r_review_summary := None; r_vector_id := None; r_status := sold;
     r_created_at := "2025-10-20T09:00:00.000Z";
     r_updated_at := "2025-10-20T12:00:00.000Z";
     r_sold_at := Some "2025-10-20T12:00:00.000Z" |}.

Definition world_sold : World :=
  {| DB := {| books := [sold_row]; books_fts := [fts_of_row sold_row] |};
     ASSETS := ∅; requests := []; ticks := 0; draws := 1 |}.

(** The data of a book that its caller marks as out of stock and gives no
    status. *)
Definition out_of_stock_data : PartialBook :=
  {| p_id := None; p_isbn := Some "9780141439600"; p_title := Some "Emma";
     p_author := Some "Jane Austen"; p_description := None;
     p_cover_url := None; p_condition := None;
     p_cost_price := Some (of_Z 200); p_sell_price := Some (of_Z 599);
     p_in_stock := Some false; p_metadata := None; p_vibe_tags := None;
     p_ai_enrichment := None; p_review_summary := None; p_vector_id := None;
     p_status := None; p_created_at := None; p_updated_at := None;
     p_sold_at := None |}.

(** An update that tries to rewrite the identity of a book along with
    its title. *)
Definition retitle : PartialBook :=
  {| p_id := Some "another-id"; p_isbn := Some "0000000000";
     p_title := Some "The Moonstone (2nd ed.)"; p_author := None;
     p_description := None; p_cover_url := None;
     p_condition := Some like_new; p_cost_price := Some (of_Z 1);
     p_sell_price := None; p_in_stock := None; p_metadata := None;
     p_vibe_tags := None; p_ai_enrichment := None; p_review_summary := None;
     p_vector_id := None; p_status := None;
     p_created_at := Some "1999-01-01T00:00:00.000Z"; p_updated_at := None;
     p_sold_at := None |}.

End Shop.

(* ================================================================== *)
(** ** The rest of utils/helpers.ts *)
(* ================================================================== *)

(** [pence / 100] *)
Definition penceToPounds (pence : number) : number := div pence (of_Z 100).

(** [text.substring(0, n)]: a negative [n] counts as 0, an [n] beyond the
    end as the length. *)
Definition substring_to (n : Z) (text : string) : string :=
  String.substring 0 (Z.to_nat n) text.

(** [truncate(text, maxLength)] for an integer [maxLength]. *)
Definition truncate (text : string) (maxLength : Z) : string :=
  if Z.of_nat (String.length text) <=? maxLength then text
  else substring_to (maxLength - 3) text ++ "...".

(** [s.replace(/p+/g, rep)] for a class [p] of characters: every maximal
    run of characters of the class becomes one [rep].  [in_run] says
    whether the character before was of the class. *)
Fixpoint replace_runs (p : ascii -> bool) (rep : ascii) (in_run : bool)
    (s : string) : string :=
  match s with
  | EmptyString => EmptyString
  | String c s' =>
      if p c then
        if in_run then replace_runs p rep true s'
        else String rep (replace_runs p rep true s')
      else String c (replace_runs p rep false s')
  end.

Definition is_newline (c : ascii) : bool := Ascii.eqb c "010"%char.

(** [text.replace(/\s+/g, ' ').replace(/\n+/g, '\n').trim()] *)
Definition cleanText (text : string) : string :=
  trim (replace_runs is_newline "010"%char false
          (replace_runs is_space " "%char false text)).

(* ================================================================== *)
(** ** The rest of the record store *)
(* ================================================================== *)

(** The string a status is at run time. *)
Definition status_label (s : BookStatus) : string :=
  match s with
  | draft => "draft"
  | pending_review => "pending_review"
  | live => "live"
  | sold => "sold"
  | removed => "removed"
  end.

(** The [filters] argument of [listBooks].  The status is the string the
    admin route hands over, which need not be the label of a status. *)
Record ListFilters : Type := {
  f_status : option string;
  f_in_stock : option bool;
  f_limit : option Z;
  f_offset : option Z
}.

(** The WHERE clause [listBooks] builds: a condition per filter that is
    there ([if (status)], [if (in_stock !== undefined)]). *)
Definition list_where (filters : ListFilters) (r : BookRow) : bool :=
  match f_status filters with
  | Some (String c s) => String.eqb (status_label (r_status r)) (String c s)
  | _ => true
  end
  &&
  match f_in_stock filters with
  | Some in_stock => r_in_stock r =? (if in_stock then 1 else 0)
  | None => true
  end.

(** Descending, stable insertion sort on a text key, compared byte by
    byte as SQLite compares TEXT: the reading of [ORDER BY ... DESC]
    taken here. *)
Fixpoint insert_desc {A : Type} (key : A -> string) (x : A) (l : list A)
    : list A :=
  match l with
  | [] => [x]
  | y :: l' =>
      if String.leb (key y) (key x) then x :: y :: l'
      else y :: insert_desc key x l'
  end.

Definition order_by_desc {A : Type} (key : A -> string) (l : list A) : list A :=
  fold_right (insert_desc key) [] l.

(** [OFFSET n]: a negative offset is no offset. *)
Definition sql_offset {A : Type} (n : Z) (l : list A) : list A :=
  drop (Z.to_nat n) l.

(** The rows a [listBooks] query ranges over, newest first. *)
Definition list_rows (filters : ListFilters) (db : D1Database) : list BookRow :=
  order_by_desc r_created_at (List.filter (list_where filters) (books db)).

Definition listBooks (filters : ListFilters) : M (list Book * Z) :=
  fun w =>
    let limit := match f_limit filters with Some n => n | None => 50 end in
    let offset := match f_offset filters with Some n => n | None => 0 end in
    (* SELECT COUNT( * ) ... WHERE ... *)
    let total :=
      Z.of_nat (List.length (List.filter (list_where filters) (books (DB w)))) in
    (* SELECT * ... WHERE ... ORDER BY created_at DESC LIMIT ? OFFSET ? *)
    let results := sql_limit limit (sql_offset offset (list_rows filters (DB w))) in
    (Returned (List.map deserializeBook results, total), w).

(** [UPDATE books SET ... WHERE id = ?] for a row transformation [f],
    with the AFTER UPDATE trigger, row by row. *)
Fixpoint update_rows_by (id : string) (f : BookRow -> BookRow)
    (rows : list BookRow) (fts : list FtsRow) : list BookRow * list FtsRow :=
  match rows with
  | [] => ([], fts)
  | r :: rest =>
      if String.eqb (r_id r) id then
        let (rest', fts') := update_rows_by id f rest (books_fts_update r (f r) fts) in
        (f r :: rest', fts')
      else
        let (rest', fts') := update_rows_by id f rest fts in
        (r :: rest', fts')
  end.

(** [SET in_stock = 0, status = 'sold', sold_at = ?, updated_at = ?] *)
Definition sold_at_time (now : string) (r : BookRow) : BookRow :=
  {| rowid := rowid r; r_id := r_id r; r_isbn := r_isbn r;
     r_title := r_title r; r_author := r_author r;
     r_description := r_description r; r_cover_url := r_cover_url r;
     r_condition := r_condition r; r_cost_price := r_cost_price r;
     r_sell_price := r_sell_price r; r_in_stock := 0;
     r_metadata := r_metadata r; r_vibe_tags := r_vibe_tags r;
     r_ai_enrichment := r_ai_enrichment r;
     r_review_summary := r_review_summary r; r_vector_id := r_vector_id r;
     r_status := sold; r_created_at := r_created_at r;
     r_updated_at := now; r_sold_at := Some now |}.

Section MoreServices.

Variable env : Env.

Definition markBookAsSold (bookId : string) : M unit :=
  let* now := getCurrentTimestamp env in
  fun w =>
    let (rows, fts) :=
      update_rows_by bookId (sold_at_time now) (books (DB w)) (books_fts (DB w)) in
    (Returned tt, set_DB {| books := rows; books_fts := fts |} w).

(* ---------------------------------------------------------------- *)
(** *** routes/public.ts and routes/admin.ts: listing and lookup *)

Record BookPage : Type := {
  pg_books : list Book;
  pg_total : Z;
  pg_limit : Z;
  pg_offset : Z;
  has_more : bool
}.

Definition book_page (result : list Book * Z) (limit offset : Z) : BookPage :=
  {| pg_books := fst result; pg_total := snd result;
     pg_limit := limit; pg_offset := offset;
     has_more := offset + Z.of_nat (List.length (fst result)) <? snd result |}.

(** GET /api/books from the call of [db.listBooks] on; [limit] and
    [offset] are the integers the two query parameters have been parsed
    to.  The handler with its parsing is [listPublicBooks_request]. *)
Definition listPublicBooks (limit offset : Z) : M (ApiResponse BookPage) :=
  try_catch
    (let* result :=
       listBooks {| f_status := Some "live"; f_in_stock := Some true;
                    f_limit := Some limit; f_offset := Some offset |} in
     ret (successResponse (book_page result limit offset) 200))
    (fun error => ret (handleError error)).

(** GET /api/books: the handler, on the [limit] and [offset] parameters
    of the URL ([None] when they are not there).  [limit] and [offset]
    are numbers in the source; [listBooks] binds them to [LIMIT ?] and
    [OFFSET ?], where both have to be integers for the statement to
    run, and the page is built from these integers. *)
Definition listPublicBooks_request (limit_param offset_param : option string)
    : M (ApiResponse BookPage) :=
  try_catch
    (let limit := parseInt (param_or limit_param "20") in
     let offset := parseInt (param_or offset_param "0") in
     with_integer limit (fun limit =>
     with_integer offset (fun offset =>
       let* result :=
         listBooks {| f_status := Some "live"; f_in_stock := Some true;
                      f_limit := Some limit; f_offset := Some offset |} in
       ret (successResponse (book_page result limit offset) 200))))
    (fun error => ret (handleError error)).

(** GET /api/admin/books: the handler, on the [status], [in_stock],
    [limit] and [offset] parameters of the URL. *)
Definition admin_listBooks (status in_stock limit_param offset_param : option string)
    : M (ApiResponse BookPage) :=
  try_catch
    (let limit := parseInt (param_or limit_param "50") in
     let offset := parseInt (param_or offset_param "0") in
     with_integer limit (fun limit =>
     with_integer offset (fun offset =>
       let* result :=
         listBooks {| f_status := status;
                      f_in_stock :=
                        match in_stock with
                        | Some (String c s) => Some (String.eqb (String c s) "true")
                        | _ => None
                        end;
                      f_limit := Some limit; f_offset := Some offset |} in
       ret (successResponse (book_page result limit offset) 200))))
    (fun error => ret (handleError error)).

(** GET /api/books/:id *)
Definition getPublicBook (bookId : string) : M (ApiResponse Book) :=
  try_catch
    (let* book := getBook bookId in
     match book with
     | None => ret (errorResponse "Book not found" 404)
     | Some book =>
         if negb (BookStatus_eqb (status book) live) || negb (in_stock book)
         then ret (errorResponse "Book not available" 404)
         else ret (successResponse book 200)
     end)
    (fun error => ret (handleError error)).

(** GET /api/admin/books/:id *)
Definition admin_getBook (bookId : string) : M (ApiResponse Book) :=
  try_catch
    (let* book := getBook bookId in
     match book with
     | None => ret (errorResponse "Book not found" 404)
     | Some book => ret (successResponse book 200)
     end)
    (fun error => ret (handleError error)).

End MoreServices.

(* ================================================================== *)
(** ** utils/router.ts and the route table of index.ts *)
(* ================================================================== *)

(** A path pattern as [addRoute] compiles it: literal characters and
    [([^/]+)] groups, one for each [:name]. *)
Inductive Segment : Type :=
| Lit (c : ascii)
| Param (name : string).

(** [\w] *)
Definition is_word (c : ascii) : bool :=
  is_digit c || is_upper c || is_lower c || Ascii.eqb c "_"%char.

(** What is pending when the scan of a path stops or leaves a name: a
    colon that no word character followed stays a literal colon, a colon
    with a name is a group. *)
Definition close_name (pending : option string) : list Segment :=
  match pending with
  | None => []
  | Some EmptyString => [Lit ":"%char]
  | Some name => [Param name]
  end.

(** [path.replace(/:(\w+)/g, ...)], as a scan from left to right:
    [pending] is [Some name] while the scan is inside [:name], the name
    being the longest run of word characters after the colon. *)
Fixpoint segments (pending : option string) (path : string) : list Segment :=
  match path with
  | EmptyString => close_name pending
  | String c path' =>
      match pending with
      | Some name =>
          if is_word c then segments (Some (name ++ String c "")) path'
          else
            (close_name pending ++
             (if Ascii.eqb c ":"%char then segments (Some "") path'
              else Lit c :: segments None path'))%list
      | None =>
          if Ascii.eqb c ":"%char then segments (Some "") path'
          else Lit c :: segments None path'
      end
  end.

Definition param_names (pattern : list Segment) : list string :=
  omap (fun s => match s with Param name => Some name | Lit _ => None end)
       pattern.

(** The group [([^/]+)] followed by the rest of the pattern [k]: the
    longest run of characters other than [/] is tried first, then shorter
    ones; [taken] is what the group holds so far. *)
Fixpoint capture (k : string -> option (list string)) (taken s : string)
    : option (list string) :=
  let stop :=
    match taken with
    | EmptyString => None
    | _ => cons taken <$> k s
    end in
  match s with
  | EmptyString => stop
  | String c s' =>
      if Ascii.eqb c "/"%char then stop
      else
        match capture k (taken ++ String c "") s' with
        | Some groups => Some groups
        | None => stop
        end
  end.

(** [pathname.match(new RegExp('^' + pattern + '$'))]: the groups of the
    match, if the whole of [s] matches.  A [Lit] stands for itself, which
    is what the regular expression does for the characters of the paths
    registered below: none of them is special in a pattern. *)
Fixpoint match_segments (pattern : list Segment) (s : string)
    : option (list string) :=
  match pattern with
  | [] => match s with EmptyString => Some [] | String _ _ => None end
  | Lit c :: pattern' =>
      match s with
      | String d s' => if Ascii.eqb c d then match_segments pattern' s' else None
      | EmptyString => None
      end
  | Param _ :: pattern' => capture (match_segments pattern') "" s
  end.

(** The handlers index.ts registers. *)
Inductive Handler : Type :=
| H_healthCheck
| H_listPublicBooks
| H_getPublicBook
| H_searchBooks
| H_assets
| H_admin_ingestBook
| H_admin_listBooks
| H_admin_getBook
| H_admin_updateBook
| H_admin_rejectBook
| H_admin_approveBook.

Record Route : Type := {
  method : string;
  pattern : list Segment;
  handler : Handler;
  paramNames : list string
}.

Definition addRoute (method path : string) (handler : Handler)
    (routes : list Route) : list Route :=
  let pattern := segments None path in
  (routes ++ [{| method := method; pattern := pattern; handler := handler;
                 paramNames := param_names pattern |}])%list.

(** The registrations of index.ts, in their order. *)
Definition registrations : list (string * string * Handler) :=
  [("GET", "/api/health", H_healthCheck);
   ("GET", "/api/books", H_listPublicBooks);
   ("GET", "/api/books/:id", H_getPublicBook);
   ("GET", "/api/search", H_searchBooks);
   ("GET", "/assets/:path", H_assets);
   ("POST", "/api/admin/books/ingest", H_admin_ingestBook);
   ("GET", "/api/admin/books", H_admin_listBooks);
   ("GET", "/api/admin/books/:id", H_admin_getBook);
   ("PATCH", "/api/admin/books/:id", H_admin_updateBook);
   ("DELETE", "/api/admin/books/:id", H_admin_rejectBook);
   ("PATCH", "/api/admin/books/:id/approve", H_admin_approveBook)].

Definition router : list Route :=
  fold_left
    (fun routes registration =>
       addRoute (fst (fst registration)) (snd (fst registration))
         (snd registration) routes)
    registrations [].

(** What [route] does with a request, up to the call of the handler. *)
Inductive Routed : Type :=
| Preflight                       (* 204 with the CORS headers *)
| Handled (handler : Handler) (params : list (string * string))
| NotFound.                       (* 404 'Not found' *)

(** The loop of [route] over the routes. *)
Fixpoint find_route (routes : list Route) (request_method pathname : string)
    : Routed :=
  match routes with
  | [] => NotFound
  | route :: routes' =>
      if negb (String.eqb (method route) request_method) then
        find_route routes' request_method pathname
      else
        match match_segments (pattern route) pathname with
        | None => find_route routes' request_method pathname
        | Some groups => Handled (handler route) (zip (paramNames route) groups)
        end
  end.

Definition route (request_method pathname : string) : Routed :=
  if String.eqb request_method "OPTIONS" then Preflight
  else find_route router request_method pathname.

(* ================================================================== *)
(** ** The rest of the storage service, and the asset route *)
(* ================================================================== *)

From Stdlib Require DecimalString.

(** What the bucket does with reads and deletes, and the clock of
    [Date.now()]. *)
Record Bucket : Type := {
  r2_get_succeeds : string -> bool;
  r2_delete_succeeds : string -> bool;
  Date_now : nat -> Z
}.

(** The [file] argument of [uploadFile]: a [File], whose content may turn
    out unreadable, or an [ArrayBuffer]. *)
Inductive Upload : Type :=
| File (content : Body string) (type : string)
| ArrayBuffer (data : string).

(** What the asset route answers. *)
Inductive AssetResponse : Type :=
| Image (body contentType : string)          (* 200 *)
| Plain (text : string) (status : Z).

Section Storage.

Variables (env : Env) (bucket : Bucket).

(** [Date.now()], printed as a template literal prints it. *)
Definition Date_now_text : M string :=
  fun w =>
    (Returned (DecimalString.NilZero.string_of_int
                 (Z.to_int (Date_now bucket (ticks w)))),
     tick w).

(** [env.ASSETS.get(key)] *)
Definition ASSETS_get (key : string) : M (option R2Object) :=
  if r2_get_succeeds bucket key then
    fun w => (Returned (ASSETS w !! key), w)
  else throw (OtherError "R2 get failed").

(** [env.ASSETS.delete(key)] *)
Definition ASSETS_delete (key : string) : M unit :=
  if r2_delete_succeeds bucket key then
    fun w =>
      (Returned tt,
       {| DB := DB w; ASSETS := delete key (ASSETS w);
          requests := requests w; ticks := ticks w; draws := draws w |})
  else throw (OtherError "R2 delete failed").

Definition uploadFile (file : Upload) (fileName : string)
    (folder : option string) : M string :=
  let folder := match folder with Some f => f | None => "uploads" end in
  try_catch
    (let* now := Date_now_text in
     let key := folder ++ "/" ++ now ++ "-" ++ fileName in
     let* upload :=
       match file with
       | File content type =>
           match content with
           | Content data => ret (data, type)
           | Empty => ret ("", type)
           | Unreadable => throw (OtherError "file stream failed")
           end
       | ArrayBuffer data => ret (data, "application/octet-stream")
       end in
     ASSETS_put env key (fst upload) (snd upload) ;;
     ret (getPublicUrl key))
    (fun error => throw (BookstoreError "Failed to upload file" 500)).

Definition getFile (key : string) : M (option string) :=
  try_catch
    (let* object := ASSETS_get key in
     match object with
     | None => ret None
     | Some object => ret (Some (r2_data object))
     end)
    (fun error => ret None).

Definition deleteFile (key : string) : M unit :=
  try_catch (ASSETS_delete key) (fun error => ret tt).

(** The handler of [GET /assets/:path] in index.ts; [path] is
    [params.path]. *)
Definition serve_asset (path : string) : M AssetResponse :=
  try_catch
    (let key := "covers/" ++ path in
     let* object := ASSETS_get key in
     match object with
     | None => ret (Plain "Image not found" 404)
     | Some object =>
         ret (Image (r2_data object)
                (match r2_contentType object with
                 | EmptyString => "image/jpeg"
                 | contentType => contentType
                 end))
     end)
    (fun error => ret (Plain "Error fetching image" 500)).

End Storage.

(* ================================================================== *)
(** ** Orders *)
(* ================================================================== *)

(** A value bound to a statement or held by a column. *)
Inductive SqlValue : Type :=
| SqlNull
| SqlText (s : string)
| SqlNumber (n : number).

(** The columns of [orders] in schema.sql. *)
Definition orders_columns : list string :=
  ["id"; "book_id"; "customer_email"; "book_price"; "profit_amount";
   "charity_name"; "stripe_payment_id"; "payment_status"; "base_tx_hash";
   "blockchain_status"; "month_batch"; "donation_status"; "created_at";
   "paid_at"].

(** The columns declared NOT NULL. *)
Definition orders_not_null : list string :=
  ["book_id"; "book_price"; "profit_amount"; "charity_name";
   "stripe_payment_id"; "payment_status"; "month_batch"; "donation_status";
   "created_at"].

(** The CHECK constraints: the values a column may hold besides NULL. *)
Definition orders_checks : list (string * list string) :=
  [("payment_status", ["pending"; "succeeded"; "failed"]);
   ("blockchain_status", ["pending"; "confirmed"; "failed"]);
   ("donation_status", ["pending"; "sent"; "confirmed"])].

(** A row of [orders]: the value of each column; a column that is not
    there is NULL. *)
Definition OrderRow : Type := gmap string SqlValue.

Definition column (row : OrderRow) (name : string) : SqlValue :=
  match row !! name with
  | Some v => v
  | None => SqlNull
  end.

(** The database with its [orders] table beside the world of the book
    services. *)
Record Ledger : Type := {
  world : World;
  orders : list OrderRow
}.

(** Computations on the ledger. *)
Definition LedgerM (A : Type) : Type := Ledger -> Outcome A * Ledger.

Definition lift {A : Type} (m : M A) : LedgerM A :=
  fun l => let (o, w') := m (world l) in (o, {| world := w'; orders := orders l |}).

Definition and_then {A B : Type} (m : LedgerM A) (k : A -> LedgerM B) : LedgerM B :=
  fun l =>
    match m l with
    | (Returned a, l') => k a l'
    | (Thrown e, l') => (Thrown e, l')
    end.

(** The first column of a statement that the table does not have. *)
Definition unknown_column (names : list string) : option string :=
  List.find (fun name => negb (existsb (String.eqb name) orders_columns)) names.

Definition is_null (v : SqlValue) : bool :=
  match v with SqlNull => true | _ => false end.

Definition check_holds (row : OrderRow) (check : string * list string) : bool :=
  match column row (fst check) with
  | SqlNull => true
  | SqlText s => existsb (String.eqb s) (snd check)
  | SqlNumber _ => false
  end.

(** The constraints a row has to satisfy to enter or stay in [orders]:
    NOT NULL, CHECK, and the foreign key on [book_id]. *)
Definition violated_constraint (books : list BookRow) (row : OrderRow)
    : option string :=
  match List.find (fun name => is_null (column row name)) orders_not_null with
  | Some name => Some ("NOT NULL constraint failed: orders." ++ name)
  | None =>
      match List.find (fun check => negb (check_holds row check)) orders_checks with
      | Some check => Some ("CHECK constraint failed: " ++ fst check)
      | None =>
          match column row "book_id" with
          | SqlText book_id =>
              if existsb (fun b => String.eqb (r_id b) book_id) books then None
              else Some "FOREIGN KEY constraint failed"
          | _ => Some "FOREIGN KEY constraint failed"
          end
      end
  end.

(** [INSERT INTO orders (<names>) VALUES (<values>)] *)
Definition sql_insert_order (names : list string) (values : list SqlValue)
    : LedgerM unit :=
  fun l =>
    match unknown_column names with
    | Some name =>
        (Thrown (OtherError ("D1_ERROR: table orders has no column named " ++ name)), l)
    | None =>
        let row : OrderRow := list_to_map (zip names values) in
        if existsb (fun o => match column o "id", column row "id" with
                             | SqlText a, SqlText b => String.eqb a b
                             | _, _ => false
                             end) (orders l)
        then (Thrown (OtherError "D1_ERROR: UNIQUE constraint failed: orders.id"), l)
        else
          match violated_constraint (books (DB (world l))) row with
          | Some message => (Thrown (OtherError ("D1_ERROR: " ++ message)), l)
          | None =>
              (Returned tt, {| world := world l; orders := (orders l ++ [row])%list |})
          end
    end.

(** [UPDATE orders SET <name> = ?, ... WHERE id = ?] *)
Definition sql_update_order (sets : list (string * SqlValue)) (id : string)
    : LedgerM unit :=
  fun l =>
    match unknown_column (List.map fst sets) with
    | Some name => (Thrown (OtherError ("D1_ERROR: no such column: " ++ name)), l)
    | None =>
        let updated (row : OrderRow) : OrderRow :=
          match column row "id" with
          | SqlText i =>
              if String.eqb i id
              then fold_left (fun r s => <[fst s := snd s]> r) sets row
              else row
          | _ => row
          end in
        let rows := List.map updated (orders l) in
        match omap (violated_constraint (books (DB (world l)))) rows with
        | message :: _ => (Thrown (OtherError ("D1_ERROR: " ++ message)), l)
        | [] => (Returned tt, {| world := world l; orders := rows |})
        end
    end.

(** [SELECT * FROM orders WHERE id = ?] then [.first()] *)
Definition sql_select_order (id : string) : LedgerM (option OrderRow) :=
  fun l =>
    (Returned (List.find (fun o => match column o "id" with
                                   | SqlText i => String.eqb i id
                                   | _ => false
                                   end) (orders l)),
     l).

(** The argument of [createOrder]. *)
Record OrderData : Type := {
  od_book_id : string;
  od_customer_email : option string;
  od_book_price : number;
  od_profit_amount : number;
  od_charity_name : string;
  od_stripe_payment_id : string
}.

(** [Order], as [createOrder] builds it; the members it leaves out
    ([base_tx_hash], [blockchain_status], [paid_at]) are not there. *)
Record Order : Type := {
  order_id : string;
  order_data : OrderData;
  payment_status : string;
  month_batch : string;
  donation_status : string;
  order_created_at : string
}.

(** [value || null] for a bound text. *)
Definition text_or_null (o : option string) : SqlValue :=
  match o with
  | Some (String c s) => SqlText (String c s)
  | _ => SqlNull
  end.

(** A number as it is bound: NULL when it is not finite. *)
Definition bound_number (x : number) : SqlValue :=
  match json_number x with
  | Some v => SqlNumber v
  | None => SqlNull
  end.

Section Orders.

Variable env : Env.

Definition createOrder (orderData : OrderData) : LedgerM Order :=
  and_then (lift (generateUUID env)) (fun id =>
  and_then (lift (getCurrentTimestamp env)) (fun now =>
  let monthBatch := String.substring 0 7 now in
  let order :=
    {| order_id := id; order_data := orderData; payment_status := "pending";
       month_batch := monthBatch; donation_status := "pending";
       order_created_at := now |} in
  and_then
    (sql_insert_order
       ["id"; "book_id"; "customer_email"; "book_price"; "profit_amount";
        "charity_name"; "stripe_payment_id"; "payment_status";
        "month_batch"; "donation_status"; "created_at"]
       [SqlText (order_id order);
        SqlText (od_book_id (order_data order));
        text_or_null (od_customer_email (order_data order));
        bound_number (od_book_price (order_data order));
        bound_number (od_profit_amount (order_data order));
        SqlText (od_charity_name (order_data order));
        SqlText (od_stripe_payment_id (order_data order));
        SqlText (payment_status order);
        SqlText (month_batch order);
        SqlText (donation_status order);
        SqlText (order_created_at order)])
    (fun _ => fun l => (Returned order, l)))).

Definition getOrder (id : string) : LedgerM (option OrderRow) := sql_select_order id.

(** [status] is ['succeeded'] or ['failed']. *)
Definition updateOrderPaymentStatus (orderId : string) (succeeded : bool)
    (txHash : option string) : LedgerM unit :=
  and_then (lift (getCurrentTimestamp env)) (fun now =>
  sql_update_order
    [("payment_status", SqlText (if succeeded then "succeeded" else "failed"));
     ("paid_at", if succeeded then SqlText now else SqlNull);
     ("base_tx_hash", text_or_null txHash);
     ("updated_at", SqlText now)]
    orderId).

End Orders.

(** [x] comes no later than [y] in descending order of a text [key]. *)
Definition descending_by {A : Type} (key : A -> string) (x y : A) : Prop :=
  String.leb (key y) (key x) = true.

(** The filters of [listBooks] with another page. *)
Definition page_of (filters : ListFilters) (limit offset : Z) : ListFilters :=
  {| f_status := f_status filters; f_in_stock := f_in_stock filters;
     f_limit := Some limit; f_offset := Some offset |}.

(** Every row of [books] has its row in the full-text index. *)
Definition index_complete (db : D1Database) : Prop :=
  forall r : BookRow, In r (books db) -> In (fts_of_row r) (books_fts db).

(** The store as the schema wants it: ids and ISBNs are not shared, and
    the full-text index holds the rows of the table: all of them, each
    once, and nothing else. *)
Definition store_ok (db : D1Database) : Prop :=
  List.NoDup (List.map r_id (books db))
  /\ List.NoDup (List.map r_isbn (books db))
  /\ index_consistent db
  /\ index_complete db
  /\ List.NoDup (List.map fts_rowid (books_fts db)).

(** A computation keeps a property of the database, whether it returns or
    throws. *)
Definition preserves {A : Type} (P : D1Database -> Prop) (m : M A) : Prop :=
  forall w : World, P (DB w) -> P (DB (snd (m w))).

(** The payload of the update that follows a cover transfer. *)
Definition cover_only (url : string) : PartialBook :=
  {| p_id := None; p_isbn := None; p_title := None;
     p_author := None; p_description := None;
     p_cover_url := Some url;
     p_condition := None; p_cost_price := None;
     p_sell_price := None; p_in_stock := None;
     p_metadata := None; p_vibe_tags := None;
     p_ai_enrichment := None; p_review_summary := None;
     p_vector_id := None; p_status := None;
     p_created_at := None; p_updated_at := None;
     p_sold_at := None |}.

(** The payload of [rejectBook]. *)
Definition removal : PartialBook :=
  {| p_id := None; p_isbn := None; p_title := None; p_author := None;
     p_description := None; p_cover_url := None; p_condition := None;
     p_cost_price := None; p_sell_price := None; p_in_stock := None;
     p_metadata := None; p_vibe_tags := None; p_ai_enrichment := None;
     p_review_summary := None; p_vector_id := None;
     p_status := Some removed;
     p_created_at := None; p_updated_at := None; p_sold_at := None |}.

(** The row transformation of a dynamic UPDATE. *)
Definition assign (sets : list Assignment) (r : BookRow) : BookRow :=
  fold_left apply_assignment sets r.

(** The table after [UPDATE books SET ... WHERE id = ?] for a row
    transformation [f]. *)
Definition updated_db (id : string) (f : BookRow -> BookRow) (db : D1Database)
    : D1Database :=
  {| books := fst (update_rows_by id f (books db) (books_fts db));
     books_fts := snd (update_rows_by id f (books db) (books_fts db)) |}.

(** The filters of the public listing. *)
Definition public_filters : ListFilters :=
  {| f_status := Some "live"; f_in_stock := Some true;
     f_limit := None; f_offset := None |}.

(** A book the shop shows to the public: live and in stock. *)
Definition on_sale (b : Book) : Prop := status b = live /\ in_stock b = true.

(** A book the public views do not show: the lookup answers 404, no page
    of the listing and no search result holds it. *)
Definition publicly_hidden (env : Env) (bookId : string) (w : World) : Prop :=
  (exists message : string,
     getPublicBook bookId w = (Returned (errorResponse message 404), w))
  /\ (forall (limit offset : Z) (page : BookPage),
        listPublicBooks limit offset w = (Returned (successResponse page 200), w) ->
        forall b : Book, In b (pg_books page) -> id b <> bookId)
  /\ (forall (q : string) (limit : Z) (hits : list Book),
        searchBooksByKeyword env q limit w = (Returned hits, w) ->
        forall b : Book, In b hits -> id b <> bookId).

(** The error [ingestBook] raises for an ISBN that is already stored. *)
Definition already_exists (isbn bookId : string) : Exn :=
  BookstoreError
    ("Book with ISBN " ++ isbn ++ " already exists (ID: " ++ bookId ++ ")") 409.

(** A string without [/]. *)
Fixpoint slash_free (s : string) : bool :=
  match s with
  | EmptyString => true
  | String c s' => negb (Ascii.eqb c "/"%char) && slash_free s'
  end.

(** No pattern of a list of routes matches a path. *)
Definition unmatched (routes : list Route) (pathname : string) : bool :=
  forallb (fun r => match match_segments (pattern r) pathname with
                    | None => true
                    | Some _ => false
                    end) routes.

(** The row [createOrder] binds to its INSERT. *)
Definition order_row (order : Order) : OrderRow :=
  list_to_map
    (zip ["id"; "book_id"; "customer_email"; "book_price"; "profit_amount";
          "charity_name"; "stripe_payment_id"; "payment_status";
          "month_batch"; "donation_status"; "created_at"]
         [SqlText (order_id order);
          SqlText (od_book_id (order_data order));
          text_or_null (od_customer_email (order_data order));
          bound_number (od_book_price (order_data order));
          bound_number (od_profit_amount (order_data order));
          SqlText (od_charity_name (order_data order));
          SqlText (od_stripe_payment_id (order_data order));
          SqlText (payment_status order);
          SqlText (month_batch order);
          SqlText (donation_status order);
          SqlText (order_created_at order)]).

(** The order [createOrder] makes of its argument, an id and a time. *)
Definition new_order (id now : string) (orderData : OrderData) : Order :=
  {| order_id := id; order_data := orderData; payment_status := "pending";
     month_batch := String.substring 0 7 now; donation_status := "pending";
     order_created_at := now |}.

(** The id of a row of [orders] is [id]. *)
Definition has_order_id (id : string) (o : OrderRow) : bool :=
  match column o "id" with
  | SqlText i => String.eqb i id
  | _ => false
  end.

(** Two numbers are the same double. *)
Definition number_eqb (x y : number) : bool :=
  match x, y with
  | S754_zero s, S754_zero s' => Bool.eqb s s'
  | S754_infinity s, S754_infinity s' => Bool.eqb s s'
  | S754_nan, S754_nan => true
  | S754_finite s m e, S754_finite s' m' e' =>
      Bool.eqb s s' && Pos.eqb m m' && Z.eqb e e'
  | _, _ => false
  end.

(** A whole number of pence has a value in pounds that is not zero and
    that converts back to it. *)
Definition price_kept (p : Z) : bool :=
  JsNumber.truthy (penceToPounds (of_Z p))
  && number_eqb (poundsToPence (penceToPounds (of_Z p))) (of_Z p).

(** An approval that only overrides the price, given in pounds. *)
Definition price_override (pounds : number) : option ApproveUpdates :=
  Some {| final_price := Some pounds; upd_title := None; upd_author := None;
          upd_description := None; upd_vibe_tags := None |}.

(** A text does not begin with white space. *)
Definition starts_clean (s : string) : Prop :=
  match s with
  | EmptyString => True
  | String c _ => is_space c = false
  end.

(** Every white space character of a text is a space, and none is
    followed by white space. *)
Fixpoint single_spaced (s : string) : bool :=
  match s with
  | EmptyString => true
  | String c s' =>
      (if is_space c
       then Ascii.eqb c " "%char
            && match s' with
               | EmptyString => true
               | String d _ => negb (is_space d)
               end
       else true)
      && single_spaced s'
  end.

(* ================================================================== *)
(** ** More of the bookshop *)
(* ================================================================== *)

Module Depot.

(** The image host serves a PNG for every URL; everything else is as in
    [Shop.env]. *)
Definition env : Env :=
  {| open_library_api := open_library_api Shop.env;
     google_books_api := google_books_api Shop.env;
     image_host := fun _ =>
       Responded {| ok := true; http_status := 200;
                    content_type := Some "image/png";
                    body := Content "PNG-bytes" |};
     r2_put_succeeds := fun _ => true;
     clock := clock Shop.env; randomUUID := randomUUID Shop.env;
     fts5_accepts := fts5_accepts Shop.env;
     fts5_match := fts5_match Shop.env; fts5_bm25 := fts5_bm25 Shop.env |}.

(** A bucket that can be read and deleted from. *)
Definition bucket : Bucket :=
  {| r2_get_succeeds := fun _ => true;
     r2_delete_succeeds := fun _ => true;
     Date_now := fun n => 1761040800000 + Z.of_nat n |}.

(** The shop after the request of [Shop] has been ingested and approved
    without edits: one live book. *)
Definition world_live : World :=
  snd (approveBook Shop.env "book-0" None Shop.world_pending).

(** An order for the sold book of [Shop.world_sold]. *)
Definition order_data : OrderData :=
  {| od_book_id := "book-0"; od_customer_email := Some "";
     od_book_price := of_Z 1499; od_profit_amount := of_Z 999;
     od_charity_name := "Book Aid"; od_stripe_payment_id := "pi_0" |}.

Definition ledger : Ledger := {| world := Shop.world_sold; orders := [] |}.

End Depot.

(* ================================================================== *)
(** ** Identifier validation *)
(* ================================================================== *)

Lemma isbn_char_spec (c : ascii) : isbn_char c = true <-> IsbnChar c.
Proof.
  unfold IsbnChar.
  destruct c as [[] [] [] [] [] [] [] []]; vm_compute;
    (split; [ intros H; first [ discriminate H | tauto ]
            | intros H; first [ reflexivity
                              | exfalso; intuition discriminate ] ]).
Qed.

Lemma length_map_chars (f : ascii -> ascii) (s : string) :
  String.length (map_chars f s) = String.length s.
Proof. induction s as [|c s IH]; simpl; congruence. Qed.

Lemma filter_chars_Stripped (raw : string) :
  Stripped raw (filter_chars isbn_char raw).
Proof.
  induction raw as [|c raw IH]; simpl.
  - constructor.
  - destruct (isbn_char c) eqn:E.
    + apply Stripped_keep; [ now apply isbn_char_spec | exact IH ].
    + apply Stripped_drop; [ | exact IH ].
      intros H. apply isbn_char_spec in H. congruence.
Qed.

Lemma Stripped_functional (raw t : string) :
  Stripped raw t -> t = filter_chars isbn_char raw.
Proof.
  induction 1 as [|c raw t Hc _ IH|c raw t Hc _ IH]; simpl.
  - reflexivity.
  - apply isbn_char_spec in Hc. rewrite Hc. now f_equal.
  - destruct (isbn_char c) eqn:E; [ | exact IH ].
    apply isbn_char_spec in E. contradiction.
Qed.

Lemma isValidISBN_length (raw : string) :
  isValidISBN raw = true <->
  String.length (filter_chars isbn_char raw) = 10%nat \/
  String.length (filter_chars isbn_char raw) = 13%nat.
Proof.
  unfold isValidISBN, normalizeISBN, toUpperCase.
  rewrite length_map_chars, orb_true_iff, !Nat.eqb_eq. tauto.
Qed.

Lemma ingestBook_invalid_isbn (env : Env) (req : IngestBookRequest) (w : World) :
  isValidISBN (req_isbn req) = false ->
  ingestBook env req w = (Thrown (BookstoreError "Invalid ISBN format" 400), w).
Proof.
  intros H. unfold ingestBook, try_catch. rewrite H. reflexivity.
Qed.

(** C8. A raw string passes ISBN validation exactly when what is left of
    it after removing every character other than a digit or the letter X
    (either case) has length 10 or 13.  Nothing else is looked at: a
    ten-digit string whose check digit is wrong passes.  A string that
    does not pass stops ingestion at once with the client error
    "Invalid ISBN format" (400), before anything is fetched or stored. *)
Theorem isbn_validation_is_a_length_check :
  (forall raw : string,
     isValidISBN raw = true <->
     exists t : string,
       Stripped raw t /\ (String.length t = 10%nat \/ String.length t = 13%nat))
  /\ (exists raw : string,
        isValidISBN raw = true /\ isbn10_checksum_ok raw = false)
  /\ (forall (env : Env) (req : IngestBookRequest) (w : World),
        isValidISBN (req_isbn req) = false ->
        ingestBook env req w =
          (Thrown (BookstoreError "Invalid ISBN format" 400), w)).
Proof.
  split; [ | split ].
  - intros raw. rewrite isValidISBN_length. split.
    + intros H. exists (filter_chars isbn_char raw).
      split; [ apply filter_chars_Stripped | exact H ].
    + intros (t & Hs & Hl). apply Stripped_functional in Hs. now subst t.
  - exists "0-306-40615-3". split; reflexivity.
  - apply ingestBook_invalid_isbn.
Qed.

Lemma isbn_validation_witness :
  isValidISBN (req_isbn Shop.bad_request) = false /\
  ingestBook Shop.env Shop.bad_request Shop.empty_world =
    (Thrown (BookstoreError "Invalid ISBN format" 400), Shop.empty_world).
Proof.
  split; [ reflexivity | ].
  apply (proj2 (proj2 isbn_validation_is_a_length_check)). reflexivity.
Defined.

(* ================================================================== *)
(** ** Substrings and the intensity score *)
(* ================================================================== *)

Lemma startsWith_spec (p s : string) :
  startsWith p s = true <-> exists post : string, s = p ++ post.
Proof.
  revert s. induction p as [|a p IH]; intros s; simpl.
  - split; [ intros _; now exists s | reflexivity ].
  - destruct s as [|b s].
    + split; [ discriminate | intros (post & H); discriminate H ].
    + destruct (Ascii.eqb_spec a b) as [->|Hne].
      * rewrite IH. split; intros (post & H); exists post.
        -- now rewrite H.
        -- now injection H.
      * split; [ discriminate | ].
        intros (post & H). injection H as H1 _. congruence.
Qed.

Lemma includes_spec (s kw : string) :
  includes s kw = true <-> exists pre post : string, s = pre ++ kw ++ post.
Proof.
  induction s as [|c s IH]; simpl.
  - rewrite orb_false_r, startsWith_spec. split.
    + intros (post & H). now exists "", post.
    + intros (pre & post & H). destruct pre as [|a pre]; [ | discriminate H ].
      now exists post.
  - rewrite orb_true_iff, startsWith_spec, IH. split.
    + intros [(post & H)|(pre & post & H)].
      * now exists "", post.
      * exists (String c pre), post. simpl. now rewrite H.
    + intros (pre & post & H). destruct pre as [|a pre].
      * left. now exists post.
      * right. injection H as _ H. now exists pre, post.
Qed.

Lemma map_chars_app (f : ascii -> ascii) (a b : string) :
  map_chars f (a ++ b) = map_chars f a ++ map_chars f b.
Proof.
  induction a as [|c a IH]; simpl; [ reflexivity | now rewrite IH ].
Qed.

Lemma map_chars_app_inv (f : ascii -> ascii) (d a b : string) :
  map_chars f d = a ++ b ->
  exists a' b' : string, d = a' ++ b' /\ map_chars f a' = a /\ map_chars f b' = b.
Proof.
  revert d. induction a as [|c a IH]; intros d H.
  - now exists "", d.
  - destruct d as [|x d]; [ discriminate H | ].
    simpl in H. injection H as Hc H.
    destruct (IH d H) as (a' & b' & -> & Ha & Hb).
    exists (String x a'), b'. simpl. now rewrite Hc, Ha, Hb.
Qed.

(** On a keyword written in lower case, the test of the source is the
    case-insensitive occurrence of the specification. *)
Lemma includes_toLowerCase (d kw : string) :
  toLowerCase kw = kw ->
  includes (toLowerCase d) kw = true <-> occurs_ci kw d.
Proof.
  intros Hkw. unfold occurs_ci. rewrite includes_spec, Hkw. split.
  - intros (pre & post & H).
    apply map_chars_app_inv in H as (pre' & rest & -> & _ & H).
    apply map_chars_app_inv in H as (mid & post' & -> & Hmid & _).
    now exists pre', mid, post'.
  - intros (pre & mid & post & -> & Hmid).
    exists (toLowerCase pre), (toLowerCase post).
    unfold toLowerCase in *. now rewrite !map_chars_app, Hmid.
Qed.

Lemma shockKeywords_lower (kw : string) :
  In kw EnrichmentService.shockKeywords -> toLowerCase kw = kw.
Proof.
  unfold EnrichmentService.shockKeywords. simpl.
  intros H. repeat (destruct H as [<-|H]; [ reflexivity | ]). contradiction.
Qed.


Lemma occurs_ci_nonempty (kw : string) :
  In kw EnrichmentService.shockKeywords -> ~ occurs_ci kw "".
Proof.
  intros Hin (pre & mid & post & H & Hmid).
  destruct pre; [ | discriminate H ]. destruct mid; [ | discriminate H ].
  rewrite (shockKeywords_lower kw Hin) in Hmid. subst kw.
  simpl in Hin. intuition discriminate.
Qed.



(* ================================================================== *)
(** ** Merging the two providers *)
(* ================================================================== *)

Lemma truthy_present (o : option string) : JsString.truthy o = true <-> present o.
Proof.
  unfold present. destruct o as [[|c s]|]; simpl; split.
  - discriminate.
  - intros (s & [= <-] & H). congruence.
  - intros _. eexists. split; [ reflexivity | discriminate ].
  - reflexivity.
  - discriminate.
  - intros (s & H & _). discriminate H.
Qed.

Lemma truthy_not_present (o : option string) :
  JsString.truthy o = false <-> ~ present o.
Proof.
  rewrite <- truthy_present. destruct (JsString.truthy o); split; congruence.
Qed.

Lemma js_or_present (a b : option string) : present a -> a |s| b = a.
Proof. intros H. apply truthy_present in H. unfold js_or. now rewrite H. Qed.

Lemma js_or_absent (a b : option string) : ~ present a -> a |s| b = b.
Proof. intros H. apply truthy_not_present in H. unfold js_or. now rewrite H. Qed.

Lemma offers_cases {A : Type} (o : option (list A)) :
  (exists x l, o = Some (x :: l)) \/ (~ offers o /\ (o = None \/ o = Some [])).
Proof.
  destruct o as [[|x l]|].
  - right. split; [ intros (l & [= <-] & H); congruence | now right ].
  - left. now exists x, l.
  - right. split; [ intros (l & H & _); discriminate H | now left ].
Qed.

Section Merge.

Variables (ol : option OpenLibraryData) (gb : option GoogleBooksData).

Lemma merged_title :
  (present (gb ?. gb_title) -> Some (m_title (merge_of ol gb)) = gb ?. gb_title)
  /\ (~ present (gb ?. gb_title) -> present (ol ?. ol_title) ->
      Some (m_title (merge_of ol gb)) = ol ?. ol_title)
  /\ (~ present (gb ?. gb_title) -> ~ present (ol ?. ol_title) ->
      m_title (merge_of ol gb) = "Unknown Title").
Proof.
  unfold merge_of, MetadataService.mergeMetadata; simpl.
  split; [ | split ].
  - intros Hb. rewrite (js_or_present _ _ Hb), (js_or_present _ _ Hb).
    destruct Hb as (s & -> & _). reflexivity.
  - intros Hb Ha. rewrite (js_or_absent _ _ Hb), (js_or_present _ _ Ha).
    destruct Ha as (s & -> & _). reflexivity.
  - intros Hb Ha. now rewrite (js_or_absent _ _ Hb), (js_or_absent _ _ Ha).
Qed.

Lemma merged_author :
  (forall authors, gb ?. gb_authors = Some authors -> authors <> [] ->
     m_author (merge_of ol gb) = join ", " authors)
  /\ (~ offers (gb ?. gb_authors) ->
      forall authors, ol ?. ol_authors = Some authors -> authors <> [] ->
        m_author (merge_of ol gb) = join ", " (List.map name authors))
  /\ (~ offers (gb ?. gb_authors) -> ~ offers (ol ?. ol_authors) ->
      m_author (merge_of ol gb) = "Unknown Author").
Proof.
  unfold merge_of, MetadataService.mergeMetadata, MetadataService.extractAuthor;
    simpl.
  split; [ | split ].
  - intros authors -> Hne. destruct authors; [ congruence | reflexivity ].
  - intros Hb authors Ha Hne.
    destruct (offers_cases (gb ?. gb_authors)) as [(x & l & Hx)|[_ [-> | ->]]].
    + exfalso. apply Hb. exists (x :: l). split; [ exact Hx | discriminate ].
    + rewrite Ha. destruct authors; [ congruence | reflexivity ].
    + rewrite Ha. destruct authors; [ congruence | reflexivity ].
  - intros Hb Ha.
    destruct (offers_cases (gb ?. gb_authors)) as [(x & l & Hx)|[_ Hg]].
    { exfalso. apply Hb. exists (x :: l). split; [ exact Hx | discriminate ]. }
    destruct (offers_cases (ol ?. ol_authors)) as [(x & l & Hx)|[_ Ho]].
    { exfalso. apply Ha. exists (x :: l). split; [ exact Hx | discriminate ]. }
    destruct Hg as [-> | ->], Ho as [-> | ->]; reflexivity.
Qed.

Lemma merged_description :
  (present (gb ?. gb_description) -> m_description (merge_of ol gb) = gb ?. gb_description)
  /\ (~ present (gb ?. gb_description) ->
      m_description (merge_of ol gb) = ol ?. ol_description).
Proof.
  unfold merge_of, MetadataService.mergeMetadata; simpl. split; intros Hb.
  - now rewrite (js_or_present _ _ Hb).
  - now rewrite (js_or_absent _ _ Hb).
Qed.

Lemma merged_cover :
  (present (gb ?. gb_cover_url) -> m_cover_url (merge_of ol gb) = gb ?. gb_cover_url)
  /\ (~ present (gb ?. gb_cover_url) -> present (ol ?. ol_cover_url) ->
      m_cover_url (merge_of ol gb) = ol ?. ol_cover_url)
  /\ (~ present (gb ?. gb_cover_url) -> ~ present (ol ?. ol_cover_url) ->
      m_cover_url (merge_of ol gb) = None).
Proof.
  unfold merge_of, MetadataService.mergeMetadata, MetadataService.extractCoverUrl;
    simpl.
  split; [ | split ].
  - intros Hb. apply truthy_present in Hb. now rewrite Hb.
  - intros Hb Ha. apply truthy_not_present in Hb. apply truthy_present in Ha.
    now rewrite Hb, Ha.
  - intros Hb Ha. apply truthy_not_present in Hb, Ha. now rewrite Hb, Ha.
Qed.

End Merge.

(** An empty string is not a value on offer: [||] passes over it. *)
Example empty_title_is_passed_over :
  m_title
    (merge_of
       (Some {| ol_title := Some "Emma"; ol_authors := None;
                ol_description := None; ol_cover_url := None;
                ol_publish_date := None; ol_publishers := None;
                ol_number_of_pages := None; ol_subjects := None |})
       (Some {| gb_title := Some ""; gb_authors := Some [];
                gb_description := None; gb_cover_url := None;
                gb_publishedDate := None; gb_publisher := None;
                gb_pageCount := None; gb_categories := None;
                gb_averageRating := None; gb_ratingsCount := None |}))
  = "Emma".
Proof. reflexivity. Qed.

(** C3. Field by field, [mergeMetadata] prefers provider B (Google Books)
    over provider A (Open Library).  A text value counts as offered when
    it is defined and not empty, an author list when it is not empty.
    - title: B's when offered, else A's when offered, else "Unknown Title";
    - author: B's authors joined with ", " when B offers authors, else the
      names of A's authors joined with ", ", else "Unknown Author";
    - description: B's when offered, else whatever A has;
    - cover: B's when offered, else A's when offered, else none at all (no
      URL is made up);
    - with a single provider, the values it offers are taken as they are. *)
Theorem mergeMetadata_prefers_google_books :
  forall (ol : option OpenLibraryData) (gb : option GoogleBooksData),
    let merged :=
      MetadataService.mergeMetadata {| open_library := ol; google_books := gb |} in
    ((present (gb ?. gb_title) -> Some (m_title merged) = gb ?. gb_title)
     /\ (~ present (gb ?. gb_title) -> present (ol ?. ol_title) ->
         Some (m_title merged) = ol ?. ol_title)
     /\ (~ present (gb ?. gb_title) -> ~ present (ol ?. ol_title) ->
         m_title merged = "Unknown Title"))
    /\ ((forall authors, gb ?. gb_authors = Some authors -> authors <> [] ->
           m_author merged = join ", " authors)
        /\ (~ offers (gb ?. gb_authors) ->
            forall authors, ol ?. ol_authors = Some authors -> authors <> [] ->
              m_author merged = join ", " (List.map name authors))
        /\ (~ offers (gb ?. gb_authors) -> ~ offers (ol ?. ol_authors) ->
            m_author merged = "Unknown Author"))
    /\ ((present (gb ?. gb_description) ->
           m_description merged = gb ?. gb_description)
        /\ (~ present (gb ?. gb_description) ->
            m_description merged = ol ?. ol_description))
    /\ ((present (gb ?. gb_cover_url) -> m_cover_url merged = gb ?. gb_cover_url)
        /\ (~ present (gb ?. gb_cover_url) -> present (ol ?. ol_cover_url) ->
            m_cover_url merged = ol ?. ol_cover_url)
        /\ (~ present (gb ?. gb_cover_url) -> ~ present (ol ?. ol_cover_url) ->
            m_cover_url merged = None))
    /\ (gb = None -> forall a : OpenLibraryData, ol = Some a ->
          (present (ol_title a) -> Some (m_title merged) = ol_title a)
          /\ (forall authors, ol_authors a = Some authors -> authors <> [] ->
                m_author merged = join ", " (List.map name authors))
          /\ m_description merged = ol_description a
          /\ (present (ol_cover_url a) -> m_cover_url merged = ol_cover_url a))
    /\ (ol = None -> forall b : GoogleBooksData, gb = Some b ->
          (present (gb_title b) -> Some (m_title merged) = gb_title b)
          /\ (forall authors, gb_authors b = Some authors -> authors <> [] ->
                m_author merged = join ", " authors)
          /\ (present (gb_description b) ->
                m_description merged = gb_description b)
          /\ (present (gb_cover_url b) -> m_cover_url merged = gb_cover_url b)).
Proof.
  intros ol gb merged.
  pose proof (merged_title ol gb) as (Ht1 & Ht2 & Ht3).
  pose proof (merged_author ol gb) as (Ha1 & Ha2 & Ha3).
  pose proof (merged_description ol gb) as (Hd1 & Hd2).
  pose proof (merged_cover ol gb) as (Hc1 & Hc2 & Hc3).
  assert (Hnone : forall o : option string, o = None -> ~ present o).
  { intros o -> (s & H & _). discriminate H. }
  assert (Hnoauth : forall (A : Type) (o : option (list A)), o = None -> ~ offers o).
  { intros A o -> (l & H & _). discriminate H. }
  repeat split; try assumption; intros; subst; simpl in *.
  - apply Ht2; [ now apply Hnone | assumption ].
  - eapply Ha2; [ now apply Hnoauth | eassumption | assumption ].
  - apply Hd2. now apply Hnone.
  - apply Hc2; [ now apply Hnone | assumption ].
  - now apply Ht1.
  - eapply Ha1; eassumption.
  - now apply Hd1.
  - now apply Hc1.
Qed.

Lemma mergeMetadata_witness :
  present (Some Shop.moonstone ?. gb_title) /\
  Some (m_title
          (MetadataService.mergeMetadata
             {| open_library := Some Shop.moonstone_ol;
                google_books := Some Shop.moonstone |})) =
    Some "The Moonstone".
Proof.
  assert (Hp : present (Some Shop.moonstone ?. gb_title)).
  { exists "The Moonstone". split; [ reflexivity | discriminate ]. }
  split; [ exact Hp | ].
  exact (proj1 (proj1 (mergeMetadata_prefers_google_books
                         (Some Shop.moonstone_ol) (Some Shop.moonstone))) Hp).
Defined.

(* ================================================================== *)
(** ** Fetching from the two providers *)
(* ================================================================== *)

Lemma fetchMetadata_run (env : Env) (isbn : string) (w : World) :
  fetchMetadata env isbn w =
    (match open_library_has env isbn, google_books_has env isbn with
     | None, None =>
         Thrown (BookstoreError ("Could not fetch metadata for ISBN: " ++ isbn) 404)
     | a, b => Returned {| open_library := a; google_books := b |}
     end,
     note_requests [GetOpenLibrary (normalizeISBN isbn);
                    GetGoogleBooks (normalizeISBN isbn)] w).
Proof.
  unfold fetchMetadata, open_library_has, google_books_has, note_requests,
    bind, settled, fetchOpenLibrary, fetchGoogleBooks, record_request, ret,
    throw, bind; simpl.
  rewrite <- app_assoc; simpl.
  destruct (entry_of_reply (open_library_api env (normalizeISBN isbn)));
    destruct (entry_of_reply (google_books_api env (normalizeISBN isbn)));
    reflexivity.
Qed.

Lemma lookup_failed_absent {A : Type} (r : Reply A) :
  lookup_failed r -> entry_of_reply r = None.
Proof.
  destruct r as [|resp]; simpl; [ reflexivity | ].
  intros [-> | ->]; [ reflexivity | now destruct (ok resp) ].
Qed.

(** Ingestion up to the metadata fetch: a request that passes validation
    and is not a duplicate fails with 404 when the fetch fails. *)
Lemma ingestBook_no_metadata (env : Env) (req : IngestBookRequest) (w : World) :
  isValidISBN (req_isbn req) = true ->
  leb (req_cost_price req) (of_Z 0) = false ->
  List.find (fun r => String.eqb (r_isbn r) (req_isbn req)) (books (DB w)) = None ->
  open_library_has env (req_isbn req) = None ->
  google_books_has env (req_isbn req) = None ->
  ingestBook env req w =
    (Thrown (BookstoreError
               ("Failed to fetch metadata: Could not fetch metadata for ISBN: "
                ++ req_isbn req) 404),
     note_requests [GetOpenLibrary (normalizeISBN (req_isbn req));
                    GetGoogleBooks (normalizeISBN (req_isbn req))] w).
Proof.
  intros Hv Hc Hd Ha Hb.
  unfold ingestBook, try_catch at 1. rewrite Hv, Hc. simpl.
  unfold bind at 1, getBookByISBN. rewrite Hd. simpl.
  unfold bind at 1, try_catch. rewrite fetchMetadata_run, Ha, Hb. reflexivity.
Qed.

(** C4. For every identifier, [fetchMetadata] issues both provider
    lookups, whatever either of them answers.  A lookup that fails
    (rejected fetch, status not ok, unreadable body) counts as an absent
    result and leaves the other provider's result as it is.  The call
    fails exactly when both results are absent, and then with the 404
    error "Could not fetch metadata for ISBN: ..."; otherwise it returns
    the results that exist.  Seen from ingestion: when neither provider
    has data, ingestion fails with a 404 error and the store is as
    before. *)
Theorem fetchMetadata_not_found_iff_both_absent :
  forall (env : Env) (isbn : string) (w : World),
    let a := open_library_has env isbn in
    let b := google_books_has env isbn in
    let outcome := fst (fetchMetadata env isbn w) in
    let after := snd (fetchMetadata env isbn w) in
    requests after =
      (requests w ++ [GetOpenLibrary (normalizeISBN isbn);
                      GetGoogleBooks (normalizeISBN isbn)])%list
    /\ DB after = DB w
    /\ (lookup_failed (open_library_api env (normalizeISBN isbn)) -> a = None)
    /\ (lookup_failed (google_books_api env (normalizeISBN isbn)) -> b = None)
    /\ ((exists e : Exn, outcome = Thrown e) <-> a = None /\ b = None)
    /\ (a = None /\ b = None ->
        outcome =
          Thrown (BookstoreError ("Could not fetch metadata for ISBN: " ++ isbn) 404))
    /\ (a <> None \/ b <> None ->
        outcome = Returned {| open_library := a; google_books := b |})
    /\ (forall req : IngestBookRequest,
          req_isbn req = isbn ->
          isValidISBN isbn = true ->
          leb (req_cost_price req) (of_Z 0) = false ->
          List.find (fun r => String.eqb (r_isbn r) isbn) (books (DB w)) = None ->
          a = None /\ b = None ->
          exists message : string,
            fst (ingestBook env req w) = Thrown (BookstoreError message 404)
            /\ DB (snd (ingestBook env req w)) = DB w).
Proof.
  intros env isbn w a b outcome after.
  subst outcome after. rewrite fetchMetadata_run. fold a b. simpl.
  split; [ reflexivity | ]. split; [ reflexivity | ].
  split; [ apply lookup_failed_absent | ].
  split; [ apply lookup_failed_absent | ].
  split; [ | split; [ | split ] ].
  - split.
    + intros (e & H). destruct a, b; try discriminate H. now split.
    + intros (-> & ->). eexists. reflexivity.
  - intros (-> & ->). reflexivity.
  - intros H. destruct a, b; try reflexivity. destruct H; congruence.
  - intros req <- Hv Hc Hd (Ha & Hb).
    rewrite (ingestBook_no_metadata env req w Hv Hc Hd Ha Hb). simpl.
    eexists. split; reflexivity.
Qed.

Lemma fetchMetadata_witness :
  lookup_failed (open_library_api Shop.env (normalizeISBN "978-0-375-75785-3"))
  /\ fst (fetchMetadata Shop.env "978-0-375-75785-3" Shop.empty_world) =
       Returned {| open_library := None; google_books := Some Shop.moonstone |}
  /\ exists message : string,
       fst (ingestBook Shop.env_nothing Shop.request Shop.empty_world) =
         Thrown (BookstoreError message 404)
       /\ DB (snd (ingestBook Shop.env_nothing Shop.request Shop.empty_world)) =
            DB Shop.empty_world.
Proof.
  split; [ exact I | ]. split.
  - destruct (fetchMetadata_not_found_iff_both_absent
                Shop.env "978-0-375-75785-3" Shop.empty_world)
      as (_ & _ & _ & _ & _ & _ & Hfound & _).
    apply Hfound. right. discriminate.
  - destruct (fetchMetadata_not_found_iff_both_absent
                Shop.env_nothing "978-0-375-75785-3" Shop.empty_world)
      as (_ & _ & _ & _ & _ & _ & _ & Hingest).
    apply (Hingest Shop.request); try reflexivity. split; reflexivity.
Defined.

(* ================================================================== *)
(** ** The record store: create *)
(* ================================================================== *)

Lemma find_app_fresh (p : BookRow -> bool) (rows : list BookRow) (row : BookRow) :
  existsb p rows = false -> p row = true ->
  List.find p (rows ++ [row]) = Some row.
Proof.
  intros Hex Hp. induction rows as [|r rows IH]; simpl in *.
  - now rewrite Hp.
  - apply orb_false_iff in Hex as [Hr Hex]. rewrite Hr. now apply IH.
Qed.

Lemma find_none_existsb (p : BookRow -> bool) (rows : list BookRow) :
  List.find p rows = None <-> existsb p rows = false.
Proof.
  induction rows as [|r rows IH]; simpl; [ tauto | ].
  destruct (p r); simpl; [ split; discriminate | exact IH ].
Qed.

(** What [createBook] returns and writes when the insert goes through. *)
Lemma createBook_inversion (env : Env) (bookData : PartialBook)
    (w w' : World) (b : Book) :
  createBook env bookData w = (Returned b, w') ->
  id b = randomUUID env (draws w)
  /\ p_isbn bookData = Some (isbn b)
  /\ in_stock b = true
  /\ status b = match p_status bookData with Some s => s | None => draft end
  /\ created_at b = clock env (ticks w)
  /\ updated_at b = clock env (ticks w)
  /\ existsb (fun r => String.eqb (r_id r) (id b)) (books (DB w)) = false
  /\ existsb (fun r => String.eqb (r_isbn r) (isbn b)) (books (DB w)) = false
  /\ DB w' =
       {| books := books (DB w) ++ [row_of_book (next_rowid (books (DB w))) b];
          books_fts := books_fts (DB w)
                       ++ [fts_of_row (row_of_book (next_rowid (books (DB w))) b)] |}.
Proof.
  unfold createBook, bind, generateUUID, getCurrentTimestamp. cbn beta iota.
  destruct (p_isbn bookData) as [i|]; [ | discriminate ].
  destruct (p_title bookData) as [t|]; [ | discriminate ].
  destruct (p_author bookData) as [a|]; [ | discriminate ].
  destruct (p_cost_price bookData) as [c|]; [ | discriminate ].
  destruct (p_sell_price bookData) as [s|]; [ | discriminate ].
  unfold sql_insert_book, ret, set_DB.
  cbn [id isbn cost_price sell_price DB books ASSETS requests ticks draws].
  destruct (is_finite c); [ | discriminate ].
  destruct (is_finite s); [ | discriminate ]. cbn [negb].
  destruct (existsb (fun r => String.eqb (r_id r) _) _) eqn:Eid;
    [ discriminate | ].
  destruct (existsb (fun r => String.eqb (r_isbn r) _) _) eqn:Eisbn;
    [ discriminate | ].
  intros [= <- <-]. cbn. repeat split; assumption.
Qed.

(** A book is created only with finite prices: a price that is not
    arrives as NULL, which the table refuses. *)
Lemma createBook_finite (env : Env) (bookData : PartialBook)
    (w w' : World) (b : Book) :
  createBook env bookData w = (Returned b, w') ->
  p_cost_price bookData = Some (cost_price b)
  /\ p_sell_price bookData = Some (sell_price b)
  /\ is_finite (cost_price b) = true /\ is_finite (sell_price b) = true.
Proof.
  unfold createBook, bind, generateUUID, getCurrentTimestamp. cbn beta iota.
  destruct (p_isbn bookData) as [i|]; [ | discriminate ].
  destruct (p_title bookData) as [t|]; [ | discriminate ].
  destruct (p_author bookData) as [a|]; [ | discriminate ].
  destruct (p_cost_price bookData) as [c|]; [ | discriminate ].
  destruct (p_sell_price bookData) as [s|]; [ | discriminate ].
  unfold sql_insert_book, ret, set_DB.
  cbn [id isbn cost_price sell_price DB books ASSETS requests ticks draws].
  destruct (is_finite c) eqn:Ec; [ | discriminate ].
  destruct (is_finite s) eqn:Es; [ | discriminate ]. cbn [negb].
  destruct (existsb (fun r => String.eqb (r_id r) _) _); [ discriminate | ].
  destruct (existsb (fun r => String.eqb (r_isbn r) _) _); [ discriminate | ].
  intros [= <- <-]. cbn. repeat split; assumption.
Qed.

(** [createBook] goes through as soon as the required columns are given,
    the two prices are finite, and the new id and the ISBN are not in the
    table yet. *)
Lemma createBook_succeeds (env : Env) (bookData : PartialBook) (w : World) :
  is_Some (p_isbn bookData) -> is_Some (p_title bookData) ->
  is_Some (p_author bookData) ->
  (exists c, p_cost_price bookData = Some c /\ is_finite c = true) ->
  (exists s, p_sell_price bookData = Some s /\ is_finite s = true) ->
  existsb (fun r => String.eqb (r_id r) (randomUUID env (draws w)))
    (books (DB w)) = false ->
  (forall i, p_isbn bookData = Some i ->
     existsb (fun r => String.eqb (r_isbn r) i) (books (DB w)) = false) ->
  exists (b : Book) (w' : World), createBook env bookData w = (Returned b, w').
Proof.
  intros [i Hi] [t Ht] [a Ha] (c & Hc & Fc) (s & Hs & Fs) Hid Hisbn.
  unfold createBook, bind, generateUUID, getCurrentTimestamp. cbn beta iota.
  rewrite Hi, Ht, Ha, Hc, Hs. unfold sql_insert_book, ret, set_DB.
  cbn [id isbn cost_price sell_price DB books ASSETS requests ticks draws].
  rewrite Fc, Fs. cbn [negb].
  rewrite Hid, (Hisbn i Hi). eexists. eexists. reflexivity.
Qed.

(** C10. Whatever record [createBook] is given, the book it creates is in
    stock, also when the caller supplied [in_stock = false]; its status
    is the status supplied, and [draft] when none is; its creation and
    update timestamps are one and the same reading of the clock.  The row
    written to the table says the same, and so does the book read back
    from the store. *)
Theorem createBook_in_stock_draft_same_timestamps :
  forall (env : Env) (bookData : PartialBook) (w w' : World) (b : Book),
    createBook env bookData w = (Returned b, w') ->
    in_stock b = true
    /\ status b = match p_status bookData with Some s => s | None => draft end
    /\ created_at b = updated_at b
    /\ (exists row : BookRow,
          books (DB w') = (books (DB w) ++ [row])%list
          /\ r_id row = id b /\ r_in_stock row = 1
          /\ r_status row = status b
          /\ r_created_at row = r_updated_at row)
    /\ (exists stored : Book,
          fst (getBook (id b) w') = Returned (Some stored)
          /\ in_stock stored = true
          /\ status stored = status b
          /\ created_at stored = updated_at stored).
Proof.
  intros env bookData w w' b H.
  apply createBook_inversion in H
    as (Hid & _ & Hstock & Hstatus & Hc & Hu & Hfresh & _ & Hdb).
  split; [ exact Hstock | ]. split; [ exact Hstatus | ].
  split; [ congruence | ]. split.
  - eexists. rewrite Hdb. cbn [books]. split; [ reflexivity | ].
    cbn. rewrite Hstock. repeat split; congruence.
  - unfold getBook. rewrite Hdb. cbn [books fst].
    rewrite find_app_fresh; [ | exact Hfresh | cbn; apply String.eqb_refl ].
    eexists. split; [ reflexivity | ].
    cbn. rewrite Hstock. repeat split; congruence.
Qed.

Lemma createBook_witness :
  p_in_stock Shop.out_of_stock_data = Some false /\
  exists (b : Book) (w' : World),
    createBook Shop.env Shop.out_of_stock_data Shop.empty_world = (Returned b, w')
    /\ in_stock b = true /\ status b = draft.
Proof.
  split; [ reflexivity | ].
  destruct (createBook Shop.env Shop.out_of_stock_data Shop.empty_world)
    as [[b|e] w'] eqn:E.
  - exists b, w'. split; [ reflexivity | ].
    pose proof (createBook_in_stock_draft_same_timestamps _ _ _ _ _ E)
      as (H1 & H2 & _).
    split; [ exact H1 | exact H2 ].
  - exfalso. vm_compute in E. discriminate E.
Defined.

(* ================================================================== *)
(** ** The record store: update *)
(* ================================================================== *)

Lemma fold_assignments_preserve {X : Type} (g : BookRow -> X) :
  (forall r a, g (apply_assignment r a) = g r) ->
  forall sets r, g (fold_left apply_assignment sets r) = g r.
Proof.
  intros Hg sets. induction sets as [|a sets IH]; intros r; simpl.
  - reflexivity.
  - now rewrite IH, Hg.
Qed.

Lemma fold_assignments_writes {X : Type} (g : BookRow -> X)
    (writes : Assignment -> option X) :
  (forall r a, g (apply_assignment r a) = or_keep (g r) (writes a)) ->
  forall sets r,
    g (fold_left apply_assignment sets r) =
    fold_left (fun x a => or_keep x (writes a)) sets (g r).
Proof.
  intros Hg sets. induction sets as [|a sets IH]; intros r; simpl.
  - reflexivity.
  - now rewrite IH, Hg.
Qed.

Lemma fold_writes_omap {X F : Type} (f : F -> option Assignment)
    (writes : Assignment -> option X) (l : list F) (x : X) :
  fold_left (fun x a => or_keep x (writes a)) (omap f l) x =
  fold_left (fun x fld => or_keep x (optional_chain (f fld) writes)) l x.
Proof.
  revert x. induction l as [|fld l IH]; intros x; simpl.
  - reflexivity.
  - destruct (f fld) as [a|]; simpl; apply IH.
Qed.

(** The value a column has after the assignments of [update_sets], from
    what the assignments of each allowed field write to it. *)
Lemma column_after_update {X : Type} (g : BookRow -> X)
    (writes : Assignment -> option X) (u : PartialBook) (now : string)
    (r : BookRow) :
  (forall r a, g (apply_assignment r a) = or_keep (g r) (writes a)) ->
  g (fold_left apply_assignment (update_sets u now) r) =
  or_keep
    (fold_left (fun x fld => or_keep x (optional_chain (field_assignment u fld) writes))
       allowedFields (g r))
    (writes (Set_updated_at now)).
Proof.
  intros Hg. unfold update_sets.
  rewrite (fold_assignments_writes g writes Hg), fold_left_app, fold_writes_omap.
  reflexivity.
Qed.

Lemma chain_fmap {Y X : Type} (c : Y -> Assignment)
    (writes : Assignment -> option X) (o : option Y) :
  optional_chain (c <$> o) writes = optional_chain o (fun y => writes (c y)).
Proof. now destruct o. Qed.

Lemma chain_none {Y X : Type} (o : option Y) :
  optional_chain o (fun _ => @None X) = None.
Proof. now destruct o. Qed.

Lemma chain_some {Y : Type} (o : option Y) : optional_chain o Some = o.
Proof. now destruct o. Qed.

Ltac column g writes :=
  intros;
  rewrite (column_after_update g writes) by (intros ? []; reflexivity);
  cbn [fold_left allowedFields field_assignment];
  rewrite !chain_fmap; cbn [writes];
  rewrite ?chain_none, ?chain_some; cbn [or_keep];
  try reflexivity.

Lemma title_after_update (u : PartialBook) (now : string) (r : BookRow) :
  r_title (fold_left apply_assignment (update_sets u now) r) =
  or_keep (r_title r) (p_title u).
Proof. column r_title writes_title. Qed.

Lemma author_after_update (u : PartialBook) (now : string) (r : BookRow) :
  r_author (fold_left apply_assignment (update_sets u now) r) =
  or_keep (r_author r) (p_author u).
Proof. column r_author writes_author. Qed.

Lemma description_after_update (u : PartialBook) (now : string) (r : BookRow) :
  r_description (fold_left apply_assignment (update_sets u now) r) =
  match p_description u with Some v => Some v | None => r_description r end.
Proof. column r_description writes_description. now destruct (p_description u). Qed.

Lemma cover_url_after_update (u : PartialBook) (now : string) (r : BookRow) :
  r_cover_url (fold_left apply_assignment (update_sets u now) r) =
  match p_cover_url u with Some v => Some v | None => r_cover_url r end.
Proof. column r_cover_url writes_cover_url. now destruct (p_cover_url u). Qed.

Lemma sell_price_after_update (u : PartialBook) (now : string) (r : BookRow) :
  r_sell_price (fold_left apply_assignment (update_sets u now) r) =
  or_keep (r_sell_price r) (unsigned_zero <$> p_sell_price u).
Proof. column r_sell_price writes_sell_price. Qed.

Lemma in_stock_after_update (u : PartialBook) (now : string) (r : BookRow) :
  r_in_stock (fold_left apply_assignment (update_sets u now) r) =
  match p_in_stock u with
  | Some v => if v then 1 else 0
  | None => r_in_stock r
  end.
Proof. column r_in_stock writes_in_stock. now destruct (p_in_stock u). Qed.

Lemma metadata_after_update (u : PartialBook) (now : string) (r : BookRow) :
  r_metadata (fold_left apply_assignment (update_sets u now) r) =
  match p_metadata u with
  | Some v => Some (json_metadata v)
  | None => r_metadata r
  end.
Proof. column r_metadata writes_metadata. now destruct (p_metadata u). Qed.

Lemma vibe_tags_after_update (u : PartialBook) (now : string) (r : BookRow) :
  r_vibe_tags (fold_left apply_assignment (update_sets u now) r) =
  match p_vibe_tags u with Some v => Some v | None => r_vibe_tags r end.
Proof. column r_vibe_tags writes_vibe_tags. now destruct (p_vibe_tags u). Qed.

Lemma ai_enrichment_after_update (u : PartialBook) (now : string) (r : BookRow) :
  r_ai_enrichment (fold_left apply_assignment (update_sets u now) r) =
  match p_ai_enrichment u with
  | Some v => Some (json_enrichment v)
  | None => r_ai_enrichment r
  end.
Proof.
  column r_ai_enrichment writes_ai_enrichment. now destruct (p_ai_enrichment u).
Qed.

Lemma review_summary_after_update (u : PartialBook) (now : string) (r : BookRow) :
  r_review_summary (fold_left apply_assignment (update_sets u now) r) =
  match p_review_summary u with Some v => Some v | None => r_review_summary r end.
Proof.
  column r_review_summary writes_review_summary. now destruct (p_review_summary u).
Qed.

Lemma vector_id_after_update (u : PartialBook) (now : string) (r : BookRow) :
  r_vector_id (fold_left apply_assignment (update_sets u now) r) =
  match p_vector_id u with Some v => Some v | None => r_vector_id r end.
Proof. column r_vector_id writes_vector_id. now destruct (p_vector_id u). Qed.

Lemma status_after_update (u : PartialBook) (now : string) (r : BookRow) :
  r_status (fold_left apply_assignment (update_sets u now) r) =
  or_keep (r_status r) (p_status u).
Proof. column r_status writes_status. Qed.

Lemma updated_at_after_update (u : PartialBook) (now : string) (r : BookRow) :
  r_updated_at (fold_left apply_assignment (update_sets u now) r) = now.
Proof. column r_updated_at writes_updated_at. Qed.

(** The first component of [update_rows]: the rows of the given id take
    the assignments, the others stay. *)
Lemma update_rows_books (id : string) (sets : list Assignment)
    (rows : list BookRow) (fts : list FtsRow) :
  fst (update_rows id sets rows fts) =
  List.map (fun r => if String.eqb (r_id r) id
                     then fold_left apply_assignment sets r else r) rows.
Proof.
  revert fts. induction rows as [|r rows IH]; intros fts; simpl.
  - reflexivity.
  - destruct (String.eqb (r_id r) id).
    + specialize (IH (books_fts_update r (fold_left apply_assignment sets r) fts)).
      destruct (update_rows id sets rows _) as [rest' fts']. simpl in *.
      now rewrite IH.
    + specialize (IH fts).
      destruct (update_rows id sets rows fts) as [rest' fts']. simpl in *.
      now rewrite IH.
Qed.

Lemma find_updated_rows (id other : string) (sets : list Assignment)
    (rows : list BookRow) :
  List.find (fun r => String.eqb (r_id r) other)
    (List.map (fun r => if String.eqb (r_id r) id
                        then fold_left apply_assignment sets r else r) rows) =
  (fun r => if String.eqb (r_id r) id
            then fold_left apply_assignment sets r else r)
    <$> List.find (fun r => String.eqb (r_id r) other) rows.
Proof.
  induction rows as [|r rows IH]; simpl; [ reflexivity | ].
  assert (Hid : r_id (if String.eqb (r_id r) id
                      then fold_left apply_assignment sets r else r) = r_id r).
  { destruct (String.eqb (r_id r) id); [ | reflexivity ].
    now apply (fold_assignments_preserve r_id). }
  rewrite Hid. destruct (String.eqb (r_id r) other); [ reflexivity | exact IH ].
Qed.

Lemma no_allowed_field_no_sets (u : PartialBook) :
  no_allowed_field u <-> omap (field_assignment u) allowedFields = [].
Proof.
  unfold no_allowed_field. split.
  - intros (H1 & H2 & H3 & H4 & H5 & H6 & H7 & H8 & H9 & H10 & H11 & H12).
    cbn. now rewrite H1, H2, H3, H4, H5, H6, H7, H8, H9, H10, H11, H12.
  - cbn. intros H.
    destruct (p_title u); [ discriminate H | ].
    destruct (p_author u); [ discriminate H | ].
    destruct (p_description u); [ discriminate H | ].
    destruct (p_cover_url u); [ discriminate H | ].
    destruct (p_sell_price u); [ discriminate H | ].
    destruct (p_in_stock u); [ discriminate H | ].
    destruct (p_metadata u); [ discriminate H | ].
    destruct (p_vibe_tags u); [ discriminate H | ].
    destruct (p_ai_enrichment u); [ discriminate H | ].
    destruct (p_review_summary u); [ discriminate H | ].
    destruct (p_vector_id u); [ discriminate H | ].
    destruct (p_status u); [ discriminate H | ].
    repeat split.
Qed.

Lemma existsb_omap {F : Type} (f : F -> option Assignment) (l : list F) :
  existsb binds_null (omap f l) =
  existsb (fun fld => match f fld with
                      | Some a => binds_null a
                      | None => false
                      end) l.
Proof.
  induction l as [|fld l IH]; [ reflexivity | ].
  cbn. destruct (f fld) as [a|]; cbn; now rewrite IH.
Qed.

Lemma binds_no_null {Y : Type} (c : Y -> Assignment) (o : option Y) :
  (forall y, binds_null (c y) = false) ->
  match c <$> o with Some a => binds_null a | None => false end = false.
Proof. intros H. destruct o; [ apply H | reflexivity ]. Qed.

Lemma binds_null_sets (u : PartialBook) (now : string) :
  existsb binds_null (update_sets u now) = price_refused u.
Proof.
  unfold update_sets, price_refused. rewrite existsb_app, existsb_omap.
  cbn [existsb allowedFields field_assignment binds_null].
  rewrite (binds_no_null Set_title), (binds_no_null Set_author),
    (binds_no_null Set_description), (binds_no_null Set_cover_url),
    (binds_no_null (fun value : bool => Set_in_stock (if value then 1 else 0))),
    (binds_no_null (fun value => Set_metadata (json_metadata value))),
    (binds_no_null Set_vibe_tags),
    (binds_no_null (fun value => Set_ai_enrichment (json_enrichment value))),
    (binds_no_null Set_review_summary), (binds_no_null Set_vector_id),
    (binds_no_null Set_status) by reflexivity.
  cbn [orb]. rewrite !orb_false_r. now destruct (p_sell_price u).
Qed.

Lemma find_some_existsb (p : BookRow -> bool) (rows : list BookRow) (r : BookRow) :
  List.find p rows = Some r -> existsb p rows = true.
Proof.
  intros H. destruct (existsb p rows) eqn:E; [ reflexivity | ].
  apply find_none_existsb in E. congruence.
Qed.

(** [updateBook] on a row that is there, step by step. *)
Lemma updateBook_run (env : Env) (id : string) (u : PartialBook) (w : World)
    (r : BookRow) :
  List.find (fun r => String.eqb (r_id r) id) (books (DB w)) = Some r ->
  updateBook env id u w =
    match omap (field_assignment u) allowedFields with
    | [] => (Returned (Some (deserializeBook r)), tick w)
    | _ :: _ =>
        if price_refused u then
          (Thrown (OtherError "D1_ERROR: NOT NULL constraint failed: books.sell_price"),
           tick w)
        else
        let sets := update_sets u (clock env (ticks w)) in
        let (rows, fts) := update_rows id sets (books (DB w)) (books_fts (DB w)) in
        (Returned (Some (deserializeBook (fold_left apply_assignment sets r))),
         set_DB {| books := rows; books_fts := fts |} (tick w))
    end.
Proof.
  intros Hfind.
  unfold updateBook, bind at 1, getBook. rewrite Hfind. cbn [fmap option_fmap option_map].
  unfold bind at 1, getCurrentTimestamp. fold (tick w).
  destruct (omap (field_assignment u) allowedFields) as [|a sets] eqn:E.
  - reflexivity.
  - unfold bind, sql_update_book, getBook.
    pose proof (binds_null_sets u (clock env (ticks w))) as Hnull.
    unfold update_sets in Hnull |- *. rewrite E in Hnull |- *. rewrite Hnull.
    cbn [DB tick books books_fts].
    rewrite (find_some_existsb _ _ _ Hfind), andb_true_r.
    destruct (price_refused u); [ reflexivity | ].
    pose proof (update_rows_books id ((a :: sets) ++ [Set_updated_at (clock env (ticks w))])
                  (books (DB w)) (books_fts (DB w))) as Hrows.
    destruct (update_rows id _ (books (DB w)) (books_fts (DB w))) as [rows fts].
    cbn [fst] in Hrows. subst rows. cbn [set_DB DB books].
    rewrite find_updated_rows, Hfind. cbn [fmap option_fmap option_map].
    apply List.find_some in Hfind as [_ Heq]. cbv beta. rewrite Heq. reflexivity.
Qed.

Lemma getBook_inversion (bookId : string) (w : World) (b : Book) :
  fst (getBook bookId w) = Returned (Some b) ->
  exists r : BookRow,
    List.find (fun r => String.eqb (r_id r) bookId) (books (DB w)) = Some r
    /\ b = deserializeBook r.
Proof.
  unfold getBook. cbn [fst].
  destruct (List.find _ _) as [r|]; cbn; intros [= <-].
  now exists r.
Qed.

Lemma update_leaves_other_books (bookId other : string) (sets : list Assignment)
    (rows : list BookRow) (fts : list FtsRow) :
  other <> bookId ->
  List.find (fun r => String.eqb (r_id r) other)
    (fst (update_rows bookId sets rows fts)) =
  List.find (fun r => String.eqb (r_id r) other) rows.
Proof.
  intros Hne. rewrite update_rows_books, find_updated_rows.
  destruct (List.find _ rows) as [r|] eqn:E; [ | reflexivity ].
  apply List.find_some in E as [_ E]. apply String.eqb_eq in E.
  cbn. destruct (String.eqb_spec (r_id r) bookId); [ congruence | reflexivity ].
Qed.

(** C7. An update of a book that is in the store returns the book with
    its id, ISBN, condition, cost price, creation time and sale time as
    they were, whatever the payload says about them.  Each field of the
    allowlist takes the value of the payload when the payload has one and
    keeps its value otherwise; the value is read back as the database
    holds it: a sell price of [-0] as [0], the metadata and enrichment
    bags as their JSON text gives them back (a number that is not finite
    as absent).  A payload with no field of the allowlist is answered with
    the current record and leaves the table alone; otherwise the update
    timestamp is the reading of the clock.  No other book is touched.
    The one payload the table refuses is a sell price that is not a
    finite number: the update then throws and the table is as it was. *)
Theorem updateBook_changes_only_allowed_fields :
  forall (env : Env) (bookId : string) (updates : PartialBook) (w : World)
         (existing : Book),
    fst (getBook bookId w) = Returned (Some existing) ->
    (price_refused updates = true ->
     ~ no_allowed_field updates
     /\ exists (e : Exn) (w' : World),
          updateBook env bookId updates w = (Thrown e, w') /\ DB w' = DB w)
    /\
    (price_refused updates = false ->
    exists (updated : Book) (w' : World),
      updateBook env bookId updates w = (Returned (Some updated), w')
      /\ (id updated = id existing
          /\ isbn updated = isbn existing
          /\ condition updated = condition existing
          /\ cost_price updated = cost_price existing
          /\ created_at updated = created_at existing
          /\ sold_at updated = sold_at existing)
      /\ (title updated = or_keep (title existing) (p_title updates)
          /\ author updated = or_keep (author existing) (p_author updates)
          /\ description updated =
               match p_description updates with
               | Some v => Some v | None => description existing end
          /\ cover_url updated =
               match p_cover_url updates with
               | Some v => Some v | None => cover_url existing end
          /\ sell_price updated =
               or_keep (sell_price existing) (unsigned_zero <$> p_sell_price updates)
          /\ in_stock updated = or_keep (in_stock existing) (p_in_stock updates)
          /\ metadata updated =
               match p_metadata updates with
               | Some v => Some (json_metadata v) | None => metadata existing end
          /\ vibe_tags updated =
               match p_vibe_tags updates with
               | Some v => Some v | None => vibe_tags existing end
          /\ ai_enrichment updated =
               match p_ai_enrichment updates with
               | Some v => Some (json_enrichment v) | None => ai_enrichment existing end
          /\ review_summary updated =
               match p_review_summary updates with
               | Some v => Some v | None => review_summary existing end
          /\ vector_id updated =
               match p_vector_id updates with
               | Some v => Some v | None => vector_id existing end
          /\ status updated = or_keep (status existing) (p_status updates))
      /\ (no_allowed_field updates -> updated = existing /\ DB w' = DB w)
      /\ (~ no_allowed_field updates ->
          updated_at updated = clock env (ticks w))
      /\ (forall other : string, other <> bookId ->
            fst (getBook other w') = fst (getBook other w))).
Proof.
  intros env bookId updates w existing Hget.
  apply getBook_inversion in Hget as (r & Hfind & ->).
  rewrite (updateBook_run env bookId updates w r Hfind).
  split.
  { intros Hrefused.
    assert (Hsome : ~ no_allowed_field updates).
    { intros (_ & _ & _ & _ & H5 & _). unfold price_refused in Hrefused.
      rewrite H5 in Hrefused. discriminate. }
    split; [ exact Hsome | ].
    destruct (omap (field_assignment updates) allowedFields) as [|a sets] eqn:E.
    - exfalso. apply Hsome. now apply no_allowed_field_no_sets.
    - rewrite Hrefused. eexists. eexists. split; reflexivity. }
  intros Hfinite. rewrite Hfinite.
  destruct (omap (field_assignment updates) allowedFields) as [|a sets] eqn:E.
  - apply no_allowed_field_no_sets in E as Hnone.
    exists (deserializeBook r), (tick w). split; [ reflexivity | ].
    destruct Hnone as (H1 & H2 & H3 & H4 & H5 & H6 & H7 & H8 & H9 & H10 & H11 & H12).
    rewrite H1, H2, H3, H4, H5, H6, H7, H8, H9, H10, H11, H12.
    repeat split; try reflexivity.
    intros Hn. exfalso. apply Hn. repeat split; assumption.
  - cbv zeta.
    pose proof (update_leaves_other_books bookId) as Hother.
    specialize (fun other => Hother other (update_sets updates (clock env (ticks w)))
                               (books (DB w)) (books_fts (DB w))).
    destruct (update_rows bookId _ (books (DB w)) (books_fts (DB w)))
      as [rows fts].
    eexists. eexists. split; [ reflexivity | ].
    cbn [deserializeBook id isbn title author description cover_url condition
         cost_price sell_price in_stock metadata vibe_tags ai_enrichment
         review_summary vector_id status created_at updated_at sold_at].
    rewrite !(fold_assignments_preserve r_id), !(fold_assignments_preserve r_isbn),
      !(fold_assignments_preserve r_condition),
      !(fold_assignments_preserve r_cost_price),
      !(fold_assignments_preserve r_created_at),
      !(fold_assignments_preserve r_sold_at) by reflexivity.
    rewrite title_after_update, author_after_update, description_after_update,
      cover_url_after_update, sell_price_after_update, in_stock_after_update,
      metadata_after_update, vibe_tags_after_update, ai_enrichment_after_update,
      review_summary_after_update, vector_id_after_update, status_after_update,
      updated_at_after_update.
    split; [ repeat split | ].
    split; [ repeat split; try reflexivity;
             destruct (p_in_stock updates) as [[]|]; reflexivity | ].
    split; [ | split ].
    + intros Hnone. apply no_allowed_field_no_sets in Hnone. congruence.
    + reflexivity.
    + intros other Hne. unfold getBook. cbn [fst set_DB DB books fst].
      cbn [fst] in Hother. now rewrite Hother.
Qed.

Lemma updateBook_witness :
  fst (getBook "book-0" Shop.world_sold) =
    Returned (Some (deserializeBook Shop.sold_row))
  /\ exists (updated : Book) (w' : World),
       updateBook Shop.env "book-0" Shop.retitle Shop.world_sold =
         (Returned (Some updated), w')
       /\ isbn updated = "9780375757853"
       /\ cost_price updated = of_Z 500.
Proof.
  split; [ reflexivity | ].
  destruct (updateBook_changes_only_allowed_fields
              Shop.env "book-0" Shop.retitle Shop.world_sold
              (deserializeBook Shop.sold_row) eq_refl)
    as (_ & Hupdate).
  destruct (Hupdate eq_refl)
    as (updated & w' & Hrun & (_ & Hisbn & _ & Hcost & _) & _).
  exists updated, w'. split; [ exact Hrun | ]. split; [ exact Hisbn | exact Hcost ].
Defined.

(* ================================================================== *)
(** ** Approval *)
(* ================================================================== *)

Lemma updateBook_read_back (env : Env) (bookId : string) (u : PartialBook)
    (w : World) (r : BookRow) :
  List.find (fun r => String.eqb (r_id r) bookId) (books (DB w)) = Some r ->
  price_refused u = false ->
  fst (getBook bookId (snd (updateBook env bookId u w))) =
  fst (updateBook env bookId u w).
Proof.
  intros Hfind Hfinite. rewrite (updateBook_run env bookId u w r Hfind), Hfinite.
  destruct (omap (field_assignment u) allowedFields) as [|a sets].
  - unfold getBook. cbn. now rewrite Hfind.
  - cbv zeta.
    pose proof (update_rows_books bookId (update_sets u (clock env (ticks w)))
                  (books (DB w)) (books_fts (DB w))) as Hrows.
    destruct (update_rows bookId _ (books (DB w)) (books_fts (DB w)))
      as [rows fts].
    cbn [fst] in Hrows. subst rows. unfold getBook. cbn [fst snd set_DB DB books].
    rewrite find_updated_rows, Hfind. cbn [fmap option_fmap option_map].
    apply List.find_some in Hfind as [_ Heq]. cbv beta. now rewrite Heq.
Qed.

Lemma approveBook_run (env : Env) (bookId : string)
    (updates : option ApproveUpdates) (w : World) (r : BookRow) :
  List.find (fun r => String.eqb (r_id r) bookId) (books (DB w)) = Some r ->
  approveBook env bookId updates w =
    if BookStatus_eqb (r_status r) live then
      (Thrown (BookstoreError "Book is already live" 400), w)
    else
      match updateBook env bookId (approval_payload updates) w with
      | (Returned (Some updatedBook), w') => (Returned updatedBook, w')
      | (Returned None, w') =>
          (Thrown (BookstoreError "Failed to update book" 500), w')
      | (Thrown e, w') => (Thrown e, w')
      end.
Proof.
  intros Hfind. unfold approveBook, bind at 1, getBook. rewrite Hfind.
  cbn [fmap option_fmap option_map deserializeBook status].
  destruct (BookStatus_eqb (r_status r) live); [ reflexivity | ].
  unfold bind, approval_payload.
  destruct (updateBook env bookId _ w) as [[[b|]|e] w']; reflexivity.
Qed.

Lemma BookStatus_eqb_eq (a b : BookStatus) : BookStatus_eqb a b = true <-> a = b.
Proof. destruct a, b; simpl; split; congruence. Qed.

(** C2, the claim as stated fails: a book whose status is [sold] is
    approved and comes back [live], so approval is not confined to drafts
    and books pending review. *)
Lemma approveBook_admits_a_sold_book :
  fst (getBook "book-0" Shop.world_sold) =
    Returned (Some (deserializeBook Shop.sold_row))
  /\ status (deserializeBook Shop.sold_row) = sold
  /\ (exists (approved : Book) (w' : World),
        approveBook Shop.env "book-0" None Shop.world_sold = (Returned approved, w')
        /\ status approved = live)
  /\ ~ approval_only_from_draft_or_pending.
Proof.
  assert (Hrun : exists (approved : Book) (w' : World),
             approveBook Shop.env "book-0" None Shop.world_sold
               = (Returned approved, w')
             /\ status approved = live).
  { destruct (approveBook Shop.env "book-0" None Shop.world_sold)
      as [[approved|e] w'] eqn:E; vm_compute in E; [ | discriminate E ].
    exists approved, w'. split; [ reflexivity | ].
    injection E as <- _. reflexivity. }
  split; [ reflexivity | ]. split; [ reflexivity | ]. split; [ exact Hrun | ].
  intros Hclaim. destruct Hrun as (approved & w' & Hrun & _).
  destruct (Hclaim Shop.env "book-0" None Shop.world_sold w'
              (deserializeBook Shop.sold_row) approved eq_refl Hrun)
    as [H | H]; discriminate H.
Qed.

(** C2, amended. For every stored book, [approveBook] fails with the
    error "Book is already live" (400) when the book is live, leaving the
    world as it is.  For every other status (draft, pending review, sold,
    removed) it succeeds, unless it carries a price override whose amount
    in minor units is not a finite number: the table refuses that price,
    the approval throws and the table is as it was.  When it succeeds,
    the book returned, which is also the book the store then holds, is
    live, keeps its id, and has as sell price the price override
    converted to minor units ([Math.round(price * 100)], a [-0] stored as
    [0]) when an override is given and is not zero, and its former sell
    price otherwise.  A second approval of the same book then fails; so
    does the approval of a book that is not in the store (404). *)
Theorem approveBook_live_only_guard :
  forall (env : Env) (bookId : string) (updates : option ApproveUpdates)
         (w : World),
    (fst (getBook bookId w) = Returned None ->
     approveBook env bookId updates w =
       (Thrown (BookstoreError "Book not found" 404), w))
    /\ forall existing : Book,
         fst (getBook bookId w) = Returned (Some existing) ->
         (status existing = live ->
          approveBook env bookId updates w =
            (Thrown (BookstoreError "Book is already live" 400), w))
         /\ (status existing <> live ->
             price_refused (approval_payload updates) = true ->
             exists (e : Exn) (w' : World),
               approveBook env bookId updates w = (Thrown e, w')
               /\ DB w' = DB w)
         /\ (status existing <> live ->
             price_refused (approval_payload updates) = false ->
             exists (approved : Book) (w' : World),
               approveBook env bookId updates w = (Returned approved, w')
               /\ status approved = live
               /\ id approved = id existing
               /\ sell_price approved =
                    match updates ?. final_price with
                    | Some price =>
                        if JsNumber.truthy price
                        then unsigned_zero (poundsToPence price)
                        else sell_price existing
                    | None => sell_price existing
                    end
               /\ fst (getBook bookId w') = Returned (Some approved)
               /\ forall again : option ApproveUpdates,
                    approveBook env bookId again w' =
                      (Thrown (BookstoreError "Book is already live" 400), w')).
Proof.
  intros env bookId updates w. split.
  - unfold approveBook, bind at 1, getBook. cbn [fst].
    destruct (List.find (fun r => String.eqb (r_id r) bookId) (books (DB w)));
      cbn [fmap option_fmap option_map]; [ discriminate | intros _; reflexivity ].
  - intros existing Hget.
    apply getBook_inversion in Hget as (r & Hfind & ->).
    rewrite (approveBook_run env bookId updates w r Hfind).
    cbn [deserializeBook status id sell_price]. split; [ | split ].
    + intros ->. reflexivity.
    + intros Hlive Hrefused.
      destruct (BookStatus_eqb (r_status r) live) eqn:E;
        [ apply BookStatus_eqb_eq in E; contradiction | ].
      rewrite (updateBook_run env bookId (approval_payload updates) w r Hfind).
      destruct (omap (field_assignment (approval_payload updates)) allowedFields)
        as [|a sets] eqn:Esets.
      { apply no_allowed_field_no_sets in Esets.
        destruct Esets as (_ & _ & _ & _ & _ & _ & _ & _ & _ & _ & _ & H).
        discriminate H. }
      rewrite Hrefused. eexists. eexists. split; reflexivity.
    + intros Hlive Hfinite.
      destruct (BookStatus_eqb (r_status r) live) eqn:E;
        [ apply BookStatus_eqb_eq in E; contradiction | ].
      pose proof (updateBook_read_back env bookId (approval_payload updates) w r
                    Hfind Hfinite) as Hback.
      rewrite (updateBook_run env bookId (approval_payload updates) w r Hfind) in *.
      rewrite Hfinite in *.
      destruct (omap (field_assignment (approval_payload updates)) allowedFields)
        as [|a sets] eqn:Esets.
      { apply no_allowed_field_no_sets in Esets.
        destruct Esets as (_ & _ & _ & _ & _ & _ & _ & _ & _ & _ & _ & H).
        discriminate H. }
      cbv zeta in *.
      destruct (update_rows bookId _ (books (DB w)) (books_fts (DB w)))
        as [rows fts].
      eexists. eexists. split; [ reflexivity | ].
      cbn [fst snd] in Hback.
      cbn [deserializeBook status id sell_price].
      rewrite status_after_update, sell_price_after_update,
        (fold_assignments_preserve r_id) by reflexivity.
      split; [ reflexivity | ]. split; [ reflexivity | ].
      split.
      { cbn [approval_payload p_sell_price].
        destruct (updates ?. final_price) as [price|]; [ | reflexivity ].
        destruct (JsNumber.truthy price); reflexivity. }
      split; [ exact Hback | ].
      intros again. unfold getBook in Hback. cbn [fst] in Hback.
      destruct (List.find _ _) as [r'|] eqn:Hfind' in Hback;
        [ | discriminate Hback ].
      apply (f_equal (fun o => match o with
                               | Returned (Some b) => Some (status b)
                               | _ => None
                               end)) in Hback.
      cbn [deserializeBook status fmap option_fmap option_map] in Hback.
      injection Hback as Hst. rewrite status_after_update in Hst.
      rewrite (approveBook_run env bookId again _ r' Hfind'), Hst.
      reflexivity.
Qed.

Lemma approveBook_witness :
  fst (getBook "book-0" Shop.world_pending) <> Returned None
  /\ exists (approved : Book) (w' : World),
       approveBook Shop.env "book-0"
         (Some {| final_price := Some (literal 1499 100); upd_title := None;
                  upd_author := None; upd_description := None;
                  upd_vibe_tags := None |})
         Shop.world_pending = (Returned approved, w')
       /\ status approved = live
       /\ sell_price approved = of_Z 1499.
Proof.
  split; [ vm_compute; discriminate | ].
  destruct (fst (getBook "book-0" Shop.world_pending)) as [[existing|]|e] eqn:Hget;
    [ | vm_compute in Hget; discriminate Hget
      | vm_compute in Hget; discriminate Hget ].
  assert (Hstatus : status existing <> live).
  { vm_compute in Hget. injection Hget as <-. discriminate. }
  destruct (proj2 (proj2 (proj2 (approveBook_live_only_guard Shop.env "book-0"
              (Some {| final_price := Some (literal 1499 100); upd_title := None;
                       upd_author := None; upd_description := None;
                       upd_vibe_tags := None |})
              Shop.world_pending) existing Hget)) Hstatus eq_refl)
    as (approved & w' & Hrun & Hlive & _ & Hprice & _).
  exists approved, w'. split; [ exact Hrun | ]. split; [ exact Hlive | ].
  rewrite Hprice. vm_compute. reflexivity.
Defined.

(* ================================================================== *)
(** ** Asset transfer *)
(* ================================================================== *)

Lemma transfer_fails_dec (env : Env) (bookId imageUrl : string) :
  transfer_fails env bookId imageUrl \/ ~ transfer_fails env bookId imageUrl.
Proof.
  unfold transfer_fails. destruct (image_host env imageUrl) as [|r]; [ now left | ].
  destruct (ok r); [ | now left; left ].
  destruct (body r) eqn:Eb; [ now left; right; left | | ];
    (destruct (r2_put_succeeds env (storage_key bookId r));
     [ right; intros [H|[H|H]]; discriminate H | left; right; right; reflexivity ]).
Qed.

(** A failed transfer hands back the URL it was given and writes nothing:
    all that remains of it is the download request. *)
Lemma uploadBookCover_failure (env : Env) (bookId imageUrl : string) (w : World) :
  transfer_fails env bookId imageUrl ->
  uploadBookCover env bookId imageUrl w =
    (Returned imageUrl, note_requests [GetImage imageUrl] w).
Proof.
  unfold transfer_fails, uploadBookCover, try_catch, bind at 1, fetch_image,
    bind at 1, record_request, note_requests.
  destruct (image_host env imageUrl) as [|r]; [ reflexivity | ].
  cbn [ret throw]. intros H.
  destruct (ok r); cbn [negb]; [ | reflexivity ].
  unfold bind at 1, arrayBuffer.
  destruct (body r); cbn [ret throw]; [ reflexivity | | ];
    (destruct H as [H|[H|H]]; try discriminate H;
     unfold bind, ASSETS_put; fold (storage_key bookId r); rewrite H;
     reflexivity).
Qed.

(** A transfer that does not fail answers with the public URL of the
    object it stored. *)
Lemma uploadBookCover_success (env : Env) (bookId imageUrl : string) (w : World) :
  ~ transfer_fails env bookId imageUrl ->
  exists (r : HttpResponse string) (w' : World),
    image_host env imageUrl = Responded r
    /\ uploadBookCover env bookId imageUrl w =
         (Returned (getPublicUrl (storage_key bookId r)), w')
    /\ is_Some (ASSETS w' !! storage_key bookId r)
    /\ DB w' = DB w.
Proof.
  unfold transfer_fails, uploadBookCover, try_catch, bind at 1, fetch_image,
    bind at 1, record_request.
  destruct (image_host env imageUrl) as [|r]; [ tauto | ].
  cbn [ret throw]. intros H. exists r.
  destruct (ok r); cbn [negb]; [ | tauto ].
  unfold bind at 1, arrayBuffer.
  destruct (body r); cbn [ret throw]; [ tauto | | ];
    (unfold bind, ASSETS_put; fold (storage_key bookId r);
     destruct (r2_put_succeeds env (storage_key bookId r)); [ | tauto ];
     eexists; split; [ reflexivity | ]; split; [ reflexivity | ];
     split; [ cbn [ASSETS]; rewrite lookup_insert_eq; eauto | reflexivity ]).
Qed.

Lemma transfer_cover_returns (env : Env) (b : Book) (cover : option string)
    (errs : list string) (w : World) :
  exists (r : Book * list string) (w' : World),
    transfer_cover env b cover errs w = (Returned r, w').
Proof.
  unfold transfer_cover.
  destruct cover as [[|c u]|]; try (eexists; eexists; reflexivity).
  destruct (JsString.truthy (Some (id b))); [ | eexists; eexists; reflexivity ].
  unfold try_catch.
  match goal with |- context [match ?m w with _ => _ end] =>
    destruct (m w) as [[r|e] w'] end; eexists; eexists; reflexivity.
Qed.

Lemma transfer_cover_failure (env : Env) (b : Book) (c : string)
    (errs : list string) (w : World) :
  transfer_fails env (id b) c ->
  exists w' : World,
    transfer_cover env b (Some c) errs w = (Returned (b, errs), w')
    /\ DB w' = DB w.
Proof.
  intros Hfail. unfold transfer_cover.
  destruct c as [|a c]; [ eexists; split; reflexivity | ].
  destruct (JsString.truthy (Some (id b))); [ | eexists; split; reflexivity ].
  unfold try_catch, bind at 1.
  rewrite (uploadBookCover_failure env (id b) (String a c) w Hfail).
  rewrite String.eqb_refl. cbn [negb ret]. eexists. split; reflexivity.
Qed.

(** Ingestion of an ingestible request, up to the response: the book is
    created from [ingest_data], the cover is transferred, and neither
    step is followed by anything that can fail. *)
Lemma ingestBook_run (env : Env) (req : IngestBookRequest) (w : World) :
  ingestible env req w ->
  exists (created : Book) (w1 w2 : World) (transferred : Book * list string),
    createBook env (ingest_data env req)
      (note_requests [GetOpenLibrary (normalizeISBN (req_isbn req));
                      GetGoogleBooks (normalizeISBN (req_isbn req))] w)
      = (Returned created, w1)
    /\ transfer_cover env created (m_cover_url (merged_for env (req_isbn req))) [] w1
       = (Returned transferred, w2)
    /\ exists resp : IngestBookResponse,
         ingestBook env req w = (Returned resp, w2)
         /\ success resp = true
         /\ book resp = fst transferred
         /\ book_id resp = id (fst transferred)
         /\ errors resp =
              match snd transferred with [] => None | e :: es => Some (e :: es) end.
Proof.
  intros (Hv & Hc & Hd & Hm & Hid & Hcost & Hsell).
  set (w0 := note_requests _ w).
  destruct (createBook_succeeds env (ingest_data env req) w0)
    as (created & w1 & Hcreate);
    [ cbn; eauto | cbn; eauto | cbn; eauto
    | eexists; split; [ reflexivity | exact Hcost ]
    | eexists; split; [ reflexivity | exact Hsell ]
    | exact Hid
    | intros i [= <-]; now apply find_none_existsb
    | ].
  destruct (transfer_cover_returns env created
              (m_cover_url (merged_for env (req_isbn req))) [] w1)
    as (transferred & w2 & Htransfer).
  exists created, w1, w2, transferred.
  split; [ exact Hcreate | ]. split; [ exact Htransfer | ].
  unfold ingestBook, try_catch at 1. rewrite Hv, Hc. cbn [negb].
  unfold bind at 1, getBookByISBN. rewrite Hd. cbn [fmap option_fmap option_map].
  unfold bind at 1, try_catch at 1. rewrite fetchMetadata_run.
  fold w0.
  assert (Hext :
    match open_library_has env (req_isbn req), google_books_has env (req_isbn req)
    return Outcome ExternalMetadata with
    | None, None =>
        Thrown (BookstoreError
                  ("Could not fetch metadata for ISBN: " ++ req_isbn req) 404)
    | a, b => Returned {| open_library := a; google_books := b |}
    end = Returned {| open_library := open_library_has env (req_isbn req);
                      google_books := google_books_has env (req_isbn req) |}).
  { destruct (open_library_has env (req_isbn req)),
      (google_books_has env (req_isbn req)); try reflexivity.
    destruct Hm; congruence. }
  rewrite Hext. clear Hext.
  fold (merged_for env (req_isbn req)).
  unfold bind at 1. fold (ingest_data env req). rewrite Hcreate.
  unfold bind at 1. rewrite Htransfer. cbn [ret].
  eexists. split; [ reflexivity | ]. cbn. repeat split.
Qed.

Lemma createBook_cover (env : Env) (bookData : PartialBook) (w w' : World)
    (b : Book) :
  createBook env bookData w = (Returned b, w') ->
  cover_url b = p_cover_url bookData.
Proof.
  unfold createBook, bind, generateUUID, getCurrentTimestamp. cbn beta iota.
  destruct (p_isbn bookData) as [i|]; [ | discriminate ].
  destruct (p_title bookData) as [t|]; [ | discriminate ].
  destruct (p_author bookData) as [a|]; [ | discriminate ].
  destruct (p_cost_price bookData) as [c|]; [ | discriminate ].
  destruct (p_sell_price bookData) as [s|]; [ | discriminate ].
  destruct (sql_insert_book _ _) as [[[]|e] w1]; [ | discriminate ].
  unfold ret. intros [= <- _]. reflexivity.
Qed.

Lemma merged_cover_truthy (e : ExternalMetadata) (c : string) :
  m_cover_url (MetadataService.mergeMetadata e) = Some c ->
  JsString.truthy (Some c) = true.
Proof.
  unfold MetadataService.mergeMetadata, MetadataService.extractCoverUrl.
  cbn [m_cover_url].
  destruct (JsString.truthy (google_books e ?. gb_cover_url)) eqn:Eg;
    [ intros <-; exact Eg | ].
  destruct (JsString.truthy (open_library e ?. ol_cover_url)) eqn:Eo;
    [ intros <-; exact Eo | discriminate ].
Qed.

Lemma updateBook_returns (env : Env) (bookId : string) (u : PartialBook)
    (w : World) :
  price_refused u = false ->
  exists (o : option Book) (w' : World),
    updateBook env bookId u w = (Returned o, w').
Proof.
  intros Hfinite. unfold updateBook, bind at 1, getBook.
  destruct (List.find _ _) as [r|] eqn:Hfind; cbn [fmap option_fmap option_map];
    [ | eexists; eexists; reflexivity ].
  change (bind (ret (Some (deserializeBook r))) ?k w) with (k (Some (deserializeBook r)) w).
  pose proof (updateBook_run env bookId u w r Hfind) as Hrun.
  unfold updateBook, bind at 1, getBook in Hrun. rewrite Hfind in Hrun.
  cbn [fmap option_fmap option_map] in Hrun. rewrite Hrun, Hfinite.
  destruct (omap (field_assignment u) allowedFields);
    [ eexists; eexists; reflexivity | ].
  cbv zeta. destruct (update_rows _ _ _ _). eexists; eexists; reflexivity.
Qed.

(** A transfer that goes through leaves the created book with the public
    URL of the stored object as its cover reference. *)
Lemma transfer_cover_success (env : Env) (b : Book) (c : string)
    (errs : list string) (w : World) :
  JsString.truthy (Some c) = true ->
  JsString.truthy (Some (id b)) = true ->
  cover_url b = Some c ->
  ~ transfer_fails env (id b) c ->
  exists (r : HttpResponse string) (b' : Book) (w' : World),
    image_host env c = Responded r
    /\ transfer_cover env b (Some c) errs w = (Returned (b', errs), w')
    /\ cover_url b' = Some (getPublicUrl (storage_key (id b) r)).
Proof.
  intros Hc Hid Hcover Hok.
  destruct (uploadBookCover_success env (id b) c w Hok)
    as (r & w1 & Hhost & Hup & _ & _).
  exists r. unfold transfer_cover.
  destruct c as [|a c]; [ discriminate Hc | ].
  rewrite Hid. unfold try_catch, bind at 1. rewrite Hup.
  destruct (String.eqb_spec (getPublicUrl (storage_key (id b) r)) (String a c))
    as [Heq|Hne]; cbn [negb].
  - eexists. eexists. split; [ exact Hhost | ]. split; [ reflexivity | ].
    now rewrite Hcover, Heq.
  - unfold bind.
    match goal with |- context [updateBook env (id b) ?u w1] =>
      destruct (updateBook_returns env (id b) u w1 eq_refl) as (o & w2 & Hupd);
      rewrite Hupd end.
    eexists. eexists. split; [ exact Hhost | ]. split; reflexivity.
Qed.

Lemma transfer_cover_keeps_id (env : Env) (b : Book) (cover : option string)
    (errs : list string) (w w' : World) (t : Book * list string) :
  transfer_cover env b cover errs w = (Returned t, w') -> id (fst t) = id b.
Proof.
  unfold transfer_cover.
  destruct cover as [[|a c]|]; try (now intros [= <- _]).
  destruct (JsString.truthy (Some (id b))); [ | now intros [= <- _] ].
  unfold try_catch, bind at 1.
  destruct (uploadBookCover env (id b) (String a c) w) as [[u|e] w1];
    [ | now intros [= <- _] ].
  destruct (negb (String.eqb u (String a c))); [ | now intros [= <- _] ].
  unfold bind.
  destruct (updateBook env (id b) _ w1) as [[o|e] w2]; now intros [= <- _].
Qed.

(** C6. The asset transfer never raises: whatever the image host and the
    bucket do, [uploadBookCover] returns a URL.  When the transfer fails
    (download rejected, response not ok, body unreadable, or bucket write
    refused) the URL returned is the source URL it was given, unchanged,
    and nothing is stored.  For ingestion this means: a request that
    reaches the transfer, and whose cost and suggested price in pence are
    finite numbers (the table refuses any other), is answered
    successfully whether or not the transfer fails; when it fails, the
    cover reference of the book in the response, and of the book in the
    store, is the external URL of the merged metadata; when it does not
    fail, the cover reference is the public URL of the stored object,
    whose key ends in the extension of the content type, or in whatever
    else the lookup of that type in the extension table finds. *)
Theorem asset_transfer_falls_back_to_source_url :
  (forall (env : Env) (bookId imageUrl : string) (w : World),
     exists (url : string) (w' : World),
       uploadBookCover env bookId imageUrl w = (Returned url, w'))
  /\ (forall (env : Env) (bookId imageUrl : string) (w : World),
        transfer_fails env bookId imageUrl ->
        uploadBookCover env bookId imageUrl w =
          (Returned imageUrl, note_requests [GetImage imageUrl] w))
  /\ (forall (env : Env) (req : IngestBookRequest) (w : World),
        ingestible env req w ->
        exists (resp : IngestBookResponse) (w' : World),
          ingestBook env req w = (Returned resp, w')
          /\ success resp = true
          /\ forall c : string,
               m_cover_url (merged_for env (req_isbn req)) = Some c ->
               (transfer_fails env (book_id resp) c ->
                cover_url (book resp) = Some c
                /\ exists stored : Book,
                     fst (getBook (book_id resp) w') = Returned (Some stored)
                     /\ cover_url stored = Some c)
               /\ (~ transfer_fails env (book_id resp) c ->
                   book_id resp <> "" ->
                   exists r : HttpResponse string,
                     image_host env c = Responded r
                     /\ cover_url (book resp) =
                          Some (getPublicUrl (storage_key (book_id resp) r)))).
Proof.
  split; [ | split ].
  - intros env bookId imageUrl w.
    destruct (transfer_fails_dec env bookId imageUrl) as [Hf|Hs].
    + rewrite (uploadBookCover_failure env bookId imageUrl w Hf). eauto.
    + destruct (uploadBookCover_success env bookId imageUrl w Hs)
        as (r & w' & _ & Hup & _). rewrite Hup. eauto.
  - apply uploadBookCover_failure.
  - intros env req w Hing.
    destruct (ingestBook_run env req w Hing)
      as (created & w1 & w2 & transferred & Hcreate & Htransfer
          & resp & Hrun & Hsuccess & Hbook & Hid & _).
    exists resp, w2. split; [ exact Hrun | ]. split; [ exact Hsuccess | ].
    intros c Hc.
    pose proof (createBook_cover _ _ _ _ _ Hcreate) as Hcover.
    cbn [ingest_data p_cover_url] in Hcover. rewrite Hc in Hcover.
    pose proof (merged_cover_truthy _ _ Hc) as Htruthy.
    rewrite Hc in Htransfer.
    pose proof (transfer_cover_keeps_id _ _ _ _ _ _ _ Htransfer) as Hsame.
    rewrite Hid, Hsame, Hbook. split.
    + intros Hfail.
      destruct (transfer_cover_failure env created c [] w1 Hfail)
        as (w2' & Ht & Hdb).
      rewrite Ht in Htransfer. injection Htransfer as <- <-.
      cbn [fst]. split; [ exact Hcover | ].
      apply createBook_inversion in Hcreate
        as (_ & _ & _ & _ & _ & _ & Hfresh & _ & Hdb1).
      unfold getBook. rewrite Hdb, Hdb1. cbn [books fst].
      rewrite find_app_fresh; [ | exact Hfresh | cbn; apply String.eqb_refl ].
      eexists. split; [ reflexivity | ].
      cbn [fmap option_fmap option_map deserializeBook row_of_book cover_url
           r_cover_url].
      rewrite Hcover. unfold or_null. now rewrite Htruthy.
    + intros Hok Hne.
      destruct (transfer_cover_success env created c [] w1 Htruthy)
        as (r & b' & w2' & Hhost & Ht & Hb'); trivial.
      { destruct (id created); [ congruence | reflexivity ]. }
      rewrite Ht in Htransfer. injection Htransfer as <- _.
      exists r. split; [ exact Hhost | exact Hb' ].
Qed.

Lemma shop_request_ingestible :
  ingestible Shop.env Shop.request Shop.empty_world.
Proof.
  repeat split; try (vm_compute; reflexivity).
  right. vm_compute. discriminate.
Defined.

Lemma asset_transfer_witness :
  ingestible Shop.env Shop.request Shop.empty_world
  /\ exists (resp : IngestBookResponse) (w' : World),
       ingestBook Shop.env Shop.request Shop.empty_world = (Returned resp, w')
       /\ transfer_fails Shop.env (book_id resp) "https://books.example/moonstone.png"
       /\ cover_url (book resp) = Some "https://books.example/moonstone.png".
Proof.
  split; [ exact shop_request_ingestible | ].
  destruct (proj2 (proj2 asset_transfer_falls_back_to_source_url)
              Shop.env Shop.request Shop.empty_world shop_request_ingestible)
    as (resp & w' & Hrun & _ & Hcover).
  exists resp, w'. split; [ exact Hrun | ].
  assert (Hfail : transfer_fails Shop.env (book_id resp)
                    "https://books.example/moonstone.png").
  { left. reflexivity. }
  split; [ exact Hfail | ].
  exact (proj1 (proj1 (Hcover "https://books.example/moonstone.png" eq_refl) Hfail)).
Defined.

(* ================================================================== *)
(** ** Keyword search *)
(* ================================================================== *)

Lemma sql_limit_In {A : Type} (n : Z) (y : A) (l : list A) :
  In y (sql_limit n l) -> In y l.
Proof.
  unfold sql_limit. destruct (n <? 0); [ tauto | ].
  revert l. induction (Z.to_nat n) as [|k IH]; intros [|x l]; simpl; try tauto.
  intros [->|H]; [ now left | right; now apply IH ].
Qed.

Section Ordering.

Context {A : Type} (key : A -> Q).

Lemma insert_by_In (x y : A) (l : list A) :
  In y (insert_by key x l) <-> y = x \/ In y l.
Proof.
  induction l as [|z l IH]; simpl.
  - intuition congruence.
  - destruct (Qle_bool (key x) (key z)); simpl; [ intuition congruence | ].
    rewrite IH. intuition congruence.
Qed.


Lemma order_by_In (y : A) (l : list A) : In y (order_by key l) <-> In y l.
Proof.
  unfold order_by. induction l as [|x l IH]; simpl; [ tauto | ].
  rewrite insert_by_In, IH. intuition congruence.
Qed.



End Ordering.

Lemma fts_join_books_In (db : D1Database) (fb : FtsRow * BookRow) :
  In fb (fts_join_books db) <->
  In (fst fb) (books_fts db) /\ In (snd fb) (books db)
  /\ rowid (snd fb) = fts_rowid (fst fb).
Proof.
  unfold fts_join_books. rewrite in_flat_map. destruct fb as [f b]. cbn [fst snd].
  split.
  - intros (f' & Hf & H). apply in_map_iff in H as (b' & [= <- <-] & Hb).
    apply List.filter_In in Hb as [Hb E]. apply Z.eqb_eq in E. auto.
  - intros (Hf & Hb & E). exists f. split; [ exact Hf | ].
    apply in_map_iff. exists b. split; [ reflexivity | ].
    apply List.filter_In. split; [ exact Hb | now apply Z.eqb_eq ].
Qed.

Lemma search_rows_In (env : Env) (query : string) (limit : Z) (db : D1Database)
    (fb : FtsRow * BookRow) :
  In fb (search_rows env query limit db) ->
  In fb (fts_join_books db) /\ search_where env query fb = true.
Proof.
  unfold search_rows. intros H.
  apply sql_limit_In in H. apply order_by_In in H.
  now apply List.filter_In in H.
Qed.

Lemma search_rows_complete (env : Env) (query : string) (limit : Z)
    (db : D1Database) (fb : FtsRow * BookRow) :
  limit < 0 ->
  In fb (fts_join_books db) -> search_where env query fb = true ->
  In fb (search_rows env query limit db).
Proof.
  intros Hl Hin Hw. unfold search_rows, sql_limit.
  apply Z.ltb_lt in Hl. rewrite Hl.
  apply order_by_In, List.filter_In. now split.
Qed.

Lemma search_where_spec (env : Env) (query : string) (fb : FtsRow * BookRow) :
  search_where env query fb = true <->
  fts5_match env query (fst fb) = true
  /\ status (deserializeBook (snd fb)) = live
  /\ r_in_stock (snd fb) = 1.
Proof.
  unfold search_where. rewrite !andb_true_iff, BookStatus_eqb_eq, Z.eqb_eq.
  cbn. tauto.
Qed.

(** *** The index is kept in step with the table *)

Lemma rowid_le_max (rows : list BookRow) (r : BookRow) :
  In r rows -> rowid r <= fold_right Z.max 0 (List.map rowid rows).
Proof.
  induction rows as [|x rows IH]; simpl; [ tauto | ].
  intros [->|H]; [ lia | ]. specialize (IH H). lia.
Qed.

Lemma rowid_unique (rows : list BookRow) (a b : BookRow) :
  List.NoDup (List.map rowid rows) -> In a rows -> In b rows ->
  rowid a = rowid b -> a = b.
Proof.
  induction rows as [|x rows IH]; simpl; [ tauto | ].
  intros Hnd [->|Ha] [->|Hb] E; trivial; inversion_clear Hnd as [|? ? Hx Hrest].
  - exfalso. apply Hx. rewrite E. now apply in_map.
  - exfalso. apply Hx. rewrite <- E. now apply in_map.
  - now apply IH.
Qed.

Lemma index_consistent_empty :
  index_consistent {| books := []; books_fts := [] |}.
Proof. split; [ constructor | intros f [] ]. Qed.

Lemma index_consistent_insert (db : D1Database) (b : Book) :
  index_consistent db ->
  index_consistent
    {| books := books db ++ [row_of_book (next_rowid (books db)) b];
       books_fts := books_fts db
                    ++ [fts_of_row (row_of_book (next_rowid (books db)) b)] |}.
Proof.
  intros [Hnd Hfts]. split; cbn [books books_fts].
  - rewrite map_app. cbn [List.map rowid row_of_book].
    apply List.NoDup_app; [ exact Hnd | repeat constructor; tauto | ].
    intros z Hz [<-|[]].
    apply in_map_iff in Hz as (r & E & Hr).
    apply rowid_le_max in Hr. unfold next_rowid in E. lia.
  - intros f Hf. apply in_app_iff in Hf as [Hf|[<-|[]]].
    + destruct (Hfts f Hf) as (r & Hr & ->). exists r.
      split; [ apply in_app_iff; now left | reflexivity ].
    + eexists. split; [ apply in_app_iff; right; now left | reflexivity ].
Qed.

Lemma update_rows_index (bookId : string) (sets : list Assignment)
    (rest : list BookRow) :
  forall (done : list BookRow) (fts : list FtsRow),
    (forall f, In f fts -> exists r, In r (done ++ rest) /\ f = fts_of_row r) ->
    forall f, In f (snd (update_rows bookId sets rest fts)) ->
      exists r, In r (done ++ fst (update_rows bookId sets rest fts))
                /\ f = fts_of_row r.
Proof.
  induction rest as [|x rest IH]; intros done fts Hfts f Hf; simpl in *.
  - now apply Hfts.
  - destruct (String.eqb (r_id x) bookId).
    + set (x' := fold_left apply_assignment sets x) in *.
      specialize (IH (done ++ [x'])%list (books_fts_update x x' fts)).
      destruct (update_rows bookId sets rest (books_fts_update x x' fts))
        as [rest' fts'] eqn:E. cbn [fst snd] in *.
      rewrite <- !app_assoc in IH. cbn [app] in IH. apply IH; [ | exact Hf ].
      intros g Hg. unfold books_fts_update in Hg.
      apply in_app_iff in Hg as [Hg|[<-|[]]].
      * apply List.filter_In in Hg as [Hg Hne].
        destruct (Hfts g Hg) as (r & Hr & ->). exists r. split; [ | reflexivity ].
        apply in_app_iff in Hr as [Hr|[<-|Hr]].
        -- apply in_app_iff. now left.
        -- cbn in Hne. rewrite Z.eqb_refl in Hne. discriminate Hne.
        -- apply in_app_iff. right. now right.
      * exists x'. split; [ | reflexivity ].
        apply in_app_iff. right. now left.
    + specialize (IH (done ++ [x])%list fts).
      destruct (update_rows bookId sets rest fts) as [rest' fts'] eqn:E.
      cbn [fst snd] in *.
      rewrite <- !app_assoc in IH. cbn [app] in IH. apply IH; [ | exact Hf ].
      intros g Hg. destruct (Hfts g Hg) as (r & Hr & ->).
      exists r. split; [ exact Hr | reflexivity ].
Qed.

Lemma index_consistent_update (db : D1Database) (bookId : string)
    (sets : list Assignment) :
  index_consistent db ->
  index_consistent
    {| books := fst (update_rows bookId sets (books db) (books_fts db));
       books_fts := snd (update_rows bookId sets (books db) (books_fts db)) |}.
Proof.
  intros [Hnd Hfts]. split; cbn [books books_fts].
  - rewrite update_rows_books, List.map_map.
    erewrite List.map_ext; [ exact Hnd | ].
    intros r. cbv beta. destruct (String.eqb (r_id r) bookId); [ | reflexivity ].
    now apply (fold_assignments_preserve rowid).
  - intros f Hf.
    apply (update_rows_index bookId sets (books db) [] (books_fts db)); trivial.
Qed.

(** The services that write to the store keep the index consistent. *)
Lemma createBook_keeps_index (env : Env) (bookData : PartialBook)
    (w w' : World) (b : Book) :
  createBook env bookData w = (Returned b, w') ->
  index_consistent (DB w) -> index_consistent (DB w').
Proof.
  intros H Hc. apply createBook_inversion in H as (_ & _ & _ & _ & _ & _ & _ & _ & ->).
  now apply index_consistent_insert.
Qed.

Lemma updateBook_keeps_index (env : Env) (bookId : string) (u : PartialBook)
    (w : World) :
  index_consistent (DB w) ->
  index_consistent (DB (snd (updateBook env bookId u w))).
Proof.
  intros Hc.
  destruct (List.find (fun r => String.eqb (r_id r) bookId) (books (DB w)))
    as [r|] eqn:Hfind.
  - rewrite (updateBook_run env bookId u w r Hfind).
    destruct (omap (field_assignment u) allowedFields); [ exact Hc | ].
    destruct (price_refused u); [ exact Hc | ].
    cbv zeta.
    pose proof (index_consistent_update (DB w) bookId
                  (update_sets u (clock env (ticks w))) Hc) as H.
    destruct (update_rows bookId _ (books (DB w)) (books_fts (DB w))).
    exact H.
  - unfold updateBook, bind, getBook. rewrite Hfind. exact Hc.
Qed.









(* ================================================================== *)
(** ** Pricing *)
(* ================================================================== *)

Lemma Z_range_In (lo : Z) (n : nat) (z : Z) :
  lo <= z < lo + Z.of_nat n -> In z (Z_range lo n).
Proof.
  revert lo. induction n as [|n IH]; intros lo H; simpl.
  - lia.
  - destruct (Z.eq_dec lo z) as [->|Hne]; [ now left | right ].
    apply IH. lia.
Qed.

(** For every cost from 0.01 to 5.00 and every condition, the suggested
    price is above the specified price. *)
Lemma suggested_price_above_specified (c : Z) (cond : BookCondition) :
  1 <= c <= 500 ->
  exists suggested specified : Z,
    to_Z (MetadataService.calculateSuggestedPrice (of_Z c) (condition_label cond))
      = Some suggested
    /\ to_Z (specified_price (of_Z c) cond) = Some specified
    /\ specified < suggested.
Proof.
  intros Hc.
  assert (Hall : forallb (fun c => suggested_above_specified c like_new
                                   && suggested_above_specified c very_good
                                   && suggested_above_specified c good
                                   && suggested_above_specified c acceptable)
                   (Z_range 1 500) = true) by (vm_compute; reflexivity).
  rewrite forallb_forall in Hall.
  specialize (Hall c (Z_range_In 1 500 c ltac:(lia))).
  rewrite !andb_true_iff in Hall. destruct Hall as [[[H1 H2] H3] H4].
  assert (H : suggested_above_specified c cond = true) by now destruct cond.
  unfold suggested_above_specified in H.
  destruct (to_Z (MetadataService.calculateSuggestedPrice _ _)) as [a|];
    [ | discriminate H ].
  destruct (to_Z (specified_price _ _)) as [b|]; [ | discriminate H ].
  exists a, b. repeat split. now apply Z.ltb_lt.
Qed.

(** C1, the code at the input named by the claim.  For a cost of 500
    minor units and condition very_good the specified price is 1699;
    [calculateSuggestedPrice], which [ingestBook] calls with the cost in
    minor units, returns 165099: it takes its argument for an amount in
    major units (5 gives 1699).  The book ingested for a cost of 5.00 is
    stored with that sell price. *)
Theorem suggested_price_500_very_good :
  specified_price (of_Z 500) very_good = of_Z 1699
  /\ MetadataService.calculateSuggestedPrice (of_Z 500) (condition_label very_good)
     = of_Z 165099
  /\ of_Z 165099 <> of_Z 1699
  /\ MetadataService.calculateSuggestedPrice (of_Z 5) (condition_label very_good)
     = of_Z 1699
  /\ poundsToPence (req_cost_price Shop.request) = of_Z 500
  /\ p_sell_price (ingest_data Shop.env Shop.request) = Some (of_Z 165099)
  /\ match fst (getBook "book-0" Shop.world_pending) with
     | Returned (Some stored) =>
         cost_price stored = of_Z 500 /\ sell_price stored = of_Z 165099
     | _ => False
     end.
Proof.
  split; [ vm_compute; reflexivity | ].
  split; [ vm_compute; reflexivity | ].
  split; [ vm_compute; discriminate | ].
  split; [ vm_compute; reflexivity | ].
  split; [ vm_compute; reflexivity | ].
  split; [ vm_compute; reflexivity | ].
  vm_compute. split; reflexivity.
Qed.

(* ================================================================== *)
(** ** Listing the inventory *)
(* ================================================================== *)

Lemma ascii_compare_N (a b : ascii) :
  Ascii.compare a b = N.compare (N_of_ascii a) (N_of_ascii b).
Proof. reflexivity. Qed.

Lemma string_compare_trans_lt (s1 : string) :
  forall s2 s3 : string,
    String.compare s1 s2 <> Gt -> String.compare s2 s3 <> Gt ->
    String.compare s1 s3 <> Gt.
Proof.
  induction s1 as [|c1 s1 IH]; intros [|c2 s2] [|c3 s3]; simpl; try congruence.
  rewrite !ascii_compare_N.
  destruct (N.compare_spec (N_of_ascii c1) (N_of_ascii c2)) as [E12|L12|G12];
    destruct (N.compare_spec (N_of_ascii c2) (N_of_ascii c3)) as [E23|L23|G23];
    try congruence; intros H12 H23.
  - rewrite E12, E23, N.compare_refl. now apply (IH s2).
  - rewrite E12. now apply N.compare_lt_iff in L23 as ->.
  - rewrite <- E23. now apply N.compare_lt_iff in L12 as ->.
  - assert (L13 : (N_of_ascii c1 < N_of_ascii c3)%N) by lia.
    now apply N.compare_lt_iff in L13 as ->.
Qed.

Lemma string_leb_trans (s1 s2 s3 : string) :
  String.leb s1 s2 = true -> String.leb s2 s3 = true -> String.leb s1 s3 = true.
Proof.
  unfold String.leb. intros H12 H23.
  pose proof (string_compare_trans_lt s1 s2 s3) as H.
  destruct (String.compare s1 s2), (String.compare s2 s3),
    (String.compare s1 s3); try reflexivity; try discriminate;
    exfalso; apply H; congruence.
Qed.

Lemma string_leb_refl (s : string) : String.leb s s = true.
Proof. destruct (String.leb_total s s); assumption. Qed.

Section Descending.

Context {A : Type} (key : A -> string).

Lemma insert_desc_In (x y : A) (l : list A) :
  In y (insert_desc key x l) <-> y = x \/ In y l.
Proof.
  induction l as [|z l IH]; simpl.
  - intuition.
  - destruct (String.leb (key z) (key x)); simpl; rewrite ?IH; intuition.
Qed.

Lemma insert_desc_length (x : A) (l : list A) :
  List.length (insert_desc key x l) = S (List.length l).
Proof.
  induction l as [|z l IH]; simpl; [reflexivity|].
  destruct (String.leb (key z) (key x)); simpl; congruence.
Qed.

Lemma insert_desc_sorted (x : A) (l : list A) :
  StronglySorted (descending_by key) l ->
  StronglySorted (descending_by key) (insert_desc key x l).
Proof.
  induction 1 as [|z l Hl IH Hz]; simpl.
  - constructor; constructor.
  - destruct (String.leb (key z) (key x)) eqn:E.
    + constructor; [constructor; assumption|].
      constructor; [exact E|].
      rewrite List.Forall_forall in Hz |- *. intros y Hy.
      unfold descending_by in *. eapply string_leb_trans; [apply Hz, Hy | exact E].
    + constructor; [exact IH|].
      rewrite List.Forall_forall in Hz |- *. intros y Hy.
      apply insert_desc_In in Hy as [->|Hy]; [|apply Hz, Hy].
      unfold descending_by.
      destruct (String.leb_total (key x) (key z)) as [H|H]; [exact H|congruence].
Qed.

Lemma order_by_desc_In (y : A) (l : list A) :
  In y (order_by_desc key l) <-> In y l.
Proof.
  induction l as [|x l IH]; simpl; [reflexivity|].
  rewrite insert_desc_In, IH. intuition.
Qed.

Lemma order_by_desc_length (l : list A) :
  List.length (order_by_desc key l) = List.length l.
Proof.
  induction l as [|x l IH]; simpl; [reflexivity|].
  now rewrite insert_desc_length, IH.
Qed.

Lemma order_by_desc_sorted (l : list A) :
  StronglySorted (descending_by key) (order_by_desc key l).
Proof.
  induction l as [|x l IH]; simpl; [constructor|].
  now apply insert_desc_sorted.
Qed.

End Descending.

Lemma StronglySorted_take {A : Type} (R : A -> A -> Prop) (n : nat) (l : list A) :
  StronglySorted R l -> StronglySorted R (take n l).
Proof.
  intros H. revert n. induction H as [|x l Hl IH Hx]; intros [|n]; simpl;
    try constructor.
  - apply IH.
  - rewrite List.Forall_forall in Hx |- *. intros y Hy. apply Hx.
    clear -Hy. revert n Hy. induction l as [|z l IHl]; intros [|n]; simpl;
      intuition eauto.
Qed.

Lemma StronglySorted_drop {A : Type} (R : A -> A -> Prop) (n : nat) (l : list A) :
  StronglySorted R l -> StronglySorted R (drop n l).
Proof.
  intros H. revert n. induction H as [|x l Hl IH Hx]; intros [|n]; simpl;
    try constructor; try assumption. apply IH.
Qed.

Lemma StronglySorted_map {A B : Type} (R : A -> A -> Prop) (S : B -> B -> Prop)
    (f : A -> B) (l : list A) :
  (forall x y, R x y -> S (f x) (f y)) ->
  StronglySorted R l -> StronglySorted S (List.map f l).
Proof.
  intros HRS. induction 1 as [|x l Hl IH Hx]; simpl; constructor; [exact IH|].
  rewrite List.Forall_forall in Hx |- *. intros y Hy.
  apply List.in_map_iff in Hy as (z & <- & Hz). auto.
Qed.

Lemma In_take {A : Type} (n : nat) (y : A) (l : list A) :
  In y (take n l) -> In y l.
Proof.
  revert n. induction l as [|z l IH]; intros [|n]; simpl; intuition eauto.
Qed.

Lemma In_drop {A : Type} (n : nat) (y : A) (l : list A) :
  In y (drop n l) -> In y l.
Proof.
  revert n. induction l as [|z l IH]; intros [|n]; simpl; intuition eauto.
Qed.

Lemma sql_offset_In {A : Type} (n : Z) (y : A) (l : list A) :
  In y (sql_offset n l) -> In y l.
Proof. apply In_drop. Qed.

Lemma list_where_spec (filters : ListFilters) (r : BookRow) :
  list_where filters r = true <->
  (forall s : string, f_status filters = Some s -> s <> "" ->
     status_label (r_status r) = s)
  /\ (forall v : bool, f_in_stock filters = Some v ->
        r_in_stock r = if v then 1 else 0).
Proof.
  unfold list_where. rewrite andb_true_iff. split.
  - intros [Hs Hi]. split.
    + intros s E Hne. rewrite E in Hs. destruct s as [|c s]; [congruence|].
      now apply String.eqb_eq.
    + intros v E. rewrite E in Hi. now apply Z.eqb_eq.
  - intros [Hs Hi]. split.
    + destruct (f_status filters) as [[|c s]|]; try reflexivity.
      apply String.eqb_eq, Hs; congruence.
    + destruct (f_in_stock filters) as [v|]; [|reflexivity].
      apply Z.eqb_eq. now apply Hi.
Qed.

Lemma list_rows_In (filters : ListFilters) (db : D1Database) (r : BookRow) :
  In r (list_rows filters db) <-> In r (books db) /\ list_where filters r = true.
Proof.
  unfold list_rows. rewrite order_by_desc_In. apply List.filter_In.
Qed.

Lemma list_rows_length (filters : ListFilters) (db : D1Database) :
  List.length (list_rows filters db) =
  List.length (List.filter (list_where filters) (books db)).
Proof. apply order_by_desc_length. Qed.

Lemma listBooks_run (filters : ListFilters) (w : World) :
  listBooks filters w =
    (Returned
       (List.map deserializeBook
          (sql_limit (match f_limit filters with Some n => n | None => 50 end)
             (sql_offset (match f_offset filters with Some n => n | None => 0 end)
                (list_rows filters (DB w)))),
        Z.of_nat (List.length (List.filter (list_where filters) (books (DB w))))),
     w).
Proof. reflexivity. Qed.

Lemma list_where_page_of (filters : ListFilters) (limit offset : Z) :
  list_where (page_of filters limit offset) = list_where filters.
Proof. reflexivity. Qed.

(** X1 (listBooks): a listing holds stored books only, each one passing
    every filter that was given (a status filter that is the empty string
    counts as not given); [total] is the number of stored rows that pass
    and is the same on every page; without a limit and an offset every row
    that passes is listed; and the world is left as it was. *)
Theorem listBooks_lists_the_rows_that_pass_the_filters :
  forall (filters : ListFilters) (w : World),
    let total :=
      Z.of_nat (List.length (List.filter (list_where filters) (books (DB w)))) in
    (forall limit offset : Z,
       exists rows : list BookRow,
         listBooks (page_of filters limit offset) w =
           (Returned (List.map deserializeBook rows, total), w)
         /\ (forall r : BookRow, In r rows ->
               In r (books (DB w))
               /\ (forall s : string, f_status filters = Some s -> s <> "" ->
                     status_label (status (deserializeBook r)) = s)
               /\ (forall v : bool, f_in_stock filters = Some v ->
                     in_stock (deserializeBook r) = v))
         /\ (limit < 0 -> offset <= 0 ->
             forall r : BookRow,
               In r (books (DB w)) -> list_where filters r = true -> In r rows))
    /\ (forall r : BookRow,
          list_where filters r = true <->
          (forall s : string, f_status filters = Some s -> s <> "" ->
             status_label (r_status r) = s)
          /\ (forall v : bool, f_in_stock filters = Some v ->
                r_in_stock r = if v then 1 else 0)).
Proof.
  intros filters w total. split; [|apply list_where_spec].
  intros limit offset. eexists. split; [apply listBooks_run|]. split.
  - intros r Hr. cbn [f_limit f_offset page_of] in Hr.
    apply sql_limit_In, sql_offset_In, list_rows_In in Hr as [Hin Hw].
    rewrite list_where_page_of in Hw. apply list_where_spec in Hw as [Hs Hi].
    split; [exact Hin|]. split; [exact Hs|].
    intros v E. cbn [deserializeBook in_stock]. rewrite (Hi v E).
    now destruct v.
  - intros Hl Ho r Hin Hw. cbn [f_limit f_offset page_of].
    unfold sql_limit, sql_offset.
    replace (limit <? 0) with true by (symmetry; now apply Z.ltb_lt).
    replace (Z.to_nat offset) with 0%nat by lia. cbn [drop].
    apply list_rows_In. now rewrite list_where_page_of.
Qed.

(** X2 (listBooks): the books of a listing come newest first: no book is
    followed by one created later. *)
Theorem listBooks_newest_first :
  forall (filters : ListFilters) (w : World),
    exists (listed : list Book) (total : Z),
      listBooks filters w = (Returned (listed, total), w)
      /\ StronglySorted (descending_by created_at) listed.
Proof.
  intros filters w. eexists _, _. split; [apply listBooks_run|].
  apply (StronglySorted_map (descending_by r_created_at)); [auto|].
  assert (Hs : StronglySorted (descending_by r_created_at)
                 (sql_offset (match f_offset filters with Some n => n | None => 0 end)
                    (list_rows filters (DB w)))).
  { apply StronglySorted_drop, order_by_desc_sorted. }
  unfold sql_limit. destruct (_ <? 0); [exact Hs|].
  now apply StronglySorted_take.
Qed.

(** X3 (listBooks): pages tile the listing. For an offset and limits that
    are not negative, a page followed by the page that starts where it
    ends is the page of both limits together. *)
Theorem listBooks_consecutive_pages_join :
  forall (filters : ListFilters) (limit limit' offset : Z) (w : World),
    0 <= offset -> 0 <= limit -> 0 <= limit' ->
    exists (first second : list Book) (total : Z),
      listBooks (page_of filters limit offset) w = (Returned (first, total), w)
      /\ listBooks (page_of filters limit' (offset + limit)) w =
           (Returned (second, total), w)
      /\ listBooks (page_of filters (limit + limit') offset) w =
           (Returned ((first ++ second)%list, total), w).
Proof.
  intros filters limit limit' offset w Ho Hl Hl'.
  exists (List.map deserializeBook
            (sql_limit limit (sql_offset offset (list_rows filters (DB w))))),
         (List.map deserializeBook
            (sql_limit limit' (sql_offset (offset + limit) (list_rows filters (DB w))))),
         (Z.of_nat (List.length (List.filter (list_where filters) (books (DB w))))).
  split; [reflexivity|]. split; [reflexivity|].
  rewrite listBooks_run. cbn [f_limit f_offset page_of].
  rewrite !list_where_page_of. f_equal. f_equal.
  rewrite <- List.map_app. f_equal.
  change (list_rows (page_of filters (limit + limit') offset) (DB w))
    with (list_rows filters (DB w)).
  unfold sql_limit, sql_offset.
  replace (limit <? 0) with false by (symmetry; apply Z.ltb_ge; lia).
  replace (limit' <? 0) with false by (symmetry; apply Z.ltb_ge; lia).
  replace (limit + limit' <? 0) with false by (symmetry; apply Z.ltb_ge; lia).
  rewrite !Z2Nat.inj_add by lia.
  rewrite <- drop_drop. now rewrite take_take_drop.
Qed.

Lemma listBooks_consecutive_pages_join_witness :
  exists (first second : list Book) (total : Z),
    listBooks (page_of {| f_status := None; f_in_stock := None;
                          f_limit := None; f_offset := None |} 1 0)
      Shop.world_sold = (Returned (first, total), Shop.world_sold)
    /\ listBooks (page_of {| f_status := None; f_in_stock := None;
                             f_limit := None; f_offset := None |} 1 (0 + 1))
         Shop.world_sold = (Returned (second, total), Shop.world_sold)
    /\ listBooks (page_of {| f_status := None; f_in_stock := None;
                             f_limit := None; f_offset := None |} (1 + 1) 0)
         Shop.world_sold = (Returned ((first ++ second)%list, total), Shop.world_sold).
Proof.
  apply (listBooks_consecutive_pages_join _ 1 1 0); lia.
Defined.

Lemma status_label_inj (a b : BookStatus) :
  status_label a = status_label b -> a = b.
Proof. destruct a, b; simpl; congruence. Qed.

Lemma listPublicBooks_run (limit offset : Z) (w : World) :
  listPublicBooks limit offset w =
    (Returned
       (successResponse
          (book_page
             (List.map deserializeBook
                (sql_limit limit (sql_offset offset (list_rows public_filters (DB w)))),
              Z.of_nat (List.length (list_rows public_filters (DB w))))
             limit offset) 200),
     w).
Proof.
  unfold listPublicBooks, try_catch, bind. rewrite listBooks_run.
  cbn [f_limit f_offset ret]. now rewrite list_rows_length.
Qed.

Lemma public_rows_In (db : D1Database) (r : BookRow) :
  In r (list_rows public_filters db) <->
  In r (books db) /\ r_status r = live /\ r_in_stock r = 1.
Proof.
  rewrite list_rows_In, list_where_spec.
  cbn [public_filters f_status f_in_stock].
  split; intros (Hin & Hs & Hi); (split; [exact Hin|]); split.
  - apply status_label_inj. simpl. apply Hs; [reflexivity|discriminate].
  - exact (Hi true eq_refl).
  - intros s [= <-] _. now rewrite Hs.
  - intros v [= <-]. exact Hi.
Qed.





Lemma has_more_spec {A : Type} (limit offset : Z) (l : list A) :
  0 <= offset -> 0 < limit ->
  (offset + Z.of_nat (List.length (sql_limit limit (sql_offset offset l)))
     <? Z.of_nat (List.length l)) = true
  <-> sql_limit limit (sql_offset (offset + limit) l) <> [].
Proof.
  intros Ho Hl. unfold sql_limit, sql_offset.
  replace (limit <? 0) with false by (symmetry; apply Z.ltb_ge; lia).
  rewrite Z.ltb_lt.
  assert (E : forall m : list A, m <> [] <-> (0 < List.length m)%nat).
  { intros [|x m]; simpl; split; try congruence; try lia. }
  rewrite E. change (@List.length A) with (@length A).
  rewrite !length_take, !length_drop. lia.
Qed.

(** X5 (listPublicBooks): [has_more] tells the truth. For an offset that
    is not negative and a positive limit, [has_more] is true exactly when
    the next page (the same limit, the offset moved on by the limit) has a
    book. *)
Theorem listPublicBooks_has_more_iff_next_page_has_a_book :
  forall (limit offset : Z) (w : World),
    0 <= offset -> 0 < limit ->
    exists page next : BookPage,
      listPublicBooks limit offset w = (Returned (successResponse page 200), w)
      /\ listPublicBooks limit (offset + limit) w =
           (Returned (successResponse next 200), w)
      /\ (has_more page = true <-> pg_books next <> []).
Proof.
  intros limit offset w Ho Hl. eexists _, _.
  split; [apply listPublicBooks_run|]. split; [apply listPublicBooks_run|].
  cbn [book_page has_more pg_books fst snd].
  rewrite List.length_map, has_more_spec by assumption.
  split; intros H E; apply H.
  - now apply List.map_eq_nil in E.
  - now rewrite E.
Qed.

Lemma listPublicBooks_has_more_witness :
  exists page next : BookPage,
    listPublicBooks 20 0 Shop.world_sold =
      (Returned (successResponse page 200), Shop.world_sold)
    /\ listPublicBooks 20 (0 + 20) Shop.world_sold =
         (Returned (successResponse next 200), Shop.world_sold)
    /\ (has_more page = true <-> pg_books next <> []).
Proof.
  apply (listPublicBooks_has_more_iff_next_page_has_a_book 20 0); lia.
Defined.

(* ================================================================== *)
(** ** What the services keep true of the store *)
(* ================================================================== *)

Lemma preserves_ret {A : Type} (P : D1Database -> Prop) (a : A) :
  preserves P (ret a).
Proof. intros w H. exact H. Qed.

Lemma preserves_throw {A : Type} (P : D1Database -> Prop) (e : Exn) :
  preserves P (@throw A e).
Proof. intros w H. exact H. Qed.

Lemma preserves_bind {A B : Type} (P : D1Database -> Prop) (m : M A)
    (k : A -> M B) :
  preserves P m -> (forall a, preserves P (k a)) -> preserves P (bind m k).
Proof.
  intros Hm Hk w H. unfold bind. specialize (Hm w H).
  destruct (m w) as [[a|e] w1]; cbn [snd] in *; [now apply Hk|exact Hm].
Qed.

Lemma preserves_try_catch {A : Type} (P : D1Database -> Prop) (m : M A)
    (h : Exn -> M A) :
  preserves P m -> (forall e, preserves P (h e)) -> preserves P (try_catch m h).
Proof.
  intros Hm Hh w H. unfold try_catch. specialize (Hm w H).
  destruct (m w) as [[a|e] w1]; cbn [snd] in *; [exact Hm|now apply Hh].
Qed.

Lemma preserves_unchanged {A : Type} (P : D1Database -> Prop) (m : M A) :
  (forall w, DB (snd (m w)) = DB w) -> preserves P m.
Proof. intros Hm w H. now rewrite Hm. Qed.

Lemma getBook_DB (bookId : string) (w : World) : DB (snd (getBook bookId w)) = DB w.
Proof. reflexivity. Qed.

Lemma getBookByISBN_DB (isbn : string) (w : World) :
  DB (snd (getBookByISBN isbn w)) = DB w.
Proof. reflexivity. Qed.

Lemma fetchMetadata_DB (env : Env) (isbn : string) (w : World) :
  DB (snd (fetchMetadata env isbn w)) = DB w.
Proof. now rewrite fetchMetadata_run. Qed.

Lemma uploadBookCover_DB (env : Env) (bookId imageUrl : string) (w : World) :
  DB (snd (uploadBookCover env bookId imageUrl w)) = DB w.
Proof.
  destruct (transfer_fails_dec env bookId imageUrl) as [Hf|Hs].
  - now rewrite (uploadBookCover_failure env bookId imageUrl w Hf).
  - destruct (uploadBookCover_success env bookId imageUrl w Hs)
      as (r & w' & _ & -> & _ & Hdb). exact Hdb.
Qed.

(** *** The generic UPDATE *)

Lemma update_rows_as_by (bookId : string) (sets : list Assignment)
    (rows : list BookRow) :
  forall fts : list FtsRow,
    update_rows bookId sets rows fts = update_rows_by bookId (assign sets) rows fts.
Proof.
  induction rows as [|r rows IH]; intros fts; simpl; [reflexivity|].
  destruct (String.eqb (r_id r) bookId); now rewrite IH.
Qed.

Lemma update_rows_by_books (bookId : string) (f : BookRow -> BookRow)
    (rows : list BookRow) :
  forall fts : list FtsRow,
    fst (update_rows_by bookId f rows fts) =
    List.map (fun r => if String.eqb (r_id r) bookId then f r else r) rows.
Proof.
  induction rows as [|r rows IH]; intros fts; simpl; [reflexivity|].
  destruct (String.eqb (r_id r) bookId).
  - specialize (IH (books_fts_update r (f r) fts)).
    destruct (update_rows_by bookId f rows _). simpl in *. now rewrite IH.
  - specialize (IH fts).
    destruct (update_rows_by bookId f rows _). simpl in *. now rewrite IH.
Qed.

Lemma update_rows_by_sound (bookId : string) (f : BookRow -> BookRow)
    (rest : list BookRow) :
  forall (done : list BookRow) (fts : list FtsRow),
    (forall g, In g fts -> exists r, In r (done ++ rest) /\ g = fts_of_row r) ->
    forall g, In g (snd (update_rows_by bookId f rest fts)) ->
      exists r, In r (done ++ fst (update_rows_by bookId f rest fts))
                /\ g = fts_of_row r.
Proof.
  induction rest as [|x rest IH]; intros done fts Hfts g Hg; simpl in *.
  - now apply Hfts.
  - destruct (String.eqb (r_id x) bookId).
    + specialize (IH (done ++ [f x])%list (books_fts_update x (f x) fts)).
      destruct (update_rows_by bookId f rest (books_fts_update x (f x) fts))
        as [rest' fts'] eqn:E. cbn [fst snd] in *.
      rewrite <- !app_assoc in IH. cbn [app] in IH. apply IH; [|exact Hg].
      intros h Hh. unfold books_fts_update in Hh.
      apply in_app_iff in Hh as [Hh|[<-|[]]].
      * apply List.filter_In in Hh as [Hh Hne].
        destruct (Hfts h Hh) as (r & Hr & ->). exists r. split; [|reflexivity].
        apply in_app_iff in Hr as [Hr|[<-|Hr]].
        -- apply in_app_iff. now left.
        -- cbn in Hne. rewrite Z.eqb_refl in Hne. discriminate Hne.
        -- apply in_app_iff. right. now right.
      * exists (f x). split; [|reflexivity].
        apply in_app_iff. right. now left.
    + specialize (IH (done ++ [x])%list fts).
      destruct (update_rows_by bookId f rest fts) as [rest' fts'] eqn:E.
      cbn [fst snd] in *.
      rewrite <- !app_assoc in IH. cbn [app] in IH. apply IH; [|exact Hg].
      intros h Hh. destruct (Hfts h Hh) as (r & Hr & ->).
      exists r. split; [exact Hr|reflexivity].
Qed.

Lemma update_rows_by_complete (bookId : string) (f : BookRow -> BookRow)
    (rest : list BookRow) :
  (forall r, rowid (f r) = rowid r) ->
  forall (done : list BookRow) (fts : list FtsRow),
    List.NoDup (List.map rowid (done ++ rest)) ->
    (forall r, In r (done ++ rest) -> In (fts_of_row r) fts) ->
    forall r, In r (done ++ fst (update_rows_by bookId f rest fts)) ->
      In (fts_of_row r) (snd (update_rows_by bookId f rest fts)).
Proof.
  intros Hf.
  induction rest as [|x rest IH]; intros done fts Hnd Hfts r Hr; simpl in *.
  - now apply Hfts.
  - destruct (String.eqb (r_id x) bookId).
    + specialize (IH (done ++ [f x])%list (books_fts_update x (f x) fts)).
      destruct (update_rows_by bookId f rest (books_fts_update x (f x) fts))
        as [rest' fts'] eqn:E. cbn [fst snd] in *.
      rewrite <- !app_assoc in IH. cbn [app] in IH. apply IH; [| |exact Hr].
      * rewrite List.map_app in Hnd |- *. cbn [List.map] in *. now rewrite Hf.
      * intros y Hy. unfold books_fts_update. apply in_app_iff.
        apply in_app_iff in Hy as [Hy|[<-|Hy]].
        -- left. apply List.filter_In. split.
           ++ apply Hfts, in_app_iff. now left.
           ++ cbn [fts_of_row fts_rowid]. apply negb_true_iff, Z.eqb_neq.
              intros Eq. rewrite List.map_app in Hnd. cbn [List.map] in Hnd.
              apply List.NoDup_remove_2 in Hnd. apply Hnd, in_app_iff. left.
              rewrite <- Eq. now apply List.in_map.
        -- right. now left.
        -- left. apply List.filter_In. split.
           ++ apply Hfts, in_app_iff. right. now right.
           ++ cbn [fts_of_row fts_rowid]. apply negb_true_iff, Z.eqb_neq.
              intros Eq. rewrite List.map_app in Hnd. cbn [List.map] in Hnd.
              apply List.NoDup_remove_2 in Hnd. apply Hnd, in_app_iff. right.
              rewrite <- Eq. now apply List.in_map.
    + specialize (IH (done ++ [x])%list fts).
      destruct (update_rows_by bookId f rest fts) as [rest' fts'] eqn:E.
      cbn [fst snd] in *.
      rewrite <- !app_assoc in IH. cbn [app] in IH. apply IH; trivial.
Qed.

Lemma NoDup_map_filter {X Y : Type} (g : X -> Y) (p : X -> bool) (l : list X) :
  List.NoDup (List.map g l) -> List.NoDup (List.map g (List.filter p l)).
Proof.
  induction l as [|x l IH]; simpl; [trivial|].
  intros H. inversion_clear H as [|? ? Hx Hl].
  destruct (p x); simpl; [constructor|]; auto.
  intros Hin. apply Hx. apply List.in_map_iff in Hin as (y & E & Hy).
  apply List.filter_In in Hy as [Hy _]. rewrite <- E. now apply List.in_map.
Qed.

Lemma books_fts_update_NoDup (old new : BookRow) (fts : list FtsRow) :
  rowid new = rowid old ->
  List.NoDup (List.map fts_rowid fts) ->
  List.NoDup (List.map fts_rowid (books_fts_update old new fts)).
Proof.
  intros E H. unfold books_fts_update. rewrite List.map_app.
  apply List.NoDup_app; [now apply NoDup_map_filter|repeat constructor; tauto|].
  intros z Hz [<-|[]]. apply List.in_map_iff in Hz as (g & Eg & Hg).
  apply List.filter_In in Hg as [_ Hne].
  cbn [fts_of_row fts_rowid] in Eg. rewrite Eg, E, Z.eqb_refl in Hne.
  discriminate Hne.
Qed.

Lemma update_rows_by_NoDup (bookId : string) (f : BookRow -> BookRow)
    (rows : list BookRow) :
  (forall r, rowid (f r) = rowid r) ->
  forall fts : list FtsRow,
    List.NoDup (List.map fts_rowid fts) ->
    List.NoDup (List.map fts_rowid (snd (update_rows_by bookId f rows fts))).
Proof.
  intros Hf. induction rows as [|x rows IH]; intros fts H; simpl; [exact H|].
  destruct (String.eqb (r_id x) bookId).
  - specialize (IH (books_fts_update x (f x) fts)
                  (books_fts_update_NoDup x (f x) fts (Hf x) H)).
    now destruct (update_rows_by bookId f rows _).
  - specialize (IH fts H). now destruct (update_rows_by bookId f rows _).
Qed.

Lemma store_ok_updated (bookId : string) (f : BookRow -> BookRow)
    (db : D1Database) :
  (forall r, rowid (f r) = rowid r) ->
  (forall r, r_id (f r) = r_id r) ->
  (forall r, r_isbn (f r) = r_isbn r) ->
  store_ok db -> store_ok (updated_db bookId f db).
Proof.
  intros Hrow Hid Hisbn (Hids & Hisbns & [Hnd Hsound] & Hcomplete & Hfts).
  assert (Hmap : forall (X : Type) (g : BookRow -> X),
            (forall r, g (f r) = g r) ->
            List.map g (books (updated_db bookId f db)) = List.map g (books db)).
  { intros X g Hg. cbn [updated_db books]. rewrite update_rows_by_books, List.map_map.
    apply List.map_ext. intros r. cbv beta.
    destruct (String.eqb (r_id r) bookId); [apply Hg|reflexivity]. }
  split; [now rewrite Hmap|]. split; [now rewrite Hmap|].
  split; [split|split].
  - now rewrite Hmap.
  - intros g Hg.
    apply (update_rows_by_sound bookId f (books db) [] (books_fts db)); trivial.
  - intros r Hr.
    apply (update_rows_by_complete bookId f (books db) Hrow [] (books_fts db));
      trivial.
  - now apply update_rows_by_NoDup.
Qed.

Lemma store_ok_inserted (db : D1Database) (b : Book) :
  existsb (fun r => String.eqb (r_id r) (id b)) (books db) = false ->
  existsb (fun r => String.eqb (r_isbn r) (isbn b)) (books db) = false ->
  store_ok db ->
  store_ok
    {| books := books db ++ [row_of_book (next_rowid (books db)) b];
       books_fts := books_fts db
                    ++ [fts_of_row (row_of_book (next_rowid (books db)) b)] |}.
Proof.
  intros Hid Hisbn (Hids & Hisbns & Hidx & Hcomplete & Hfts).
  assert (Hfresh : forall (g : BookRow -> string) (v : string),
            existsb (fun r => String.eqb (g r) v) (books db) = false ->
            List.NoDup (List.map g (books db)) ->
            forall row, g row = v ->
            List.NoDup (List.map g (books db ++ [row]))).
  { intros g v Hex Hnd row Hrow. rewrite List.map_app. cbn [List.map].
    apply List.NoDup_app; [exact Hnd|repeat constructor; tauto|].
    intros z Hz [<-|[]]. apply List.in_map_iff in Hz as (r & E & Hr).
    assert (Ht : existsb (fun r => String.eqb (g r) v) (books db) = true).
    { apply List.existsb_exists. exists r. split; [exact Hr|].
      apply String.eqb_eq. congruence. }
    congruence. }
  split; [|split; [|split; [|split]]]; cbn [books books_fts].
  - now apply (Hfresh r_id (id b)).
  - now apply (Hfresh r_isbn (isbn b)).
  - now apply index_consistent_insert.
  - intros r Hr. apply in_app_iff. apply in_app_iff in Hr as [Hr|[<-|[]]].
    + left. now apply Hcomplete.
    + right. now left.
  - rewrite List.map_app. cbn [List.map fts_of_row fts_rowid row_of_book rowid].
    apply List.NoDup_app; [exact Hfts|repeat constructor; tauto|].
    intros z Hz [<-|[]]. apply List.in_map_iff in Hz as (g & Eg & Hg).
    destruct Hidx as [_ Hsound]. destruct (Hsound g Hg) as (r & Hr & ->).
    apply rowid_le_max in Hr. cbn [fts_of_row fts_rowid] in Eg.
    unfold next_rowid in Eg. lia.
Qed.

Lemma createBook_failure_DB (env : Env) (bookData : PartialBook) (w w' : World)
    (e : Exn) :
  createBook env bookData w = (Thrown e, w') -> DB w' = DB w.
Proof.
  unfold createBook, bind, generateUUID, getCurrentTimestamp. cbn beta iota.
  destruct (p_isbn bookData) as [i|]; [|now intros [= _ <-]].
  destruct (p_title bookData) as [t|]; [|now intros [= _ <-]].
  destruct (p_author bookData) as [a|]; [|now intros [= _ <-]].
  destruct (p_cost_price bookData) as [c|]; [|now intros [= _ <-]].
  destruct (p_sell_price bookData) as [s|]; [|now intros [= _ <-]].
  unfold sql_insert_book, ret.
  cbn [id isbn cost_price sell_price DB books ASSETS requests ticks draws].
  destruct (is_finite c); cbn [negb]; [|now intros [= _ <-]].
  destruct (is_finite s); cbn [negb]; [|now intros [= _ <-]].
  destruct (existsb _ _); [now intros [= _ <-]|].
  destruct (existsb _ _); [now intros [= _ <-]|].
  discriminate.
Qed.

Lemma createBook_keeps_store (env : Env) (bookData : PartialBook) :
  preserves store_ok (createBook env bookData).
Proof.
  intros w H. destruct (createBook env bookData w) as [[b|e] w'] eqn:E; cbn [snd].
  - apply createBook_inversion in E
      as (_ & _ & _ & _ & _ & _ & Hid & Hisbn & ->).
    now apply store_ok_inserted.
  - now rewrite (createBook_failure_DB _ _ _ _ _ E).
Qed.

Lemma assign_keeps {X : Type} (g : BookRow -> X) (sets : list Assignment) :
  (forall r a, g (apply_assignment r a) = g r) ->
  forall r, g (assign sets r) = g r.
Proof. intros H r. now apply fold_assignments_preserve. Qed.

Lemma updateBook_DB (env : Env) (bookId : string) (u : PartialBook) (w : World) :
  DB (snd (updateBook env bookId u w)) = DB w
  \/ DB (snd (updateBook env bookId u w)) =
       updated_db bookId (assign (update_sets u (clock env (ticks w)))) (DB w).
Proof.
  destruct (List.find (fun r => String.eqb (r_id r) bookId) (books (DB w)))
    as [r|] eqn:Hfind.
  - rewrite (updateBook_run env bookId u w r Hfind).
    destruct (omap (field_assignment u) allowedFields); [now left|].
    destruct (price_refused u); [now left|].
    cbv zeta. right. unfold updated_db. rewrite <- update_rows_as_by.
    now destruct (update_rows bookId _ (books (DB w)) (books_fts (DB w))).
  - left. unfold updateBook, bind, getBook. now rewrite Hfind.
Qed.

Lemma updateBook_keeps_store (env : Env) (bookId : string) (u : PartialBook) :
  preserves store_ok (updateBook env bookId u).
Proof.
  intros w H. destruct (updateBook_DB env bookId u w) as [->| ->]; [exact H|].
  apply store_ok_updated; trivial; intros r; now apply assign_keeps.
Qed.

Lemma markBookAsSold_run (env : Env) (bookId : string) (w : World) :
  markBookAsSold env bookId w =
    (Returned tt,
     set_DB (updated_db bookId (sold_at_time (clock env (ticks w))) (DB w))
       (tick w)).
Proof.
  unfold markBookAsSold, bind, getCurrentTimestamp, updated_db.
  cbn [DB]. now destruct (update_rows_by _ _ _ _).
Qed.

Lemma markBookAsSold_keeps_store (env : Env) (bookId : string) :
  preserves store_ok (markBookAsSold env bookId).
Proof.
  intros w H. rewrite markBookAsSold_run. cbn [snd set_DB DB].
  now apply store_ok_updated.
Qed.

Lemma transfer_cover_keeps_store (env : Env) (b : Book) (cover : option string)
    (errs : list string) :
  preserves store_ok (transfer_cover env b cover errs).
Proof.
  unfold transfer_cover.
  destruct cover as [[|c u]|]; try apply preserves_ret.
  destruct (JsString.truthy (Some (id b))); [|apply preserves_ret].
  apply preserves_try_catch; [|intros e; apply preserves_ret].
  apply preserves_bind.
  - apply preserves_unchanged, uploadBookCover_DB.
  - intros url. destruct (negb _); [|apply preserves_ret].
    apply preserves_bind; [apply updateBook_keeps_store|].
    intros o. apply preserves_ret.
Qed.

Lemma ingestBook_keeps_store (env : Env) (request : IngestBookRequest) :
  preserves store_ok (ingestBook env request).
Proof.
  unfold ingestBook.
  apply preserves_try_catch;
    [|intros [m c|m]; apply preserves_throw].
  destruct (negb (isValidISBN (req_isbn request))); [apply preserves_throw|].
  destruct (leb (req_cost_price request) (of_Z 0)); [apply preserves_throw|].
  apply preserves_bind; [apply preserves_unchanged, getBookByISBN_DB|].
  intros [existing|]; [apply preserves_throw|].
  apply preserves_bind.
  - apply preserves_try_catch; [apply preserves_unchanged, fetchMetadata_DB|].
    intros e. apply preserves_throw.
  - intros ext. apply preserves_bind; [apply createBook_keeps_store|].
    intros created. apply preserves_bind; [apply transfer_cover_keeps_store|].
    intros t. apply preserves_ret.
Qed.

Lemma approveBook_keeps_store (env : Env) (bookId : string)
    (updates : option ApproveUpdates) :
  preserves store_ok (approveBook env bookId updates).
Proof.
  unfold approveBook.
  apply preserves_bind; [apply preserves_unchanged, getBook_DB|].
  intros [b|]; [|apply preserves_throw].
  destruct (BookStatus_eqb (status b) live); [apply preserves_throw|].
  apply preserves_bind; [apply updateBook_keeps_store|].
  intros [u|]; [apply preserves_ret|apply preserves_throw].
Qed.

Lemma rejectBook_keeps_store (env : Env) (bookId : string) :
  preserves store_ok (rejectBook env bookId).
Proof.
  unfold rejectBook.
  apply preserves_bind; [apply preserves_unchanged, getBook_DB|].
  intros [b|]; [|apply preserves_throw].
  apply preserves_bind; [apply updateBook_keeps_store|].
  intros o. apply preserves_ret.
Qed.

Lemma store_ok_empty : store_ok {| books := []; books_fts := [] |}.
Proof.
  split; [constructor|]. split; [constructor|].
  split; [apply index_consistent_empty|]. split; [intros r []|constructor].
Qed.

(** X6 (createBook, updateBook, markBookAsSold, ingestBook, approveBook,
    rejectBook): every service that writes to the store keeps it well
    formed, whether it returns or throws: no two books share an id or an
    ISBN, and the full-text index holds, for each book of the table, the
    row the triggers write for it, once, and no other row.  The empty
    store is well formed. *)
Theorem services_keep_the_store_well_formed :
  forall env : Env,
    (forall bookData, preserves store_ok (createBook env bookData))
    /\ (forall bookId updates, preserves store_ok (updateBook env bookId updates))
    /\ (forall bookId, preserves store_ok (markBookAsSold env bookId))
    /\ (forall request, preserves store_ok (ingestBook env request))
    /\ (forall bookId updates, preserves store_ok (approveBook env bookId updates))
    /\ (forall bookId, preserves store_ok (rejectBook env bookId))
    /\ store_ok {| books := []; books_fts := [] |}.
Proof.
  intros env.
  split; [intros; apply createBook_keeps_store|].
  split; [intros; apply updateBook_keeps_store|].
  split; [intros; apply markBookAsSold_keeps_store|].
  split; [intros; apply ingestBook_keeps_store|].
  split; [intros; apply approveBook_keeps_store|].
  split; [intros; apply rejectBook_keeps_store|].
  exact store_ok_empty.
Qed.

Lemma services_keep_the_store_well_formed_witness :
  store_ok (DB Shop.empty_world)
  /\ store_ok (DB (snd (ingestBook Shop.env Shop.request Shop.empty_world))).
Proof.
  destruct (services_keep_the_store_well_formed Shop.env)
    as (_ & _ & _ & Hingest & _ & _ & Hempty).
  split; [exact Hempty|]. apply Hingest. exact Hempty.
Defined.

(* ================================================================== *)
(** ** The public views and the life of a book *)
(* ================================================================== *)

Lemma getPublicBook_run (bookId : string) (w : World) :
  getPublicBook bookId w =
    (Returned
       match List.find (fun r => String.eqb (r_id r) bookId) (books (DB w)) with
       | None => errorResponse "Book not found" 404
       | Some r =>
           if negb (BookStatus_eqb (r_status r) live) || (r_in_stock r =? 0)
           then errorResponse "Book not available" 404
           else successResponse (deserializeBook r) 200
       end,
     w).
Proof.
  unfold getPublicBook, try_catch, bind, getBook.
  destruct (List.find _ _) as [r|]; cbn [fmap option_fmap option_map ret];
    [|reflexivity].
  cbn [deserializeBook status in_stock]. rewrite negb_involutive.
  now destruct (negb _ || _).
Qed.

Lemma admin_getBook_run (bookId : string) (w : World) :
  admin_getBook bookId w =
    (Returned
       match List.find (fun r => String.eqb (r_id r) bookId) (books (DB w)) with
       | None => errorResponse "Book not found" 404
       | Some r => successResponse (deserializeBook r) 200
       end,
     w).
Proof.
  unfold admin_getBook, try_catch, bind, getBook.
  now destruct (List.find _ _) as [r|].
Qed.

Lemma getBook_None (bookId : string) (w : World) :
  fst (getBook bookId w) = Returned None <->
  List.find (fun r => String.eqb (r_id r) bookId) (books (DB w)) = None.
Proof.
  unfold getBook. cbn [fst]. destruct (List.find _ _); cbn; split; congruence.
Qed.

(** X7 (getPublicBook, admin getBook): the public lookup is the admin
    lookup restricted to books on sale. An id that is not stored gets 404
    'Book not found' from both; a stored book is always shown to the
    admin, and to the public exactly when it is live and in stock,
    404 'Book not available' otherwise. Neither changes the world. *)
Theorem getPublicBook_shows_a_book_iff_on_sale :
  forall (bookId : string) (w : World),
    (fst (getBook bookId w) = Returned None ->
     getPublicBook bookId w = (Returned (errorResponse "Book not found" 404), w)
     /\ admin_getBook bookId w = (Returned (errorResponse "Book not found" 404), w))
    /\ (forall b : Book,
          fst (getBook bookId w) = Returned (Some b) ->
          admin_getBook bookId w = (Returned (successResponse b 200), w)
          /\ (on_sale b ->
              getPublicBook bookId w = (Returned (successResponse b 200), w))
          /\ (~ on_sale b ->
              getPublicBook bookId w =
                (Returned (errorResponse "Book not available" 404), w))).
Proof.
  intros bookId w. rewrite getPublicBook_run, admin_getBook_run. split.
  - intros H. apply getBook_None in H. now rewrite H.
  - intros b H. apply getBook_inversion in H as (r & -> & ->).
    split; [reflexivity|]. unfold on_sale.
    cbn [deserializeBook status in_stock].
    destruct (BookStatus_eqb (r_status r) live) eqn:Es; cbn [negb orb].
    + apply BookStatus_eqb_eq in Es.
      destruct (r_in_stock r =? 0); cbn [negb]; split; intros H;
        try reflexivity; try (destruct H; congruence).
      exfalso. now apply H.
    + split; intros H; [|reflexivity].
      destruct H as [H _]. apply BookStatus_eqb_eq in H. congruence.
Qed.

Lemma getPublicBook_witness :
  fst (getBook "book-0" Shop.world_sold) =
    Returned (Some (deserializeBook Shop.sold_row))
  /\ ~ on_sale (deserializeBook Shop.sold_row)
  /\ getPublicBook "book-0" Shop.world_sold =
       (Returned (errorResponse "Book not available" 404), Shop.world_sold).
Proof.
  assert (H : fst (getBook "book-0" Shop.world_sold) =
              Returned (Some (deserializeBook Shop.sold_row))) by reflexivity.
  assert (N : ~ on_sale (deserializeBook Shop.sold_row)).
  { intros [E _]. discriminate E. }
  split; [exact H|]. split; [exact N|].
  destruct (proj2 (getPublicBook_shows_a_book_iff_on_sale "book-0" Shop.world_sold)
              _ H) as (_ & _ & Hhidden).
  exact (Hhidden N).
Defined.

(** *** Rows after an UPDATE *)

Lemma updated_db_In (bookId : string) (f : BookRow -> BookRow) (db : D1Database)
    (r' : BookRow) :
  In r' (books (updated_db bookId f db)) <->
  exists r : BookRow,
    In r (books db) /\ r' = if String.eqb (r_id r) bookId then f r else r.
Proof.
  cbn [updated_db books]. rewrite update_rows_by_books, List.in_map_iff.
  split; intros (r & H1 & H2); exists r; intuition.
Qed.

Lemma updated_db_find (bookId other : string) (f : BookRow -> BookRow)
    (db : D1Database) :
  (forall r, r_id (f r) = r_id r) ->
  List.find (fun r => String.eqb (r_id r) other) (books (updated_db bookId f db)) =
  (fun r => if String.eqb (r_id r) bookId then f r else r)
    <$> List.find (fun r => String.eqb (r_id r) other) (books db).
Proof.
  intros Hf. cbn [updated_db books]. rewrite update_rows_by_books.
  induction (books db) as [|x rows IH]; [reflexivity|].
  cbn [List.map List.find].
  assert (E : r_id (if String.eqb (r_id x) bookId then f x else x) = r_id x).
  { destruct (String.eqb (r_id x) bookId); [apply Hf|reflexivity]. }
  rewrite E. destruct (String.eqb (r_id x) other); [reflexivity|exact IH].
Qed.

Lemma find_id_In (bookId : string) (rows : list BookRow) :
  List.find (fun r => String.eqb (r_id r) bookId) rows = None ->
  forall r, In r rows -> r_id r <> bookId.
Proof.
  intros H r Hr E. apply (List.find_none _ _ H) in Hr.
  apply String.eqb_neq in Hr. congruence.
Qed.

(** A book none of whose rows is live is hidden from the public. *)
Lemma not_live_hidden (env : Env) (bookId : string) (w : World) :
  (forall r, In r (books (DB w)) -> r_id r = bookId -> r_status r <> live) ->
  publicly_hidden env bookId w.
Proof.
  intros H. split; [|split].
  - rewrite getPublicBook_run.
    destruct (List.find _ _) as [r|] eqn:E; [|eauto].
    apply List.find_some in E as [Hin Hid]. apply String.eqb_eq in Hid.
    specialize (H r Hin Hid).
    destruct (BookStatus_eqb (r_status r) live) eqn:Es;
      [apply BookStatus_eqb_eq in Es; congruence|]. cbn [negb orb]. eauto.
  - intros limit offset page. rewrite listPublicBooks_run. intros [= <-].
    cbn [book_page pg_books fst]. intros b Hb Hid.
    apply List.in_map_iff in Hb as (r & <- & Hr).
    apply sql_limit_In, sql_offset_In, public_rows_In in Hr as (Hin & Hs & _).
    exact (H r Hin Hid Hs).
  - intros q limit hits. unfold searchBooksByKeyword.
    destruct (fts5_accepts env q); [|discriminate]. intros [= <-] b Hb Hid.
    apply List.in_map_iff in Hb as (fb & <- & Hfb).
    apply search_rows_In in Hfb as [Hjoin Hwhere].
    apply fts_join_books_In in Hjoin as (_ & Hin & _).
    apply search_where_spec in Hwhere as (_ & Hs & _).
    exact (H (snd fb) Hin Hid Hs).
Qed.

Lemma updateBook_status_rows (env : Env) (bookId : string) (u : PartialBook)
    (s : BookStatus) (w : World) :
  p_status u = Some s ->
  price_refused u = false ->
  forall r, In r (books (DB (snd (updateBook env bookId u w)))) ->
    r_id r = bookId -> r_status r = s.
Proof.
  intros Hs Hfinite r Hin Hid.
  destruct (List.find (fun r => String.eqb (r_id r) bookId) (books (DB w)))
    as [r0|] eqn:Hfind.
  - rewrite (updateBook_run env bookId u w r0 Hfind), Hfinite in Hin.
    destruct (omap (field_assignment u) allowedFields) eqn:Esets.
    + apply no_allowed_field_no_sets in Esets.
      destruct Esets as (_ & _ & _ & _ & _ & _ & _ & _ & _ & _ & _ & E).
      congruence.
    + cbv zeta in Hin. rewrite update_rows_as_by in Hin.
      assert (Hin' : In r (books (updated_db bookId
                                    (assign (update_sets u (clock env (ticks w))))
                                    (DB w)))).
      { unfold updated_db. cbn [books].
        now destruct (update_rows_by bookId _ (books (DB w)) (books_fts (DB w))). }
      apply updated_db_In in Hin' as (r1 & Hr1 & ->).
      destruct (String.eqb (r_id r1) bookId) eqn:E.
      * unfold assign. now rewrite status_after_update, Hs.
      * apply String.eqb_neq in E. congruence.
  - unfold updateBook, bind, getBook in Hin. rewrite Hfind in Hin.
    cbn in Hin. exfalso. exact (find_id_In bookId _ Hfind r Hin Hid).
Qed.

Lemma getBook_find (bookId : string) (w : World) :
  fst (getBook bookId w) =
  Returned (deserializeBook <$>
              List.find (fun r => String.eqb (r_id r) bookId) (books (DB w))).
Proof. reflexivity. Qed.

(** X8 (markBookAsSold): marking a book as sold never fails. A stored
    book is read back out of stock, with status sold and with the time of
    the call as [sold_at] and [updated_at], everything else as it was; an
    id that is not stored is passed over in silence and the table is left
    as it was; no other book and no stored asset is touched. *)
Theorem markBookAsSold_marks_that_book_only :
  forall (env : Env) (bookId : string) (w : World),
    exists w' : World,
      markBookAsSold env bookId w = (Returned tt, w')
      /\ (forall b : Book,
            fst (getBook bookId w) = Returned (Some b) ->
            exists b' : Book,
              fst (getBook bookId w') = Returned (Some b')
              /\ status b' = sold /\ in_stock b' = false
              /\ sold_at b' = Some (clock env (ticks w))
              /\ updated_at b' = clock env (ticks w)
              /\ id b' = id b /\ isbn b' = isbn b /\ title b' = title b
              /\ author b' = author b /\ description b' = description b
              /\ cover_url b' = cover_url b /\ condition b' = condition b
              /\ cost_price b' = cost_price b /\ sell_price b' = sell_price b
              /\ metadata b' = metadata b /\ vibe_tags b' = vibe_tags b
              /\ ai_enrichment b' = ai_enrichment b
              /\ review_summary b' = review_summary b
              /\ vector_id b' = vector_id b /\ created_at b' = created_at b)
      /\ (fst (getBook bookId w) = Returned None -> DB w' = DB w)
      /\ (forall other : string,
            other <> bookId -> fst (getBook other w') = fst (getBook other w))
      /\ ASSETS w' = ASSETS w.
Proof.
  intros env bookId w. eexists. split; [apply markBookAsSold_run|].
  split; [|split; [|split; [|reflexivity]]].
  - intros b H. apply getBook_inversion in H as (r & Hfind & ->).
    rewrite getBook_find. cbn [set_DB DB].
    rewrite updated_db_find by reflexivity. rewrite Hfind.
    apply List.find_some in Hfind as [_ E]. cbv beta in E.
    cbn [fmap option_fmap option_map]. rewrite E.
    eexists. split; [reflexivity|]. cbn. repeat split.
  - intros H. apply getBook_None in H. cbn [set_DB DB].
    assert (Hrows : books (updated_db bookId (sold_at_time (clock env (ticks w)))
                             (DB w)) = books (DB w)).
    { cbn [updated_db books]. rewrite update_rows_by_books.
      rewrite <- (List.map_id (books (DB w))) at 2.
      apply List.map_ext_in. intros r Hr. apply (find_id_In _ _ H) in Hr.
      apply String.eqb_neq in Hr. now rewrite Hr. }
    assert (Hfts : forall rows fts,
              (forall r, In r rows -> r_id r <> bookId) ->
              snd (update_rows_by bookId (sold_at_time (clock env (ticks w)))
                     rows fts) = fts).
    { induction rows as [|x rows IH]; intros fts Hne; simpl; [reflexivity|].
      assert (Ex : String.eqb (r_id x) bookId = false).
      { apply String.eqb_neq, Hne. now left. }
      rewrite Ex. specialize (IH fts (fun r Hr => Hne r (or_intror Hr))).
      now destruct (update_rows_by _ _ rows fts). }
    destruct (DB w) as [rows fts] eqn:Edb. unfold updated_db in *.
    cbn [books books_fts] in *. f_equal; [exact Hrows|].
    apply Hfts. exact (find_id_In _ _ H).
  - intros other Hne. rewrite !getBook_find. cbn [set_DB DB].
    rewrite updated_db_find by reflexivity.
    destruct (List.find _ (books (DB w))) as [r|] eqn:Hfind; [|reflexivity].
    apply List.find_some in Hfind as [_ E]. apply String.eqb_eq in E.
    cbn [fmap option_fmap option_map].
    destruct (String.eqb_spec (r_id r) bookId); [congruence|reflexivity].
Qed.

Lemma markBookAsSold_witness :
  exists b' : Book,
    fst (getBook "book-0" (snd (markBookAsSold Shop.env "book-0" Shop.world_pending)))
      = Returned (Some b')
    /\ status b' = sold /\ in_stock b' = false.
Proof.
  destruct (markBookAsSold_marks_that_book_only Shop.env "book-0" Shop.world_pending)
    as (w' & Hrun & Hbook & _).
  rewrite Hrun. cbn [snd].
  destruct (fst (getBook "book-0" Shop.world_pending)) as [[b|]|e] eqn:E;
    try (vm_compute in E; discriminate E).
  destruct (Hbook b eq_refl) as (b' & H1 & H2 & H3 & _).
  exists b'. auto.
Defined.

(** X9 (markBookAsSold, rejectBook against getPublicBook, listPublicBooks,
    searchBooksByKeyword): once a book has been marked as sold, or
    rejected, the public no longer sees it, whatever state it was in
    before: the public lookup of its id answers 404, no page of the public
    listing holds it and no keyword search returns it. *)
Theorem sold_and_rejected_books_leave_the_public_views :
  forall (env : Env) (bookId : string) (w : World),
    publicly_hidden env bookId (snd (markBookAsSold env bookId w))
    /\ publicly_hidden env bookId (snd (rejectBook env bookId w)).
Proof.
  intros env bookId w. split; apply not_live_hidden.
  - rewrite markBookAsSold_run. cbn [snd set_DB DB]. intros r Hr Hid.
    apply updated_db_In in Hr as (r0 & _ & ->).
    destruct (String.eqb (r_id r0) bookId) eqn:E; [discriminate|].
    apply String.eqb_neq in E. congruence.
  - intros r Hr Hid. unfold rejectBook, bind at 1, getBook in Hr.
    destruct (List.find (fun r => String.eqb (r_id r) bookId) (books (DB w)))
      as [r0|] eqn:Hfind; cbn [fmap option_fmap option_map] in Hr.
    + unfold bind in Hr.
      assert (Hs : r_status r = removed).
      { apply (updateBook_status_rows env bookId removal removed w eq_refl eq_refl);
          [|exact Hid].
        fold removal in Hr.
        now destruct (updateBook env bookId removal w) as [[o|e] w1]. }
      congruence.
    + cbn in Hr. exfalso. exact (find_id_In bookId _ Hfind r Hr Hid).
Qed.

Lemma rejectBook_run (env : Env) (bookId : string) (w : World) (r : BookRow) :
  List.find (fun r => String.eqb (r_id r) bookId) (books (DB w)) = Some r ->
  rejectBook env bookId w =
    (Returned tt,
     set_DB (updated_db bookId
               (assign [Set_status removed; Set_updated_at (clock env (ticks w))])
               (DB w))
       (tick w)).
Proof.
  intros Hfind. unfold rejectBook, bind at 1, getBook. rewrite Hfind.
  cbn [fmap option_fmap option_map]. unfold bind. fold removal.
  rewrite (updateBook_run env bookId removal w r Hfind).
  cbn [omap field_assignment allowedFields removal p_title p_author p_description
       p_cover_url p_sell_price p_in_stock p_metadata p_vibe_tags p_ai_enrichment
       p_review_summary p_vector_id p_status fmap option_fmap option_map
       list_omap].
  cbv zeta. unfold update_sets.
  cbn [omap field_assignment allowedFields removal p_title p_author p_description
       p_cover_url p_sell_price p_in_stock p_metadata p_vibe_tags p_ai_enrichment
       p_review_summary p_vector_id p_status fmap option_fmap option_map
       list_omap app].
  rewrite update_rows_as_by. unfold updated_db, ret.
  now destruct (update_rows_by bookId _ (books (DB w)) (books_fts (DB w))).
Qed.

(** X10 (rejectBook): rejecting withdraws a book and deletes nothing. An
    id that is not stored gets 404 'Book not found' and the world stays as
    it was. A stored book, whatever its status (drafts, live and sold
    books alike), is kept: it is read back with status removed and the
    time of the call as [updated_at], every other field as it was; the
    table keeps its size and no other book changes. *)
Theorem rejectBook_withdraws_and_keeps_the_record :
  forall (env : Env) (bookId : string) (w : World),
    (fst (getBook bookId w) = Returned None ->
     rejectBook env bookId w = (Thrown (BookstoreError "Book not found" 404), w))
    /\ (forall b : Book,
          fst (getBook bookId w) = Returned (Some b) ->
          exists (w' : World) (b' : Book),
            rejectBook env bookId w = (Returned tt, w')
            /\ fst (getBook bookId w') = Returned (Some b')
            /\ status b' = removed
            /\ updated_at b' = clock env (ticks w)
            /\ id b' = id b /\ isbn b' = isbn b /\ title b' = title b
            /\ author b' = author b /\ description b' = description b
            /\ cover_url b' = cover_url b /\ condition b' = condition b
            /\ cost_price b' = cost_price b /\ sell_price b' = sell_price b
            /\ in_stock b' = in_stock b
            /\ metadata b' = metadata b /\ vibe_tags b' = vibe_tags b
            /\ ai_enrichment b' = ai_enrichment b
            /\ review_summary b' = review_summary b
            /\ vector_id b' = vector_id b /\ created_at b' = created_at b
            /\ sold_at b' = sold_at b
            /\ List.length (books (DB w')) = List.length (books (DB w))
            /\ forall other : string,
                 other <> bookId ->
                 fst (getBook other w') = fst (getBook other w)).
Proof.
  intros env bookId w. split.
  - intros H. apply getBook_None in H.
    unfold rejectBook, bind, getBook. now rewrite H.
  - intros b H. apply getBook_inversion in H as (r & Hfind & ->).
    eexists _, _. split; [apply (rejectBook_run env bookId w r Hfind)|].
    assert (Hid : forall x, r_id (assign [Set_status removed;
                                          Set_updated_at (clock env (ticks w))] x)
                            = r_id x) by reflexivity.
    split.
    { rewrite getBook_find. cbn [set_DB DB].
      rewrite (updated_db_find _ _ _ _ Hid), Hfind.
      apply List.find_some in Hfind as [_ E]. cbv beta in E.
      cbn [fmap option_fmap option_map]. rewrite E. reflexivity. }
    cbn [deserializeBook assign fold_left apply_assignment status updated_at id
         isbn title author description cover_url condition cost_price sell_price
         in_stock metadata vibe_tags ai_enrichment review_summary vector_id
         created_at sold_at r_status r_updated_at r_id r_isbn r_title r_author
         r_description r_cover_url r_condition r_cost_price r_sell_price
         r_in_stock r_metadata r_vibe_tags r_ai_enrichment r_review_summary
         r_vector_id r_created_at r_sold_at].
    repeat (split; [reflexivity|]). split.
    + cbn [set_DB DB updated_db books]. rewrite update_rows_by_books.
      apply List.length_map.
    + intros other Hne. rewrite !getBook_find. cbn [set_DB DB].
      rewrite (updated_db_find _ _ _ _ Hid).
      destruct (List.find (fun r => String.eqb (r_id r) other) (books (DB w)))
        as [x|] eqn:Hx; [|reflexivity].
      apply List.find_some in Hx as [_ E]. apply String.eqb_eq in E.
      cbn [fmap option_fmap option_map].
      destruct (String.eqb_spec (r_id x) bookId); [congruence|reflexivity].
Qed.

Lemma rejectBook_witness :
  fst (getBook "book-0" Shop.world_sold) =
    Returned (Some (deserializeBook Shop.sold_row))
  /\ exists (w' : World) (b' : Book),
       rejectBook Shop.env "book-0" Shop.world_sold = (Returned tt, w')
       /\ fst (getBook "book-0" w') = Returned (Some b')
       /\ status b' = removed /\ sold_at b' = Some "2025-10-20T12:00:00.000Z".
Proof.
  split; [reflexivity|].
  destruct (proj2 (rejectBook_withdraws_and_keeps_the_record Shop.env "book-0"
                     Shop.world_sold) _ eq_refl)
    as (w' & b' & Hrun & Hback & Hs & H).
  exists w', b'. split; [exact Hrun|]. split; [exact Hback|]. split; [exact Hs|].
  destruct H as (_ & _ & _ & _ & _ & _ & _ & _ & _ & _ & _ & _ & _ & _ & _ & _
                 & _ & Hsold & _).
  exact Hsold.
Defined.

(** *** Writing and reading back *)

Lemma updateBook_writes (env : Env) (bookId : string) (u : PartialBook)
    (w : World) (r : BookRow) :
  List.find (fun r => String.eqb (r_id r) bookId) (books (DB w)) = Some r ->
  ~ no_allowed_field u ->
  price_refused u = false ->
  updateBook env bookId u w =
    (Returned (Some (deserializeBook
                       (assign (update_sets u (clock env (ticks w))) r))),
     set_DB (updated_db bookId (assign (update_sets u (clock env (ticks w))))
               (DB w))
       (tick w)).
Proof.
  intros Hfind Hsome Hfinite.
  rewrite (updateBook_run env bookId u w r Hfind), Hfinite.
  destruct (omap (field_assignment u) allowedFields) eqn:E.
  - apply no_allowed_field_no_sets in E. contradiction.
  - cbv zeta. rewrite update_rows_as_by. unfold updated_db.
    now destruct (update_rows_by bookId _ (books (DB w)) (books_fts (DB w))).
Qed.

Lemma updated_db_find_by (g : BookRow -> string) (bookId v : string)
    (f : BookRow -> BookRow) (db : D1Database) :
  (forall r, g (f r) = g r) ->
  List.find (fun r => String.eqb (g r) v) (books (updated_db bookId f db)) =
  (fun r => if String.eqb (r_id r) bookId then f r else r)
    <$> List.find (fun r => String.eqb (g r) v) (books db).
Proof.
  intros Hf. cbn [updated_db books]. rewrite update_rows_by_books.
  induction (books db) as [|x rows IH]; [reflexivity|].
  cbn [List.map List.find].
  assert (E : g (if String.eqb (r_id x) bookId then f x else x) = g x).
  { destruct (String.eqb (r_id x) bookId); [apply Hf|reflexivity]. }
  rewrite E. destruct (String.eqb (g x) v); [reflexivity|exact IH].
Qed.

Lemma find_app_other {A : Type} (p : A -> bool) (l : list A) (x : A) :
  p x = false -> List.find p (l ++ [x]) = List.find p l.
Proof.
  intros H. induction l as [|y l IH]; cbn [app List.find].
  - now rewrite H.
  - destruct (p y); [reflexivity|exact IH].
Qed.

(** X11 (createBook, getBook, getBookByISBN): a book that has been
    created is read back, by its id and by its ISBN alike, with the
    fields [createBook] returned, except for what the database does not
    keep: an optional text that was the empty string is read back as
    absent, a price of [-0] as [0], and the metadata and enrichment bags
    as their JSON text gives them back (a number that is not finite as
    absent).  Both prices of a created book are finite numbers.  The
    table has grown by that one row and every other id reads as
    before. *)
Theorem createBook_then_lookup_reads_the_book_back :
  forall (env : Env) (bookData : PartialBook) (w w' : World) (b : Book),
    createBook env bookData w = (Returned b, w') ->
    exists stored : Book,
      fst (getBook (id b) w') = Returned (Some stored)
      /\ fst (getBookByISBN (isbn b) w') = Returned (Some stored)
      /\ id stored = id b /\ isbn stored = isbn b /\ title stored = title b
      /\ author stored = author b /\ condition stored = condition b
      /\ is_finite (cost_price b) = true /\ is_finite (sell_price b) = true
      /\ cost_price stored = unsigned_zero (cost_price b)
      /\ sell_price stored = unsigned_zero (sell_price b)
      /\ in_stock stored = in_stock b /\ status stored = status b
      /\ metadata stored = json_metadata <$> metadata b
      /\ ai_enrichment stored = json_enrichment <$> ai_enrichment b
      /\ created_at stored = created_at b /\ updated_at stored = updated_at b
      /\ description stored = or_null (description b)
      /\ cover_url stored = or_null (cover_url b)
      /\ vibe_tags stored = or_null (vibe_tags b)
      /\ review_summary stored = or_null (review_summary b)
      /\ vector_id stored = or_null (vector_id b)
      /\ sold_at stored = None
      /\ List.length (books (DB w')) = S (List.length (books (DB w)))
      /\ forall other : string,
           other <> id b -> fst (getBook other w') = fst (getBook other w).
Proof.
  intros env bookData w w' b H.
  pose proof (createBook_finite _ _ _ _ _ H) as (_ & _ & Hcost & Hsell).
  apply createBook_inversion in H
    as (_ & _ & Hstock & _ & _ & _ & Hid & Hisbn & Hdb).
  exists (deserializeBook (row_of_book (next_rowid (books (DB w))) b)).
  unfold getBook, getBookByISBN. rewrite Hdb. cbn [fst books].
  rewrite !find_app_fresh; trivial; try (cbn; apply String.eqb_refl).
  split; [reflexivity|]. split; [reflexivity|].
  cbn [deserializeBook row_of_book id isbn title author condition cost_price
       sell_price in_stock status metadata ai_enrichment created_at updated_at
       description cover_url vibe_tags review_summary vector_id sold_at
       r_id r_isbn r_title r_author r_condition r_cost_price r_sell_price
       r_in_stock r_status r_metadata r_ai_enrichment r_created_at r_updated_at
       r_description r_cover_url r_vibe_tags r_review_summary r_vector_id
       r_sold_at].
  repeat (split; [reflexivity|]).
  split; [exact Hcost|]. split; [exact Hsell|].
  repeat (split; [reflexivity|]).
  split; [now rewrite Hstock|]. repeat (split; [reflexivity|]).
  split; [rewrite List.length_app; cbn; lia|].
  intros other Hne. rewrite find_app_other; [reflexivity|].
  cbn [row_of_book r_id]. apply String.eqb_neq. congruence.
Qed.

Lemma createBook_then_lookup_witness :
  exists (b stored : Book) (w' : World),
    createBook Shop.env Shop.out_of_stock_data Shop.empty_world = (Returned b, w')
    /\ fst (getBook (id b) w') = Returned (Some stored)
    /\ fst (getBookByISBN "9780141439600" w') = Returned (Some stored)
    /\ title stored = "Emma".
Proof.
  destruct (createBook Shop.env Shop.out_of_stock_data Shop.empty_world)
    as [[b|e] w'] eqn:E; [|vm_compute in E; discriminate E].
  destruct (createBook_then_lookup_reads_the_book_back _ _ _ _ _ E)
    as (stored & H1 & H2 & _ & Hisbn & Htitle & _).
  exists b, stored, w'. split; [reflexivity|]. split; [exact H1|].
  vm_compute in E. injection E as <- <-.
  split; [exact H2|exact Htitle].
Defined.

(** *** Ingestion, from the store's side *)

Lemma transfer_cover_DB (env : Env) (b : Book) (cover : option string)
    (errs : list string) (w : World) :
  DB (snd (transfer_cover env b cover errs w)) = DB w
  \/ exists (url now : string),
       DB (snd (transfer_cover env b cover errs w)) =
         updated_db (id b) (assign (update_sets (cover_only url) now)) (DB w).
Proof.
  destruct (transfer_cover env b cover errs w) as [t w'] eqn:E. cbn [snd].
  unfold transfer_cover in E.
  destruct cover as [[|c u]|]; try (injection E as _ <-; now left).
  destruct (JsString.truthy (Some (id b))); [|injection E as _ <-; now left].
  unfold try_catch, bind at 1 in E.
  pose proof (uploadBookCover_DB env (id b) (String c u) w) as Hup.
  destruct (uploadBookCover env (id b) (String c u) w) as [[url|e] w1];
    cbn [snd] in Hup; [|injection E as _ <-; now left].
  destruct (negb (String.eqb url (String c u)));
    [|injection E as _ <-; now left].
  unfold bind in E. fold (cover_only url) in E.
  destruct (updateBook_DB env (id b) (cover_only url) w1) as [H|H];
    destruct (updateBook env (id b) (cover_only url) w1) as [[o|e] w2];
    cbn [snd ret] in *; injection E as _ <-; rewrite H, Hup; eauto.
Qed.

Lemma cover_update_keeps (url now : string) (r : BookRow) :
  let r' := assign (update_sets (cover_only url) now) r in
  r_id r' = r_id r /\ r_isbn r' = r_isbn r /\ r_status r' = r_status r
  /\ r_in_stock r' = r_in_stock r /\ rowid r' = rowid r.
Proof. cbn. repeat split. Qed.

(** After the ingestion of an ingestible request the store holds the new
    book under the id of the response and under the ISBN of the request,
    pending review and in stock, and no other row has that id. *)
Lemma ingestBook_stored (env : Env) (req : IngestBookRequest) (w : World) :
  ingestible env req w ->
  exists (resp : IngestBookResponse) (w' : World) (row : BookRow),
    ingestBook env req w = (Returned resp, w')
    /\ book_id resp = randomUUID env (draws w)
    /\ id (book resp) = book_id resp
    /\ isbn (book resp) = req_isbn req
    /\ status (book resp) = pending_review
    /\ in_stock (book resp) = true
    /\ List.find (fun r => String.eqb (r_id r) (book_id resp)) (books (DB w'))
         = Some row
    /\ List.find (fun r => String.eqb (r_isbn r) (req_isbn req)) (books (DB w'))
         = Some row
    /\ r_id row = book_id resp /\ r_isbn row = req_isbn req
    /\ r_status row = pending_review /\ r_in_stock row = 1
    /\ (forall r, In r (books (DB w')) -> r_id r = book_id resp ->
          r_status r = pending_review)
    /\ (forall r, In r (books (DB w')) -> r_isbn r <> req_isbn req ->
          exists r0, In r0 (books (DB w)) /\ r_isbn r0 = r_isbn r).
Proof.
  intros Hing.
  destruct (ingestBook_run env req w Hing)
    as (created & w1 & w2 & transferred & Hcreate & Htransfer
        & resp & Hrun & _ & Hbook & Hid & _).
  pose proof (transfer_cover_keeps_id _ _ _ _ _ _ _ Htransfer) as Hsame.
  pose proof (transfer_cover_DB env created
                (m_cover_url (merged_for env (req_isbn req))) [] w1) as Hdb2.
  rewrite Htransfer in Hdb2. cbn [snd] in Hdb2.
  assert (Hfields : isbn (fst transferred) = isbn created
                    /\ status (fst transferred) = status created
                    /\ in_stock (fst transferred) = in_stock created).
  { clear -Htransfer. unfold transfer_cover in Htransfer.
    destruct (m_cover_url _) as [[|a c]|];
      try (injection Htransfer as <- _; now repeat split).
    destruct (JsString.truthy (Some (id created)));
      [|injection Htransfer as <- _; now repeat split].
    unfold try_catch, bind at 1 in Htransfer.
    destruct (uploadBookCover env (id created) (String a c) w1) as [[u|e] w3];
      [|injection Htransfer as <- _; now repeat split].
    destruct (negb (String.eqb u (String a c)));
      [|injection Htransfer as <- _; now repeat split].
    unfold bind in Htransfer.
    destruct (updateBook env (id created) _ w3) as [[o|e] w4];
      injection Htransfer as <- _; now repeat split. }
  destruct Hfields as (Hisbn' & Hstatus' & Hstock').
  apply createBook_inversion in Hcreate
    as (Hcid & Hcisbn & Hcstock & Hcstatus & _ & _ & Hfresh & Hfresh' & Hdb1).
  cbn [ingest_data p_isbn p_status] in Hcisbn, Hcstatus.
  injection Hcisbn as Hcisbn.
  set (row := row_of_book (next_rowid (books (DB (note_requests
               [GetOpenLibrary (normalizeISBN (req_isbn req));
                GetGoogleBooks (normalizeISBN (req_isbn req))] w)))) created) in *.
  cbn [note_requests DB] in Hdb1, Hfresh, Hfresh'.
  assert (Hrow : r_id row = id created /\ r_isbn row = isbn created
                 /\ r_status row = pending_review /\ r_in_stock row = 1).
  { subst row. cbn [row_of_book r_id r_isbn r_status r_in_stock].
    rewrite Hcstatus, Hcstock. now repeat split. }
  destruct Hrow as (Hrid & Hrisbn & Hrstatus & Hrstock).
  assert (Hfind1 : List.find (fun r => String.eqb (r_id r) (id created))
                     (books (DB w1)) = Some row).
  { rewrite Hdb1. cbn [books]. apply find_app_fresh; [exact Hfresh|].
    cbv beta. rewrite Hrid. apply String.eqb_refl. }
  assert (Hfind1' : List.find (fun r => String.eqb (r_isbn r) (isbn created))
                      (books (DB w1)) = Some row).
  { rewrite Hdb1. cbn [books]. apply find_app_fresh; [exact Hfresh'|].
    cbv beta. rewrite Hrisbn. apply String.eqb_refl. }
  assert (Hrows1 : forall r, In r (books (DB w1)) ->
                     (r_id r = id created -> r = row)
                     /\ (r <> row -> In r (books (DB w)))).
  { intros r Hr. rewrite Hdb1 in Hr. cbn [books] in Hr.
    apply in_app_iff in Hr as [Hr|[<-|[]]]; [|tauto].
    split; [|tauto]. intros E. exfalso.
    assert (Ht : existsb (fun r => String.eqb (r_id r) (id created)) (books (DB w))
                 = true).
    { apply List.existsb_exists. exists r. split; [exact Hr|].
      now apply String.eqb_eq. }
    congruence. }
  assert (Hbid : book_id resp = id created) by congruence.
  exists resp, w2.
  destruct Hdb2 as [Hdb2|(url & now & Hdb2)].
  - exists row. rewrite Hbid, Hdb2, Hcisbn.
    split; [exact Hrun|]. split; [exact Hcid|]. split; [congruence|].
    split; [congruence|]. split; [congruence|]. split; [congruence|].
    split; [exact Hfind1|]. split; [exact Hfind1'|].
    split; [exact Hrid|]. split; [exact Hrisbn|].
    split; [exact Hrstatus|]. split; [exact Hrstock|]. split.
    + intros r Hr E. apply Hrows1 in Hr as [Hr _]. now rewrite (Hr E).
    + intros r Hr Hne. exists r. split; [|reflexivity].
      apply Hrows1 in Hr as [_ Hr]. apply Hr. intros ->. congruence.
  - set (f := assign (update_sets (cover_only url) now)) in *.
    exists (f row). rewrite Hbid, Hdb2, Hcisbn.
    split; [exact Hrun|]. split; [exact Hcid|]. split; [congruence|].
    split; [congruence|]. split; [congruence|]. split; [congruence|].
    split.
    { rewrite (updated_db_find_by r_id) by reflexivity. rewrite Hfind1.
      cbn [fmap option_fmap option_map]. rewrite Hrid. now rewrite String.eqb_refl. }
    split.
    { rewrite (updated_db_find_by r_isbn) by reflexivity. rewrite Hfind1'.
      cbn [fmap option_fmap option_map]. rewrite Hrid. now rewrite String.eqb_refl. }
    split; [exact Hrid|]. split; [exact Hrisbn|].
    split; [exact Hrstatus|]. split; [exact Hrstock|]. split.
    + intros r Hr E. apply updated_db_In in Hr as (r0 & Hr0 & ->).
      apply Hrows1 in Hr0 as [Hr0 _].
      destruct (String.eqb (r_id r0) (id created)) eqn:E0.
      * apply String.eqb_eq in E0. rewrite (Hr0 E0). exact Hrstatus.
      * rewrite (Hr0 E). exact Hrstatus.
    + intros r Hr Hne. apply updated_db_In in Hr as (r0 & Hr0 & ->).
      exists r0. split.
      * apply Hrows1 in Hr0 as [_ Hr0]. apply Hr0. intros ->. apply Hne.
        destruct (String.eqb (r_id row) (id created)); exact Hrisbn.
      * now destruct (String.eqb (r_id r0) (id created)).
Qed.

Lemma ingestBook_duplicate (env : Env) (req : IngestBookRequest) (w : World)
    (row : BookRow) :
  isValidISBN (req_isbn req) = true ->
  leb (req_cost_price req) (of_Z 0) = false ->
  List.find (fun r => String.eqb (r_isbn r) (req_isbn req)) (books (DB w))
    = Some row ->
  ingestBook env req w = (Thrown (already_exists (req_isbn req) (r_id row)), w).
Proof.
  intros Hv Hc Hfind. unfold ingestBook, try_catch. rewrite Hv, Hc. cbn [negb].
  unfold bind at 1, getBookByISBN. rewrite Hfind. reflexivity.
Qed.

(** X12 (ingestBook, getBookByISBN): an ISBN that is already stored is
    refused. A valid request with a positive cost whose ISBN is stored
    fails with 409, the message naming the id of the stored book, before
    any lookup is issued and with nothing written. So ingesting the same
    request a second time fails with the id the first ingestion gave.
    The comparison is on the ISBN as it was written: after the ingestion
    any other spelling that was not stored before is still not found, be
    it the same ISBN with or without hyphens. *)
Theorem ingestBook_refuses_a_stored_isbn :
  forall (env : Env) (req : IngestBookRequest) (w : World),
    isValidISBN (req_isbn req) = true ->
    leb (req_cost_price req) (of_Z 0) = false ->
    (forall existing : Book,
       fst (getBookByISBN (req_isbn req) w) = Returned (Some existing) ->
       ingestBook env req w =
         (Thrown (already_exists (req_isbn req) (id existing)), w))
    /\ (ingestible env req w ->
        exists (resp : IngestBookResponse) (w' : World),
          ingestBook env req w = (Returned resp, w')
          /\ isbn (book resp) = req_isbn req
          /\ ingestBook env req w' =
               (Thrown (already_exists (req_isbn req) (book_id resp)), w')
          /\ forall spelling : string,
               spelling <> req_isbn req ->
               fst (getBookByISBN spelling w) = Returned None ->
               fst (getBookByISBN spelling w') = Returned None).
Proof.
  intros env req w Hv Hc. split.
  - intros existing H. unfold getBookByISBN in H. cbn [fst] in H.
    destruct (List.find _ _) as [row|] eqn:Hfind; [|discriminate H].
    injection H as <-. now apply ingestBook_duplicate.
  - intros Hing.
    destruct (ingestBook_stored env req w Hing)
      as (resp & w' & row & Hrun & _ & _ & Hisbn & _ & _ & _ & Hfind & Hrid & _
          & _ & _ & _ & Hold).
    exists resp, w'. split; [exact Hrun|]. split; [exact Hisbn|]. split.
    + rewrite <- Hrid. now apply ingestBook_duplicate.
    + intros spelling Hne Hnone. unfold getBookByISBN in *. cbn [fst] in *.
      destruct (List.find (fun r => String.eqb (r_isbn r) spelling) (books (DB w')))
        as [r|] eqn:Hr; [|reflexivity].
      exfalso. apply List.find_some in Hr as [Hin E]. apply String.eqb_eq in E.
      destruct (Hold r Hin) as (r0 & Hr0 & E0); [congruence|].
      destruct (List.find (fun r => String.eqb (r_isbn r) spelling) (books (DB w)))
        eqn:Hf; [discriminate Hnone|].
      apply (List.find_none _ _ Hf) in Hr0. apply String.eqb_neq in Hr0. congruence.
Qed.

Lemma ingestBook_refuses_a_stored_isbn_witness :
  exists (resp : IngestBookResponse) (w' : World),
    ingestBook Shop.env Shop.request Shop.empty_world = (Returned resp, w')
    /\ ingestBook Shop.env Shop.request w' =
         (Thrown (already_exists "978-0-375-75785-3" (book_id resp)), w')
    /\ normalizeISBN "9780375757853" = normalizeISBN "978-0-375-75785-3"
    /\ fst (getBookByISBN "9780375757853" w') = Returned None.
Proof.
  destruct (proj2 (ingestBook_refuses_a_stored_isbn Shop.env Shop.request
                     Shop.empty_world eq_refl eq_refl) shop_request_ingestible)
    as (resp & w' & Hrun & _ & Hagain & Hother).
  exists resp, w'. split; [exact Hrun|]. split; [exact Hagain|].
  split; [reflexivity|]. apply Hother; [discriminate|reflexivity].
Defined.

(** X13 (ingestBook, approveBook, getPublicBook, listPublicBooks): a book
    is not shown before it is approved, and is shown once it is. After the
    ingestion of an ingestible request (valid, new, known to a provider,
    with finite prices) the book is pending review and in stock and the
    public views do not show it; an approval, whatever edits it carries
    as long as its price override, if it has one, is a finite amount of
    pence, succeeds, and the approved book is then what the public lookup
    of its id returns and is on the unpaged public listing. *)
Theorem ingested_book_is_shown_once_approved :
  forall (env : Env) (req : IngestBookRequest) (w : World),
    ingestible env req w ->
    exists (resp : IngestBookResponse) (w1 : World),
      ingestBook env req w = (Returned resp, w1)
      /\ status (book resp) = pending_review
      /\ in_stock (book resp) = true
      /\ publicly_hidden env (book_id resp) w1
      /\ forall updates : option ApproveUpdates,
           price_refused (approval_payload updates) = false ->
           exists (approved : Book) (w2 : World),
             approveBook env (book_id resp) updates w1 = (Returned approved, w2)
             /\ id approved = book_id resp
             /\ on_sale approved
             /\ getPublicBook (book_id resp) w2 =
                  (Returned (successResponse approved 200), w2)
             /\ forall (limit offset : Z) (page : BookPage),
                  limit < 0 -> offset <= 0 ->
                  listPublicBooks limit offset w2 =
                    (Returned (successResponse page 200), w2) ->
                  In approved (pg_books page).
Proof.
  intros env req w Hing.
  destruct (ingestBook_stored env req w Hing)
    as (resp & w1 & row & Hrun & _ & _ & _ & Hstatus & Hstock & Hfind & _ & Hrid
        & _ & Hrstatus & Hrstock & Hrows & _).
  exists resp, w1. split; [exact Hrun|]. split; [exact Hstatus|].
  split; [exact Hstock|]. split.
  { apply not_live_hidden. intros r Hr E. rewrite (Hrows r Hr E). discriminate. }
  intros updates Hfinite.
  assert (Hsome : ~ no_allowed_field (approval_payload updates)).
  { intros (_ & _ & _ & _ & _ & _ & _ & _ & _ & _ & _ & H). discriminate H. }
  rewrite (approveBook_run env _ updates w1 row Hfind), Hrstatus.
  cbn [BookStatus_eqb].
  rewrite (updateBook_writes env _ _ w1 row Hfind Hsome Hfinite).
  set (sets := update_sets (approval_payload updates) (clock env (ticks w1))).
  assert (Hid : forall r, r_id (assign sets r) = r_id r).
  { intros r. now apply assign_keeps. }
  assert (Hlive : r_status (assign sets row) = live).
  { unfold assign, sets. now rewrite status_after_update. }
  assert (Hin_stock : r_in_stock (assign sets row) = 1).
  { unfold assign, sets. now rewrite in_stock_after_update. }
  eexists _, _. split; [reflexivity|].
  split; [cbn [deserializeBook id]; now rewrite Hid|].
  split.
  { split; cbn [deserializeBook status in_stock]; [exact Hlive|].
    now rewrite Hin_stock. }
  split.
  { rewrite getPublicBook_run. cbn [set_DB DB].
    rewrite (updated_db_find_by r_id _ _ _ _ Hid), Hfind.
    cbn [fmap option_fmap option_map]. rewrite Hrid, String.eqb_refl.
    now rewrite Hlive, Hin_stock. }
  intros limit offset page Hl Ho. rewrite listPublicBooks_run. intros [= <-].
  cbn [book_page pg_books fst]. apply List.in_map.
  unfold sql_limit, sql_offset.
  replace (limit <? 0) with true by (symmetry; now apply Z.ltb_lt).
  replace (Z.to_nat offset) with 0%nat by lia. cbn [drop].
  apply public_rows_In. cbn [set_DB DB]. split; [|now split].
  apply updated_db_In. exists row. split.
  - now apply List.find_some in Hfind as [Hin _].
  - now rewrite Hrid, String.eqb_refl.
Qed.

Lemma ingested_book_is_shown_once_approved_witness :
  exists (resp : IngestBookResponse) (w1 : World) (approved : Book) (w2 : World),
    ingestBook Shop.env Shop.request Shop.empty_world = (Returned resp, w1)
    /\ publicly_hidden Shop.env (book_id resp) w1
    /\ approveBook Shop.env (book_id resp) None w1 = (Returned approved, w2)
    /\ getPublicBook (book_id resp) w2 =
         (Returned (successResponse approved 200), w2).
Proof.
  destruct (ingested_book_is_shown_once_approved Shop.env Shop.request
              Shop.empty_world shop_request_ingestible)
    as (resp & w1 & Hrun & _ & _ & Hhidden & Happrove).
  destruct (Happrove None eq_refl) as (approved & w2 & Hok & _ & _ & Hshown & _).
  exists resp, w1, approved, w2. auto.
Defined.

(* ================================================================== *)
(** ** Routing *)
(* ================================================================== *)

(** [++] on strings does not unfold under [simpl]: these do it on
    demand. *)
Lemma append_cons (c : ascii) (a b : string) : String c a ++ b = String c (a ++ b).
Proof. reflexivity. Qed.

Lemma append_nil_l (b : string) : "" ++ b = b.
Proof. reflexivity. Qed.

Lemma append_nil_r (s : string) : s ++ "" = s.
Proof.
  induction s as [|c s IH]; [reflexivity|]. now rewrite append_cons, IH.
Qed.

Lemma append_assoc (a b c : string) : (a ++ b) ++ c = a ++ (b ++ c).
Proof.
  induction a as [|x a IH]; [reflexivity|]. now rewrite !append_cons, IH.
Qed.

Lemma append_snoc (a : string) (c : ascii) (b : string) :
  (a ++ String c "") ++ b = a ++ String c b.
Proof. now rewrite append_assoc, append_cons, append_nil_l. Qed.

(** A group swallows the whole of what is left when that has no [/] and
    the pattern ends there. *)
Lemma capture_all (s : string) :
  forall taken : string,
    slash_free s = true -> taken ++ s <> "" ->
    capture (match_segments []) taken s = Some [taken ++ s].
Proof.
  induction s as [|c s IH]; intros taken Hs Hne.
  - rewrite append_nil_r in *. cbn. destruct taken; [congruence|reflexivity].
  - cbn [slash_free] in Hs. apply andb_true_iff in Hs as [Hc Hs].
    apply negb_true_iff in Hc. cbn [capture]. rewrite Hc.
    rewrite IH; [now rewrite append_snoc|exact Hs|].
    rewrite append_snoc. destruct taken; discriminate.
Qed.

(** A group swallows everything up to the next [/] when the rest of the
    pattern matches from there. *)
Lemma capture_segment (k : string -> option (list string)) (s rest : string)
    (groups : list string) :
  forall taken : string,
    slash_free s = true -> taken ++ s <> "" ->
    k (String "/" rest) = Some groups ->
    capture k taken (s ++ String "/" rest) = Some ((taken ++ s) :: groups).
Proof.
  induction s as [|c s IH]; intros taken Hs Hne Hk.
  - rewrite append_nil_l. rewrite append_nil_r in *. cbn. rewrite Hk.
    destruct taken; [congruence|reflexivity].
  - cbn [slash_free] in Hs. apply andb_true_iff in Hs as [Hc Hs].
    apply negb_true_iff in Hc. rewrite append_cons. cbn [capture]. rewrite Hc.
    rewrite IH; [now rewrite append_snoc|exact Hs| |exact Hk].
    rewrite append_snoc. destruct taken; discriminate.
Qed.

(** A group at the end of a pattern matches nothing that has a [/]. *)
Lemma capture_slash (s : string) :
  forall taken : string,
    slash_free s = false -> capture (match_segments []) taken s = None.
Proof.
  induction s as [|c s IH]; intros taken Hs; [discriminate Hs|].
  cbn [slash_free] in Hs. cbn [capture].
  destruct (Ascii.eqb c "/") eqn:Hc.
  - cbn. now destruct taken.
  - cbn [negb andb] in Hs. rewrite (IH _ Hs). cbn. now destruct taken.
Qed.

Lemma slash_free_app (a b : string) :
  slash_free (a ++ b) = slash_free a && slash_free b.
Proof.
  induction a as [|c a IH]; [reflexivity|].
  rewrite append_cons. cbn [slash_free]. now rewrite IH, andb_assoc.
Qed.

Lemma find_route_unmatched (routes : list Route) (m p : string) :
  unmatched routes p = true -> find_route routes m p = NotFound.
Proof.
  induction routes as [|r routes IH]; simpl; [reflexivity|].
  intros H. apply andb_true_iff in H as [Hr H].
  destruct (negb _); [now apply IH|].
  destruct (match_segments (pattern r) p); [discriminate Hr|now apply IH].
Qed.

Lemma route_unmatched (m p : string) :
  m <> "OPTIONS" -> unmatched router p = true -> route m p = NotFound.
Proof.
  intros Hm Hp. unfold route.
  apply String.eqb_neq in Hm. rewrite Hm. now apply find_route_unmatched.
Qed.

(** The route table in its compiled form, and a path with a known
    beginning unfolded that far. *)
Ltac compiled_router :=
  let r := eval vm_compute in router in change router with r.

Ltac known_prefix := repeat rewrite ?append_cons, ?append_nil_l.

Ltac pattern_end :=
  change (fun s : string =>
            match s with
            | EmptyString => Some (@nil string)
            | String _ _ => None
            end) with (match_segments []).

Lemma assets_unmatched (key : string) :
  slash_free key = false -> unmatched router (getPublicUrl key) = true.
Proof.
  intros H. unfold getPublicUrl, unmatched. compiled_router. known_prefix.
  cbn -[capture]. pattern_end.
  now rewrite (capture_slash key "" H).
Qed.

Lemma uploadFile_inversion (env : Env) (bucket : Bucket) (file : Upload)
    (fileName : string) (folder : option string) (w w' : World) (url : string) :
  uploadFile env bucket file fileName folder w = (Returned url, w') ->
  exists (key : string) (object : R2Object),
    key = match folder with Some f => f | None => "uploads" end
          ++ "/" ++ DecimalString.NilZero.string_of_int
                      (Z.to_int (Date_now bucket (ticks w)))
          ++ "-" ++ fileName
    /\ url = getPublicUrl key
    /\ r2_put_succeeds env key = true
    /\ ASSETS w' = <[key := object]> (ASSETS w)
    /\ r2_data object =
         match file with
         | File (Content data) _ => data
         | File _ _ => ""
         | ArrayBuffer data => data
         end
    /\ r2_contentType object =
         match file with
         | File _ type => type
         | ArrayBuffer _ => "application/octet-stream"
         end
    /\ DB w' = DB w.
Proof.
  unfold uploadFile, try_catch, bind at 1, Date_now_text.
  set (key := _ ++ "/" ++ _ ++ "-" ++ fileName).
  unfold bind at 1.
  destruct file as [[| |data] type|data]; cbn [ret throw];
    try discriminate;
    (unfold bind, ASSETS_put; destruct (r2_put_succeeds env key) eqn:Hput;
     [|discriminate]);
    cbn [fst snd ret]; intros [= <- <-];
    (eexists key, _; repeat split; try reflexivity; exact Hput).
Qed.

Lemma storage_key_covers (bookId : string) (r : HttpResponse string) :
  exists ext : string,
    storage_key bookId r = "covers/" ++ bookId ++ ext
    /\ slash_free ext = true /\ ext <> "".
Proof.
  unfold storage_key, getFileExtension. eexists. split; [reflexivity|].
  generalize (match content_type r with
              | Some (String c ct) => String c ct
              | _ => "image/jpeg"
              end) as ct.
  intros ct. unfold extensions, Object_prototype. cbn [assoc].
  repeat (destruct (String.eqb _ ct); [split; [reflexivity|discriminate]|]).
  split; [reflexivity|discriminate].
Qed.

(** With an ordinary content type the extension is one of the table, or
    [.jpg]. *)
Lemma storage_key_plain (bookId : string) (r : HttpResponse string) :
  assoc (served_type r) Object_prototype = None ->
  exists ext : string,
    storage_key bookId r = "covers/" ++ bookId ++ ext
    /\ url_plain ext = true /\ ext <> "".
Proof.
  unfold storage_key, getFileExtension, served_type. intros Hplain.
  eexists. split; [reflexivity|]. rewrite Hplain.
  generalize (match content_type r with
              | Some (String c ct) => String c ct
              | _ => "image/jpeg"
              end) as ct.
  intros ct. unfold extensions. cbn [assoc].
  repeat (destruct (String.eqb _ ct); [split; [reflexivity|discriminate]|]).
  split; [reflexivity|discriminate].
Qed.

Lemma url_plain_app (a b : string) :
  url_plain (a ++ b) = url_plain a && url_plain b.
Proof.
  induction a as [|c a IH]; [reflexivity|].
  rewrite append_cons. cbn [url_plain]. now rewrite IH, andb_assoc.
Qed.

Lemma url_plain_slash_free (s : string) : url_plain s = true -> slash_free s = true.
Proof.
  induction s as [|c s IH]; [reflexivity|]. cbn [url_plain slash_free].
  intros H. apply andb_true_iff in H as [Hc Hs]. rewrite (IH Hs), andb_true_r.
  destruct (Ascii.eqb_spec c "/") as [->|]; [discriminate Hc|reflexivity].
Qed.

(** X14 (getPublicUrl, uploadBookCover, uploadFile against Router.route):
    the worker does not serve the URLs its storage service hands out. A
    public URL [/assets/<key>] whose key has a [/] matches no route, for
    any method but OPTIONS (404 'Not found'); every key the service
    writes has one ([covers/...], [<folder>/...]), so the URL a cover
    transfer that went through returns, which ingestion stores as the
    cover of the book, and the URL of every uploaded file, are not
    routed. *)
Theorem storage_urls_are_not_routed :
  (forall key request_method : string,
     slash_free key = false -> request_method <> "OPTIONS" ->
     route request_method (getPublicUrl key) = NotFound)
  /\ (forall (env : Env) (bookId imageUrl : string) (w : World),
        ~ transfer_fails env bookId imageUrl ->
        exists (url : string) (w' : World),
          uploadBookCover env bookId imageUrl w = (Returned url, w')
          /\ forall request_method : string,
               request_method <> "OPTIONS" ->
               route request_method url = NotFound)
  /\ (forall (env : Env) (bucket : Bucket) (file : Upload)
             (fileName : string) (folder : option string) (w w' : World)
             (url : string),
        uploadFile env bucket file fileName folder w = (Returned url, w') ->
        forall request_method : string,
          request_method <> "OPTIONS" ->
          route request_method url = NotFound).
Proof.
  assert (Hkey : forall key request_method : string,
            slash_free key = false -> request_method <> "OPTIONS" ->
            route request_method (getPublicUrl key) = NotFound).
  { intros key m Hk Hm. apply route_unmatched; [exact Hm|].
    now apply assets_unmatched. }
  split; [exact Hkey|]. split.
  - intros env bookId imageUrl w Hok.
    destruct (uploadBookCover_success env bookId imageUrl w Hok)
      as (r & w' & _ & Hup & _).
    eexists _, _. split; [exact Hup|]. intros m Hm. apply Hkey; [|exact Hm].
    destruct (storage_key_covers bookId r) as (ext & -> & _). reflexivity.
  - intros env bucket file fileName folder w w' url Hup m Hm.
    apply uploadFile_inversion in Hup as (key & object & -> & -> & _).
    apply Hkey; [|exact Hm].
    rewrite slash_free_app, append_cons. cbn [slash_free].
    cbn. apply andb_false_r.
Qed.

Lemma storage_urls_witness :
  slash_free "covers/book-0.png" = false
  /\ "GET" <> "OPTIONS"
  /\ route "GET" (getPublicUrl "covers/book-0.png") = NotFound.
Proof.
  assert (H1 : slash_free "covers/book-0.png" = false) by reflexivity.
  assert (H2 : "GET" <> "OPTIONS") by discriminate.
  split; [exact H1|]. split; [exact H2|].
  exact (proj1 storage_urls_are_not_routed "covers/book-0.png" "GET" H1 H2).
Defined.

Lemma serve_asset_run (bucket : Bucket) (path : string) (w : World) :
  serve_asset bucket path w =
    (Returned
       (if r2_get_succeeds bucket ("covers/" ++ path) then
          match ASSETS w !! ("covers/" ++ path) with
          | None => Plain "Image not found" 404
          | Some object =>
              Image (r2_data object)
                (match r2_contentType object with
                 | EmptyString => "image/jpeg"
                 | contentType => contentType
                 end)
          end
        else Plain "Error fetching image" 500),
     w).
Proof.
  unfold serve_asset, try_catch, bind, ASSETS_get.
  destruct (r2_get_succeeds bucket _); [|reflexivity].
  now destruct (ASSETS w !! _).
Qed.

Lemma route_assets (file : string) :
  slash_free file = true -> file <> "" ->
  route "GET" ("/assets/" ++ file) = Handled H_assets [("path", file)].
Proof.
  intros Hs Hne. unfold route. cbn [String.eqb Ascii.eqb Bool.eqb].
  compiled_router. known_prefix. cbn -[capture]. pattern_end.
  now rewrite capture_all.
Qed.

(** X15 (GET /assets/:path against uploadBookCover): a cover that was
    transferred is served, but not where its URL says. For a book id made
    of letters, digits and [-._~] (as a UUID is) and an image whose
    content type is not the name of a member of [Object.prototype], the
    file name [<id><ext>] is made of such characters too, so that the
    path [/assets/<id><ext>] reaches the router as it is written; the
    object the transfer stored under [covers/<id><ext>] is what
    [GET /assets/<id><ext>] is routed to and answers with, body and
    content type as stored, as long as the bucket can be read; the route
    answers 500 'Error fetching image' when it cannot, and 404 'Image not
    found' for a file the bucket does not hold. *)
Theorem stored_cover_is_served_under_its_file_name :
  forall (env : Env) (bucket : Bucket) (bookId imageUrl : string) (w : World),
    ~ transfer_fails env bookId imageUrl ->
    url_plain bookId = true ->
    ordinary_type env imageUrl ->
    exists (file : string) (object : R2Object) (w' : World),
      uploadBookCover env bookId imageUrl w =
        (Returned (getPublicUrl ("covers/" ++ file)), w')
      /\ url_plain file = true
      /\ route "GET" ("/assets/" ++ file) = Handled H_assets [("path", file)]
      /\ ASSETS w' !! ("covers/" ++ file) = Some object
      /\ r2_contentType object <> ""
      /\ (r2_get_succeeds bucket ("covers/" ++ file) = true ->
          serve_asset bucket file w' =
            (Returned (Image (r2_data object) (r2_contentType object)), w'))
      /\ (r2_get_succeeds bucket ("covers/" ++ file) = false ->
          serve_asset bucket file w' =
            (Returned (Plain "Error fetching image" 500), w'))
      /\ (forall other : string,
            ASSETS w' !! ("covers/" ++ other) = None ->
            r2_get_succeeds bucket ("covers/" ++ other) = true ->
            serve_asset bucket other w' =
              (Returned (Plain "Image not found" 404), w')).
Proof.
  intros env bucket bookId imageUrl w Hok Hid Hplain.
  unfold transfer_fails in Hok. unfold ordinary_type in Hplain.
  unfold uploadBookCover, try_catch, bind at 1, fetch_image, bind at 1,
    record_request.
  destruct (image_host env imageUrl) as [|r]; [tauto|].
  destruct (storage_key_plain bookId r (Hplain r eq_refl))
    as (ext & Hkey & Hext & Hne).
  exists (bookId ++ ext).
  cbn [ret throw]. fold (storage_key bookId r) in *.
  destruct (ok r); cbn [negb]; [|tauto].
  unfold bind at 1, arrayBuffer.
  assert (Hct : match content_type r with
                | Some (String c ct) => String c ct
                | _ => "image/jpeg"
                end <> "").
  { destruct (content_type r) as [[|c ct]|]; discriminate. }
  destruct (body r) as [| |data]; cbn [ret throw]; [tauto| |];
    (unfold bind, ASSETS_put; fold (storage_key bookId r);
     destruct (r2_put_succeeds env (storage_key bookId r)); [|tauto];
     rewrite Hkey; cbn [ret];
     eexists _, _; split; [reflexivity|];
     split; [rewrite url_plain_app, Hid, Hext; reflexivity|];
     split; [apply route_assets;
             [apply url_plain_slash_free; rewrite url_plain_app, Hid, Hext;
              reflexivity
             |destruct bookId; [rewrite append_nil_l; exact Hne|discriminate]]|];
     split; [cbn [ASSETS]; apply lookup_insert_eq|];
     split; [exact Hct|];
     split; [intros Hget; rewrite serve_asset_run, Hget; cbn [ASSETS];
             rewrite lookup_insert_eq; cbn [r2_data r2_contentType];
             destruct (match content_type r with
                       | Some (String c ct) => String c ct
                       | _ => "image/jpeg"
                       end); [congruence|reflexivity]|];
     split; [intros Hget; now rewrite serve_asset_run, Hget|];
     intros other Hnone Hget; now rewrite serve_asset_run, Hget, Hnone).
Qed.

Lemma stored_cover_witness :
  exists (file : string) (object : R2Object) (w' : World),
    uploadBookCover Depot.env "book-0" "https://books.example/moonstone.png"
      Shop.empty_world = (Returned (getPublicUrl ("covers/" ++ file)), w')
    /\ route "GET" ("/assets/" ++ file) = Handled H_assets [("path", file)]
    /\ ASSETS w' !! ("covers/" ++ file) = Some object.
Proof.
  assert (Hok : ~ transfer_fails Depot.env "book-0"
                    "https://books.example/moonstone.png").
  { intros [H|[H|H]]; discriminate H. }
  assert (Hplain : ordinary_type Depot.env "https://books.example/moonstone.png").
  { intros r [= <-]. reflexivity. }
  destruct (stored_cover_is_served_under_its_file_name Depot.env Depot.bucket
              "book-0" "https://books.example/moonstone.png" Shop.empty_world
              Hok eq_refl Hplain)
    as (file & object & w' & H1 & _ & H2 & H3 & _).
  exists file, object, w'. auto.
Defined.

Ltac dispatch :=
  unfold route; cbn [String.eqb Ascii.eqb Bool.eqb];
  compiled_router; known_prefix; cbn -[capture]; pattern_end.

(** X16 (Router.addRoute, Router.route, the routes of index.ts): the
    [:id] of a path comes back as the parameter. For an id that is not
    empty and has no [/], each book route hands exactly that id to its
    handler: the public lookup, the admin lookup, update and rejection,
    and the approval, which the shorter update pattern does not swallow.
    An empty id or an id with a [/] is not routed (404), nor is a
    trailing [/] tolerated; OPTIONS is answered 204 for any path
    whatever. *)
Theorem route_hands_the_id_to_the_handler :
  (forall id : string,
     slash_free id = true -> id <> "" ->
     route "GET" ("/api/books/" ++ id) = Handled H_getPublicBook [("id", id)]
     /\ route "GET" ("/api/admin/books/" ++ id) =
          Handled H_admin_getBook [("id", id)]
     /\ route "PATCH" ("/api/admin/books/" ++ id) =
          Handled H_admin_updateBook [("id", id)]
     /\ route "DELETE" ("/api/admin/books/" ++ id) =
          Handled H_admin_rejectBook [("id", id)]
     /\ route "PATCH" ("/api/admin/books/" ++ id ++ "/approve") =
          Handled H_admin_approveBook [("id", id)])
  /\ (forall id : string,
        slash_free id = false ->
        route "GET" ("/api/books/" ++ id) = NotFound
        /\ route "DELETE" ("/api/admin/books/" ++ id) = NotFound)
  /\ route "GET" "/api/books/" = NotFound
  /\ route "PATCH" "/api/admin/books//approve" = NotFound
  /\ (forall pathname : string, route "OPTIONS" pathname = Preflight).
Proof.
  split; [|split; [|split; [|split]]].
  - intros id Hs Hne.
    assert (Hall : capture (match_segments []) "" id = Some [id]).
    { apply capture_all; [exact Hs|now rewrite append_nil_l]. }
    split; [dispatch; now rewrite Hall|].
    split; [dispatch; now rewrite Hall|].
    split; [dispatch; now rewrite Hall|].
    split; [dispatch; now rewrite Hall|].
    dispatch.
    rewrite capture_slash
      by (rewrite slash_free_app; cbn; apply andb_false_r).
    rewrite (capture_segment _ id "approve" []);
      [now rewrite append_nil_l|exact Hs|now rewrite append_nil_l|reflexivity].
  - intros id Hs. split; dispatch; now rewrite capture_slash.
  - reflexivity.
  - reflexivity.
  - reflexivity.
Qed.

Lemma route_witness :
  route "PATCH" ("/api/admin/books/" ++ "book-0" ++ "/approve") =
    Handled H_admin_approveBook [("id", "book-0")].
Proof.
  destruct (proj1 route_hands_the_id_to_the_handler "book-0" eq_refl)
    as (_ & _ & _ & _ & H); [discriminate|exact H].
Defined.

(* ================================================================== *)
(** ** Files in the bucket *)
(* ================================================================== *)

Lemma getFile_run (bucket : Bucket) (key : string) (w : World) :
  getFile bucket key w =
    (Returned (if r2_get_succeeds bucket key
               then r2_data <$> ASSETS w !! key else None), w).
Proof.
  unfold getFile, try_catch, bind, ASSETS_get.
  destruct (r2_get_succeeds bucket key); [|reflexivity].
  now destruct (ASSETS w !! key).
Qed.

Lemma deleteFile_run (bucket : Bucket) (key : string) (w : World) :
  deleteFile bucket key w =
    (Returned tt,
     if r2_delete_succeeds bucket key then
       {| DB := DB w; ASSETS := delete key (ASSETS w);
          requests := requests w; ticks := ticks w; draws := draws w |}
     else w).
Proof.
  unfold deleteFile, try_catch, ASSETS_delete.
  now destruct (r2_delete_succeeds bucket key).
Qed.

Lemma uploadFile_failure (env : Env) (bucket : Bucket) (file : Upload)
    (fileName : string) (folder : option string) (w w' : World) (e : Exn) :
  uploadFile env bucket file fileName folder w = (Thrown e, w') ->
  e = BookstoreError "Failed to upload file" 500
  /\ ASSETS w' = ASSETS w /\ DB w' = DB w.
Proof.
  unfold uploadFile, try_catch, bind at 1, Date_now_text.
  set (key := _ ++ "/" ++ _ ++ "-" ++ fileName).
  unfold bind at 1.
  destruct file as [[| |data] type|data]; cbn [ret throw];
    try (intros [= <- <-]; now repeat split);
    (unfold bind, ASSETS_put; destruct (r2_put_succeeds env key);
     cbn [fst snd ret throw]; [discriminate|intros [= <- <-]; now repeat split]).
Qed.

(** X17 (uploadFile, getFile, deleteFile): what is uploaded can be read
    back, and what is deleted is gone. [uploadFile] either returns the
    public URL of a key under which the bucket then holds the data it was
    given, so that [getFile] of that key returns the data whenever the
    bucket can be read, or throws 'Failed to upload file' (500) with the
    bucket as it was. [getFile] and [deleteFile] never throw: a read that
    fails, like a missing key, is answered [null]; any [getFile] after a
    [deleteFile] that the bucket carried out is answered [null], other
    keys being read as before; a delete the bucket refuses changes
    nothing. *)
Theorem uploaded_files_are_read_back_until_deleted :
  forall (env : Env) (bucket : Bucket),
    (forall (file : Upload) (fileName : string) (folder : option string)
            (w : World),
       (exists (key : string) (w' : World),
          uploadFile env bucket file fileName folder w =
            (Returned (getPublicUrl key), w')
          /\ getFile bucket key w' =
               (Returned
                  (if r2_get_succeeds bucket key
                   then Some match file with
                             | File (Content data) _ => data
                             | File _ _ => ""
                             | ArrayBuffer data => data
                             end
                   else None), w'))
       \/ (exists w' : World,
             uploadFile env bucket file fileName folder w =
               (Thrown (BookstoreError "Failed to upload file" 500), w')
             /\ ASSETS w' = ASSETS w))
    /\ (forall (key : string) (w : World),
          exists data : option string,
            getFile bucket key w = (Returned data, w)
            /\ (ASSETS w !! key = None -> data = None)
            /\ (r2_get_succeeds bucket key = false -> data = None))
    /\ (forall (key : string) (w : World),
          exists w' : World,
            deleteFile bucket key w = (Returned tt, w')
            /\ (r2_delete_succeeds bucket key = true ->
                getFile bucket key w' = (Returned None, w')
                /\ forall other : string,
                     other <> key ->
                     fst (getFile bucket other w') = fst (getFile bucket other w))
            /\ (r2_delete_succeeds bucket key = false -> w' = w)).
Proof.
  intros env bucket. split; [|split].
  - intros file fileName folder w.
    destruct (uploadFile env bucket file fileName folder w) as [[url|e] w'] eqn:E.
    + left. apply uploadFile_inversion in E
        as (key & object & _ & -> & _ & Hassets & Hdata & _).
      exists key, w'. split; [reflexivity|].
      rewrite getFile_run, Hassets, lookup_insert_eq. cbn. now rewrite Hdata.
    + right. apply uploadFile_failure in E as (-> & Hassets & _).
      exists w'. now split.
  - intros key w. eexists. split; [apply getFile_run|]. split.
    + intros ->. now destruct (r2_get_succeeds bucket key).
    + now intros ->.
  - intros key w. eexists. split; [apply deleteFile_run|]. split.
    + intros Hdel. rewrite Hdel. split.
      * rewrite getFile_run. cbn [ASSETS]. rewrite lookup_delete_eq.
        now destruct (r2_get_succeeds bucket key).
      * intros other Hne. rewrite !getFile_run. cbn [ASSETS fst].
        rewrite lookup_delete_ne by congruence. reflexivity.
    + now intros ->.
Qed.

(* ================================================================== *)
(** ** Orders *)
(* ================================================================== *)

Lemma lift_generateUUID (env : Env) (l : Ledger) :
  lift (generateUUID env) l =
    (Returned (randomUUID env (draws (world l))),
     {| world := snd (generateUUID env (world l)); orders := orders l |}).
Proof. reflexivity. Qed.

Lemma lift_getCurrentTimestamp (env : Env) (l : Ledger) :
  lift (getCurrentTimestamp env) l =
    (Returned (clock env (ticks (world l))),
     {| world := tick (world l); orders := orders l |}).
Proof. reflexivity. Qed.

(** The row [createOrder] inserts. *)
Lemma order_row_columns (id book_id : string) (email : option string)
    (price profit : SqlValue) (charity stripe status batch donation now : string) :
  let row : OrderRow :=
    list_to_map
      (zip ["id"; "book_id"; "customer_email"; "book_price"; "profit_amount";
            "charity_name"; "stripe_payment_id"; "payment_status";
            "month_batch"; "donation_status"; "created_at"]
           [SqlText id; SqlText book_id; text_or_null email; price;
            profit; SqlText charity; SqlText stripe; SqlText status;
            SqlText batch; SqlText donation; SqlText now]) in
  column row "id" = SqlText id
  /\ column row "book_id" = SqlText book_id
  /\ column row "customer_email" = text_or_null email
  /\ column row "book_price" = price
  /\ column row "profit_amount" = profit
  /\ column row "charity_name" = SqlText charity
  /\ column row "stripe_payment_id" = SqlText stripe
  /\ column row "payment_status" = SqlText status
  /\ column row "month_batch" = SqlText batch
  /\ column row "donation_status" = SqlText donation
  /\ column row "created_at" = SqlText now
  /\ column row "base_tx_hash" = SqlNull
  /\ column row "blockchain_status" = SqlNull
  /\ column row "paid_at" = SqlNull.
Proof.
  cbv zeta. unfold column. cbn [zip zip_with list_to_map foldr uncurry fst snd].
  repeat split;
    repeat (first [ rewrite lookup_insert_eq; reflexivity
                  | rewrite lookup_insert_ne by discriminate
                  | rewrite lookup_empty; reflexivity ]).
Qed.

Lemma new_order_constraints (books : list BookRow) (id now : string)
    (orderData : OrderData) :
  violated_constraint books (order_row (new_order id now orderData)) =
    if negb (is_finite (od_book_price orderData))
    then Some "NOT NULL constraint failed: orders.book_price"
    else if negb (is_finite (od_profit_amount orderData))
    then Some "NOT NULL constraint failed: orders.profit_amount"
    else if existsb (fun b => String.eqb (r_id b) (od_book_id orderData)) books
    then None else Some "FOREIGN KEY constraint failed".
Proof.
  unfold violated_constraint, order_row.
  destruct (order_row_columns id (od_book_id orderData)
              (od_customer_email orderData)
              (bound_number (od_book_price orderData))
              (bound_number (od_profit_amount orderData))
              (od_charity_name orderData)
              (od_stripe_payment_id orderData) "pending"
              (String.substring 0 7 now) "pending" now)
    as (_ & Hbook & _ & Hprice & Hprofit & Hcharity & Hstripe & Hstatus
        & Hbatch & Hdonation & Hcreated & _ & Hchain & _).
  cbn [new_order order_id order_data payment_status month_batch donation_status
       order_created_at].
  unfold bound_number, json_number in *.
  destruct (is_finite (od_book_price orderData));
    destruct (is_finite (od_profit_amount orderData));
    repeat (progress
              (cbn [List.find orders_not_null orders_checks check_holds fst snd
                    is_null negb existsb];
               rewrite ?Hbook, ?Hprice, ?Hprofit, ?Hcharity, ?Hstripe, ?Hstatus,
                 ?Hbatch, ?Hdonation, ?Hcreated, ?Hchain));
    reflexivity.
Qed.

Lemma createOrder_run (env : Env) (orderData : OrderData) (l : Ledger) :
  let id := randomUUID env (draws (world l)) in
  let now := clock env (ticks (world l)) in
  let w' := tick (snd (generateUUID env (world l))) in
  createOrder env orderData l =
    if existsb (has_order_id id) (orders l) then
      (Thrown (OtherError "D1_ERROR: UNIQUE constraint failed: orders.id"),
       {| world := w'; orders := orders l |})
    else
      match violated_constraint (books (DB (world l)))
              (order_row (new_order id now orderData)) with
      | Some message =>
          (Thrown (OtherError ("D1_ERROR: " ++ message)),
           {| world := w'; orders := orders l |})
      | None =>
          (Returned (new_order id now orderData),
           {| world := w';
              orders := (orders l ++ [order_row (new_order id now orderData)])%list |})
      end.
Proof.
  cbv zeta. unfold createOrder, and_then at 1. rewrite lift_generateUUID.
  unfold and_then at 1. rewrite lift_getCurrentTimestamp.
  cbn [world orders generateUUID snd ticks draws DB].
  fold (new_order (randomUUID env (draws (world l)))
          (clock env (ticks (world l))) orderData).
  unfold and_then, sql_insert_order.
  change (unknown_column _) with (@None string). cbv iota.
  fold (order_row (new_order (randomUUID env (draws (world l)))
                     (clock env (ticks (world l))) orderData)).
  cbn [world orders tick DB].
  assert (Hid : column (order_row (new_order (randomUUID env (draws (world l)))
                                     (clock env (ticks (world l))) orderData))
                  "id" = SqlText (randomUUID env (draws (world l)))).
  { apply order_row_columns. }
  rewrite Hid.
  assert (Hpk : forall rows,
            existsb (fun o => match column o "id" with
                              | SqlText a =>
                                  String.eqb a (randomUUID env (draws (world l)))
                              | _ => false
                              end) rows =
            existsb (has_order_id (randomUUID env (draws (world l)))) rows).
  { reflexivity. }
  match goal with |- context [existsb ?f (orders l)] =>
    change (existsb f (orders l))
      with (existsb (has_order_id (randomUUID env (draws (world l)))) (orders l))
  end.
  destruct (existsb (has_order_id _) (orders l)); [reflexivity|].
  now destruct (violated_constraint _ _).
Qed.

Lemma new_order_columns (id now : string) (orderData : OrderData) :
  let row := order_row (new_order id now orderData) in
  column row "id" = SqlText id
  /\ column row "book_id" = SqlText (od_book_id orderData)
  /\ column row "customer_email" = text_or_null (od_customer_email orderData)
  /\ column row "book_price" = bound_number (od_book_price orderData)
  /\ column row "profit_amount" = bound_number (od_profit_amount orderData)
  /\ column row "charity_name" = SqlText (od_charity_name orderData)
  /\ column row "stripe_payment_id" = SqlText (od_stripe_payment_id orderData)
  /\ column row "payment_status" = SqlText "pending"
  /\ column row "month_batch" = SqlText (String.substring 0 7 now)
  /\ column row "donation_status" = SqlText "pending"
  /\ column row "created_at" = SqlText now
  /\ column row "base_tx_hash" = SqlNull
  /\ column row "blockchain_status" = SqlNull
  /\ column row "paid_at" = SqlNull.
Proof.
  exact (order_row_columns id (od_book_id orderData)
           (od_customer_email orderData) (bound_number (od_book_price orderData))
           (bound_number (od_profit_amount orderData)) (od_charity_name orderData)
           (od_stripe_payment_id orderData) "pending"
           (String.substring 0 7 now) "pending" now).
Qed.

Lemma find_order_fresh (id : string) (rows : list OrderRow) (row : OrderRow) :
  existsb (has_order_id id) rows = false -> has_order_id id row = true ->
  List.find (has_order_id id) (rows ++ [row]) = Some row.
Proof.
  intros Hrows Hrow. induction rows as [|x rows IH]; cbn [app List.find].
  - now rewrite Hrow.
  - cbn [existsb] in Hrows. apply orb_false_iff in Hrows as [Hx Hrows].
    rewrite Hx. now apply IH.
Qed.

(** X18 (createOrder, getOrder): an order is created for a stored book
    and finite amounts only, and is then read back. With an id that no
    order has yet: for a book in the store and a price and a profit that
    are finite numbers [createOrder] returns the order, pending in
    payment and donation, created at the time of the call and batched
    under the first seven characters of that time (YYYY-MM), and
    [getOrder] of its id returns the row with these values (an amount of
    [-0] as [0]), an empty e-mail address stored as NULL, and
    [base_tx_hash], [blockchain_status] and [paid_at] NULL; for a book
    that is not in the store (foreign key) or an amount that is not
    finite (it arrives as NULL in a NOT NULL column) it throws, and no
    order is recorded. The books are never touched. *)
Theorem createOrder_records_orders_for_stored_books :
  forall (env : Env) (orderData : OrderData) (l : Ledger),
    let id := randomUUID env (draws (world l)) in
    let now := clock env (ticks (world l)) in
    fst (getOrder id l) = Returned None ->
    (fst (getBook (od_book_id orderData) (world l)) <> Returned None ->
     is_finite (od_book_price orderData) = true ->
     is_finite (od_profit_amount orderData) = true ->
     exists (order : Order) (l' : Ledger) (row : OrderRow),
       createOrder env orderData l = (Returned order, l')
       /\ order_id order = id /\ order_data order = orderData
       /\ payment_status order = "pending" /\ donation_status order = "pending"
       /\ order_created_at order = now
       /\ month_batch order = String.substring 0 7 now
       /\ getOrder id l' = (Returned (Some row), l')
       /\ column row "id" = SqlText id
       /\ column row "book_id" = SqlText (od_book_id orderData)
       /\ column row "customer_email" =
            text_or_null (od_customer_email orderData)
       /\ column row "book_price" =
            SqlNumber (unsigned_zero (od_book_price orderData))
       /\ column row "profit_amount" =
            SqlNumber (unsigned_zero (od_profit_amount orderData))
       /\ column row "charity_name" = SqlText (od_charity_name orderData)
       /\ column row "stripe_payment_id" =
            SqlText (od_stripe_payment_id orderData)
       /\ column row "payment_status" = SqlText "pending"
       /\ column row "month_batch" = SqlText (String.substring 0 7 now)
       /\ column row "donation_status" = SqlText "pending"
       /\ column row "created_at" = SqlText now
       /\ column row "base_tx_hash" = SqlNull
       /\ column row "blockchain_status" = SqlNull
       /\ column row "paid_at" = SqlNull
       /\ List.length (orders l') = S (List.length (orders l))
       /\ DB (world l') = DB (world l))
    /\ (fst (getBook (od_book_id orderData) (world l)) = Returned None
        \/ is_finite (od_book_price orderData) = false
        \/ is_finite (od_profit_amount orderData) = false ->
        exists (e : Exn) (l' : Ledger),
          createOrder env orderData l = (Thrown e, l')
          /\ orders l' = orders l /\ DB (world l') = DB (world l)).
Proof.
  intros env orderData l id now Hfree.
  assert (Hpk : existsb (has_order_id id) (orders l) = false).
  { unfold getOrder, sql_select_order in Hfree. cbn [fst] in Hfree.
    fold (has_order_id id) in Hfree.
    destruct (List.find (has_order_id id) (orders l)) eqn:E; [discriminate|].
    apply not_true_is_false. intros H. apply List.existsb_exists in H as (o & Ho & Hid).
    apply (List.find_none _ _ E) in Ho. congruence. }
  pose proof (createOrder_run env orderData l) as Hrun. cbv zeta in Hrun.
  fold id in Hrun. fold now in Hrun.
  rewrite Hpk, new_order_constraints in Hrun.
  split.
  - intros Hbook Hprice Hprofit.
    assert (Hfk : existsb (fun b => String.eqb (r_id b) (od_book_id orderData))
                    (books (DB (world l))) = true).
    { apply not_false_is_true. intros H. apply Hbook, getBook_None.
      now apply find_none_existsb. }
    rewrite Hfk, Hprice, Hprofit in Hrun. cbn [negb] in Hrun.
    exists (new_order id now orderData). eexists.
    exists (order_row (new_order id now orderData)).
    split; [exact Hrun|].
    pose proof (new_order_columns id now orderData) as Hcols.
    cbv zeta in Hcols. destruct Hcols as (Hid & Hcols).
    do 6 (split; [reflexivity|]).
    split.
    { unfold getOrder, sql_select_order. cbn [orders].
      fold (has_order_id id). rewrite find_order_fresh; trivial.
      unfold has_order_id. rewrite Hid. apply String.eqb_refl. }
    split; [exact Hid|].
    unfold bound_number, json_number in Hcols. rewrite Hprice, Hprofit in Hcols.
    repeat (destruct Hcols as (H & Hcols); split; [exact H|clear H]).
    split; [exact Hcols|].
    split; [cbn [orders]; rewrite List.length_app; cbn; lia|reflexivity].
  - intros Hbad.
    destruct (negb (is_finite (od_book_price orderData))) eqn:Eprice;
      [eexists _, _; split; [exact Hrun|]; now split|].
    destruct (negb (is_finite (od_profit_amount orderData))) eqn:Eprofit;
      [eexists _, _; split; [exact Hrun|]; now split|].
    apply negb_false_iff in Eprice, Eprofit.
    destruct Hbad as [Hbook | [Hbad | Hbad]]; [|congruence|congruence].
    assert (Hfk : existsb (fun b => String.eqb (r_id b) (od_book_id orderData))
                    (books (DB (world l))) = false).
    { apply find_none_existsb. now apply getBook_None. }
    rewrite Hfk in Hrun. eexists _, _. split; [exact Hrun|]. now split.
Qed.

Lemma createOrder_witness :
  exists (order : Order) (l' : Ledger) (row : OrderRow),
    createOrder Shop.env Depot.order_data Depot.ledger = (Returned order, l')
    /\ month_batch order = "2025-10"
    /\ getOrder (order_id order) l' = (Returned (Some row), l')
    /\ column row "customer_email" = SqlNull.
Proof.
  destruct (createOrder_records_orders_for_stored_books Shop.env Depot.order_data
              Depot.ledger eq_refl) as [H _].
  destruct H as (order & l' & row & Hrun & Hid & _ & _ & _ & _ & Hbatch & Hget
                 & _ & _ & Hmail & _); [discriminate|reflexivity|reflexivity|].
  exists order, l', row. split; [exact Hrun|]. split; [exact Hbatch|].
  split; [now rewrite Hid|exact Hmail].
Defined.

(** X19 (updateOrderPaymentStatus against the [orders] table of
    schema.sql): the payment status of an order cannot be updated. The
    statement sets [updated_at], a column [orders] does not have, so
    whatever the order, the status and the transaction hash, the call
    throws and every order reads as before: an order that was created
    pending stays pending. *)
Theorem updateOrderPaymentStatus_always_throws :
  forall (env : Env) (orderId : string) (succeeded : bool)
         (txHash : option string) (l : Ledger),
    ~ In "updated_at" orders_columns
    /\ exists (e : Exn) (l' : Ledger),
         updateOrderPaymentStatus env orderId succeeded txHash l = (Thrown e, l')
         /\ orders l' = orders l
         /\ DB (world l') = DB (world l)
         /\ forall id : string, fst (getOrder id l') = fst (getOrder id l).
Proof.
  intros env orderId succeeded txHash l. split.
  - unfold orders_columns. cbn [In]. intros H.
    repeat (destruct H as [H|H]; [discriminate H|]). exact H.
  - unfold updateOrderPaymentStatus, and_then.
    rewrite lift_getCurrentTimestamp. unfold sql_update_order.
    change (unknown_column _) with (Some "updated_at").
    eexists _, _. split; [reflexivity|]. repeat split.
Qed.

(* ================================================================== *)
(** ** Search over a well-formed store *)
(* ================================================================== *)

Lemma insert_by_perm {A : Type} (key : A -> Q) (x : A) (l : list A) :
  Permutation (insert_by key x l) (x :: l).
Proof.
  induction l as [|y l IH]; simpl; [reflexivity|].
  destruct (Qle_bool (key x) (key y)); [reflexivity|].
  rewrite IH. apply perm_swap.
Qed.

Lemma order_by_perm {A : Type} (key : A -> Q) (l : list A) :
  Permutation (order_by key l) l.
Proof.
  induction l as [|x l IH]; simpl; [reflexivity|].
  rewrite insert_by_perm. now constructor.
Qed.

Lemma NoDup_map_take {X Y : Type} (g : X -> Y) (n : nat) (l : list X) :
  List.NoDup (List.map g l) -> List.NoDup (List.map g (take n l)).
Proof.
  revert n. induction l as [|x l IH]; intros [|n] H; simpl; try constructor.
  - inversion_clear H as [|? ? Hx Hl]. intros Hin. apply Hx.
    apply List.in_map_iff in Hin as (y & E & Hy). rewrite <- E.
    apply List.in_map. now apply In_take in Hy.
  - inversion_clear H. now apply IH.
Qed.

Lemma id_unique (rows : list BookRow) (a b : BookRow) :
  List.NoDup (List.map r_id rows) -> In a rows -> In b rows ->
  r_id a = r_id b -> a = b.
Proof.
  induction rows as [|x rows IH]; simpl; [tauto|].
  intros Hnd [->|Ha] [->|Hb] E; trivial; inversion_clear Hnd as [|? ? Hx Hrest].
  - exfalso. apply Hx. rewrite E. now apply in_map.
  - exfalso. apply Hx. rewrite <- E. now apply in_map.
  - now apply IH.
Qed.

(** In a well-formed store the join of the index with the table pairs
    each book with one index row at most. *)
Lemma join_ids_NoDup (db : D1Database) :
  store_ok db ->
  List.NoDup (List.map (fun fb => r_id (snd fb)) (fts_join_books db)).
Proof.
  intros (Hids & _ & [Hrowids _] & _ & Hfts). unfold fts_join_books.
  induction (books_fts db) as [|f fts IH]; [constructor|].
  cbn [flat_map]. rewrite List.map_app.
  inversion_clear Hfts as [|? ? Hf Hrest]. apply List.NoDup_app.
  - rewrite List.map_map. cbn [snd]. now apply NoDup_map_filter.
  - now apply IH.
  - intros i H1 H2.
    apply List.in_map_iff in H1 as ([f1 b1] & <- & H1).
    apply List.in_map_iff in H1 as (b & [= <- <-] & Hb).
    apply List.filter_In in Hb as [Hb Eb]. apply Z.eqb_eq in Eb.
    apply List.in_map_iff in H2 as ([f2 b2] & E & H2).
    apply List.in_flat_map in H2 as (g & Hg & H2).
    apply List.in_map_iff in H2 as (b' & [= <- <-] & Hb').
    apply List.filter_In in Hb' as [Hb' Eb']. apply Z.eqb_eq in Eb'.
    cbn [snd] in E. assert (b' = b) as -> by now apply (id_unique (books db)).
    apply Hf. rewrite <- Eb, Eb'. now apply List.in_map.
Qed.

(** X20 (searchBooksByKeyword over the triggers of schema.sql): in a
    well-formed store the keyword search, for a text the full-text engine
    takes as a query and a limit among the 64-bit integers, finds every
    book it should, and each one once. No
    book is returned twice; every hit is a stored book on sale whose own
    index row matches the query; and without a limit every stored row
    that is live, in stock and whose index row matches is among the
    hits. *)
Theorem search_finds_each_matching_book_once :
  forall (env : Env) (q : string) (limit : Z) (w : World),
    store_ok (DB w) ->
    fts5_accepts env q = true ->
    - 2 ^ 63 < limit < 2 ^ 63 ->
    exists hits : list Book,
      searchBooksByKeyword env q limit w = (Returned hits, w)
      /\ List.NoDup (List.map id hits)
      /\ (forall b : Book, In b hits ->
            on_sale b
            /\ exists r : BookRow,
                 In r (books (DB w)) /\ b = deserializeBook r
                 /\ fts5_match env q (fts_of_row r) = true)
      /\ (limit < 0 ->
          forall r : BookRow,
            In r (books (DB w)) -> r_status r = live -> r_in_stock r = 1 ->
            fts5_match env q (fts_of_row r) = true ->
            In (deserializeBook r) hits).
Proof.
  intros env q limit w Hok Hquery _. eexists.
  split; [unfold searchBooksByKeyword; rewrite Hquery; reflexivity|].
  pose proof (join_ids_NoDup _ Hok) as Hnd.
  destruct Hok as (_ & _ & [Hrowids Hsound] & Hcomplete & _).
  split; [|split].
  - rewrite List.map_map. cbn [deserializeBook id].
    unfold search_rows, sql_limit.
    assert (H : List.NoDup
                  (List.map (fun fb : FtsRow * BookRow => r_id (snd fb))
                     (order_by (fun fb => fts5_bm25 env q (books_fts (DB w)) (fst fb))
                        (List.filter (search_where env q) (fts_join_books (DB w)))))).
    { eapply Permutation_NoDup.
      - apply Permutation_map. symmetry. apply order_by_perm.
      - now apply NoDup_map_filter. }
    destruct (limit <? 0); [exact H|]. now apply NoDup_map_take.
  - intros b Hb. apply List.in_map_iff in Hb as (fb & <- & Hfb).
    apply search_rows_In in Hfb as [Hjoin Hwhere].
    apply fts_join_books_In in Hjoin as (Hf & Hr & Erow).
    apply search_where_spec in Hwhere as (Hmatch & Hlive & Hstock).
    split.
    { split; [exact Hlive|]. cbn [deserializeBook in_stock]. now rewrite Hstock. }
    exists (snd fb). split; [exact Hr|]. split; [reflexivity|].
    destruct (Hsound _ Hf) as (r' & Hr' & E).
    assert (r' = snd fb) as <-.
    { apply (rowid_unique (books (DB w))); trivial.
      rewrite Erow, E. reflexivity. }
    now rewrite <- E.
  - intros Hl r Hr Hlive Hstock Hmatch.
    apply (List.in_map (fun fb => deserializeBook (snd fb)) _ (fts_of_row r, r)).
    apply search_rows_complete; [exact Hl| |].
    + apply fts_join_books_In. cbn [fst snd]. split; [now apply Hcomplete|].
      now split.
    + apply search_where_spec. cbn [fst snd]. now repeat split.
Qed.

Lemma search_witness :
  store_ok (DB Depot.world_live)
  /\ fts5_accepts Shop.env "Moonstone" = true
  /\ - 2 ^ 63 < 20 < 2 ^ 63
  /\ (exists hits : list Book,
        searchBooksByKeyword Shop.env "Moonstone" 20 Depot.world_live =
          (Returned hits, Depot.world_live)
        /\ List.map id hits = ["book-0"])
  /\ searchBooksByKeyword Shop.env "moon" 20 Depot.world_live =
       (Returned [], Depot.world_live).
Proof.
  assert (Hok : store_ok (DB Depot.world_live)).
  { apply approveBook_keeps_store, ingestBook_keeps_store, store_ok_empty. }
  split; [exact Hok|]. split; [reflexivity|]. split; [lia|]. split.
  - destruct (search_finds_each_matching_book_once Shop.env "Moonstone" 20
                Depot.world_live Hok eq_refl ltac:(lia)) as (hits & Hrun & _).
    exists hits. split; [exact Hrun|].
    vm_compute in Hrun. injection Hrun as <-. reflexivity.
  - vm_compute. reflexivity.
Defined.

(* ================================================================== *)
(** ** The admin listing and its query parameters *)
(* ================================================================== *)





(* ================================================================== *)
(** ** More of utils/helpers.ts *)
(* ================================================================== *)

Lemma filter_chars_app (keep : ascii -> bool) (a b : string) :
  filter_chars keep (a ++ b) = filter_chars keep a ++ filter_chars keep b.
Proof.
  induction a as [|c a IH]; [reflexivity|].
  rewrite append_cons. cbn [filter_chars].
  destruct (keep c); [now rewrite append_cons, IH|exact IH].
Qed.

Lemma upper_isbn_char (c : ascii) :
  isbn_char c = true ->
  isbn_char (upper_char c) = true
  /\ upper_char (upper_char c) = upper_char c
  /\ (is_digit (upper_char c) = true \/ upper_char c = "X"%char).
Proof.
  intros H. apply isbn_char_spec in H. unfold IsbnChar in H. cbn [In] in H.
  repeat (destruct H as [<-|H]; [repeat split; auto|]). destruct H.
Qed.

Lemma normalizeISBN_chars (s : string) :
  filter_chars isbn_char (normalizeISBN s) = normalizeISBN s
  /\ toUpperCase (normalizeISBN s) = normalizeISBN s
  /\ filter_chars (fun c => is_digit c || Ascii.eqb c "X") (normalizeISBN s)
     = normalizeISBN s.
Proof.
  unfold normalizeISBN, toUpperCase.
  induction s as [|c s (IH1 & IH2 & IH3)]; [now repeat split|].
  cbn [filter_chars]. destruct (isbn_char c) eqn:E; [|now repeat split].
  destruct (upper_isbn_char c E) as (H1 & H2 & H3).
  cbn [map_chars filter_chars]. rewrite H1, H2, IH1, IH2.
  repeat split.
  destruct H3 as [H3|H3]; rewrite H3; cbn [orb]; [now rewrite IH3|].
  rewrite orb_true_r. now rewrite IH3.
Qed.

(** X22 (normalizeISBN, isValidISBN): normalising an ISBN strips what is
    not part of it and nothing more. The result is made of digits and the
    capital X only and is never longer than the input; normalising it
    again changes nothing, and it is valid exactly when the input is;
    characters that are neither digits nor an X, such as hyphens and
    spaces, can be inserted anywhere without changing the result, and
    letter case does not matter. *)
Theorem normalizeISBN_strips_separators_and_case :
  forall isbn : string,
    normalizeISBN (normalizeISBN isbn) = normalizeISBN isbn
    /\ isValidISBN (normalizeISBN isbn) = isValidISBN isbn
    /\ filter_chars (fun c => is_digit c || Ascii.eqb c "X") (normalizeISBN isbn)
       = normalizeISBN isbn
    /\ (String.length (normalizeISBN isbn) <= String.length isbn)%nat
    /\ normalizeISBN (toLowerCase isbn) = normalizeISBN isbn
    /\ normalizeISBN (toUpperCase isbn) = normalizeISBN isbn
    /\ (forall before separators after : string,
          isbn = before ++ after ->
          filter_chars isbn_char separators = "" ->
          normalizeISBN (before ++ separators ++ after) = normalizeISBN isbn).
Proof.
  intros isbn. destruct (normalizeISBN_chars isbn) as (H1 & H2 & H3).
  assert (Hidem : normalizeISBN (normalizeISBN isbn) = normalizeISBN isbn).
  { unfold normalizeISBN at 1. now rewrite H1, H2. }
  split; [exact Hidem|]. split; [unfold isValidISBN; now rewrite Hidem|].
  split; [exact H3|]. split.
  { unfold normalizeISBN, toUpperCase. rewrite length_map_chars. clear.
    induction isbn as [|c s IH]; simpl; [lia|].
    destruct (isbn_char c); simpl; lia. }
  assert (Hcase : forall f : ascii -> ascii,
            (forall c, isbn_char (f c) = isbn_char c) ->
            (forall c, upper_char (f c) = upper_char c) ->
            normalizeISBN (map_chars f isbn) = normalizeISBN isbn).
  { intros f Hf Hu. unfold normalizeISBN, toUpperCase. clear -Hf Hu.
    induction isbn as [|c s IH]; [reflexivity|].
    cbn [map_chars filter_chars]. rewrite Hf.
    destruct (isbn_char c) eqn:E; [|exact IH].
    cbn [map_chars]. now rewrite Hu, IH. }
  assert (Hall : forall (P : ascii -> Prop),
            (forall b0 b1 b2 b3 b4 b5 b6 b7, P (Ascii b0 b1 b2 b3 b4 b5 b6 b7)) ->
            forall c, P c).
  { intros P HP [b0 b1 b2 b3 b4 b5 b6 b7]. apply HP. }
  split; [|split].
  - apply Hcase.
    + apply Hall. intros [] [] [] [] [] [] [] []; reflexivity.
    + apply Hall. intros [] [] [] [] [] [] [] []; reflexivity.
  - apply Hcase.
    + apply Hall. intros [] [] [] [] [] [] [] []; reflexivity.
    + apply Hall. intros [] [] [] [] [] [] [] []; reflexivity.
  - intros before separators after -> Hsep. unfold normalizeISBN.
    now rewrite !filter_chars_app, Hsep, append_nil_l.
Qed.

Lemma normalizeISBN_witness :
  normalizeISBN ("978" ++ "-" ++ "037575785x") = normalizeISBN "978037575785x"
  /\ normalizeISBN "978037575785x" = "978037575785X".
Proof.
  split; [|reflexivity].
  destruct (normalizeISBN_strips_separators_and_case "978037575785x")
    as (_ & _ & _ & _ & _ & _ & H).
  exact (H "978" "-" "037575785x" eq_refl eq_refl).
Defined.

(* ================================================================== *)
(** ** The rest of the merge: the metadata bag *)
(* ================================================================== *)

(** X23 (mergeMetadata, extractISBN13): the metadata bag of a merge. The
    language is always "en"; no ISBN and no Goodreads URL is ever
    recorded, whatever the providers returned; the ratings are those of
    Google Books alone. The categories are those of Google Books whenever
    it has the member, be it the empty list, and uncapped; only otherwise
    the subjects of Open Library, of which the first five are kept.
    Publisher and publication date follow the rule of the other fields
    (Google Books first, then the first publisher and the date of Open
    Library); the page count is that of Google Books unless it is absent,
    0 or NaN. *)
Theorem mergeMetadata_fills_the_metadata_bag :
  forall (ol : option OpenLibraryData) (gb : option GoogleBooksData),
    let bag := m_metadata (merge_of ol gb) in
    language bag = Some "en"
    /\ isbn_10 bag = None /\ isbn_13 bag = None /\ goodreads_url bag = None
    /\ average_rating bag = gb ?. gb_averageRating
    /\ ratings_count bag = gb ?. gb_ratingsCount
    /\ (forall cats : list string,
          gb ?. gb_categories = Some cats -> categories bag = Some cats)
    /\ (gb ?. gb_categories = None ->
        forall subjects : list string,
          ol ?. ol_subjects = Some subjects ->
          categories bag = Some (take 5 subjects)
          /\ forall kept : list string,
               categories bag = Some kept -> (List.length kept <= 5)%nat)
    /\ (gb ?. gb_categories = None -> ol ?. ol_subjects = None ->
        categories bag = None)
    /\ (present (gb ?. gb_publisher) -> publisher bag = gb ?. gb_publisher)
    /\ (~ present (gb ?. gb_publisher) ->
        publisher bag = ol ?. ol_publishers ?. head)
    /\ (present (gb ?. gb_publishedDate) ->
        publish_date bag = gb ?. gb_publishedDate)
    /\ (~ present (gb ?. gb_publishedDate) ->
        publish_date bag = ol ?. ol_publish_date)
    /\ (forall pages : number,
          gb ?. gb_pageCount = Some pages -> JsNumber.truthy pages = true ->
          page_count bag = Some pages)
    /\ (MetadataService.truthy_number (gb ?. gb_pageCount) = false ->
        page_count bag = ol ?. ol_number_of_pages).
Proof.
  intros ol gb bag. subst bag. unfold merge_of, MetadataService.mergeMetadata.
  cbn [m_metadata language isbn_10 isbn_13 goodreads_url average_rating
       ratings_count categories publisher publish_date page_count
       open_library google_books].
  split; [reflexivity|]. split; [reflexivity|].
  split; [unfold MetadataService.extractISBN13; now destruct gb|].
  split; [reflexivity|]. split; [reflexivity|]. split; [reflexivity|].
  split; [intros cats ->; reflexivity|].
  split.
  { intros -> subjects ->. cbn. split; [reflexivity|].
    intros kept [= <-]. change (@List.length string) with (@length string).
    rewrite length_take. lia. }
  split; [intros -> ->; reflexivity|].
  split; [apply js_or_present|]. split; [apply js_or_absent|].
  split; [apply js_or_present|]. split; [apply js_or_absent|].
  split.
  - intros pages -> H. unfold js_or, MetadataService.truthy_number. now rewrite H.
  - intros H. unfold js_or. now rewrite H.
Qed.

Lemma mergeMetadata_bag_witness :
  isbn_13 (m_metadata (merge_of (Some Shop.moonstone_ol) (Some Shop.moonstone)))
    = None
  /\ publisher (m_metadata (merge_of (Some Shop.moonstone_ol) (Some Shop.moonstone)))
     = Some "Tinsley Brothers".
Proof.
  destruct (mergeMetadata_fills_the_metadata_bag (Some Shop.moonstone_ol)
              (Some Shop.moonstone))
    as (_ & _ & H13 & _ & _ & _ & _ & _ & _ & _ & Hpub & _).
  split; [exact H13|]. apply Hpub. intros (s & E & Hs). discriminate E.
Defined.

(* ================================================================== *)
(** ** Pounds and pence *)
(* ================================================================== *)

Lemma number_eqb_eq (x y : number) : number_eqb x y = true -> x = y.
Proof.
  destruct x as [a | a | | a m e], y as [b | b | | b m' e']; cbn; try discriminate;
    try reflexivity.
  - intros H. apply Bool.eqb_prop in H. now subst.
  - intros H. apply Bool.eqb_prop in H. now subst.
  - intros H. apply andb_true_iff in H as [H He].
    apply andb_true_iff in H as [Hs Hm].
    apply Bool.eqb_prop in Hs. apply Pos.eqb_eq in Hm. apply Z.eqb_eq in He.
    now subst.
Qed.

Lemma price_kept_checked :
  forallb price_kept (Z_range 1 (Z.to_nat 10000)) = true.
Proof. vm_compute. reflexivity. Qed.

(** X24 (poundsToPence, penceToPounds, approveBook): pence survive the
    trip through pounds. For every whole number of pence up to 10000
    (100 pounds), converting to pounds and back gives the same number:
    [Math.round(p / 100 * 100)] is [p]. So a price shown in pounds, as
    the suggested price of an ingestion is, and sent back as the
    [final_price] of an approval is stored as the pence it came from. *)
Theorem pence_survive_the_trip_through_pounds :
  forall p : Z,
    0 <= p <= 10000 ->
    poundsToPence (penceToPounds (of_Z p)) = of_Z p
    /\ (1 <= p ->
        p_sell_price (approval_payload (price_override (penceToPounds (of_Z p))))
        = Some (of_Z p)).
Proof.
  intros p Hp. destruct (Z.eq_dec p 0) as [ -> | Hne ].
  - split; [reflexivity|lia].
  - assert (H : price_kept p = true).
    { pose proof price_kept_checked as Hall.
      rewrite forallb_forall in Hall. apply Hall, Z_range_In.
      rewrite Z2Nat.id by lia. lia. }
    apply andb_true_iff in H as [Htruthy H]. apply number_eqb_eq in H.
    split; [exact H|]. intros _.
    cbn [approval_payload price_override optional_chain final_price p_sell_price].
    now rewrite Htruthy, H.
Qed.

Lemma pence_round_trip_witness :
  poundsToPence (penceToPounds (of_Z 1499)) = of_Z 1499
  /\ p_sell_price (approval_payload (price_override (penceToPounds (of_Z 1499))))
     = Some (of_Z 1499).
Proof.
  destruct (pence_survive_the_trip_through_pounds 1499) as [H1 H2]; [lia|].
  split; [exact H1|]. apply H2. lia.
Defined.

(* ================================================================== *)
(** ** The keyword heuristics of the enrichment *)
(* ================================================================== *)

Import EnrichmentService.

(** The heuristics on a description that is not empty, with the
    lower-cased description made explicit. *)
Lemma heuristics_of (d : string) :
  d <> "" ->
  extractThemes (Some d) =
    List.filter (fun theme => includes (toLowerCase d) theme) commonThemes
  /\ calculateShockFactor (Some d) =
       Z.min (Z.max (5 + Z.of_nat (List.length
                                     (List.filter (fun kw => includes (toLowerCase d) kw)
                                        shockKeywords))) 1) 10
  /\ inferAtmosphere (Some d) = matching_buckets atmosphereKeywords (toLowerCase d)
  /\ inferEmotionalTone (Some d) =
       match matching_buckets toneKeywords (toLowerCase d) with
       | [] => ["neutral"]
       | tones => tones
       end
  /\ inferPace (Some d) =
       if includes (toLowerCase d) "slow" || includes (toLowerCase d) "meditative"
       then "slow_burn"
       else if includes (toLowerCase d) "fast" || includes (toLowerCase d) "thriller"
               || includes (toLowerCase d) "action"
       then "fast_paced"
       else "moderate".
Proof. destruct d; [congruence|]. intros _. now repeat split. Qed.

Lemma includes_extended (before d after kw : string) :
  includes (toLowerCase d) kw = true ->
  includes (toLowerCase (before ++ d ++ after)) kw = true.
Proof.
  rewrite !includes_spec. intros (pre & post & E).
  exists (toLowerCase before ++ pre), (post ++ toLowerCase after).
  unfold toLowerCase in *. rewrite !map_chars_app, E.
  now rewrite !append_assoc.
Qed.

Lemma filter_length_le {A : Type} (p q : A -> bool) (l : list A) :
  (forall x, p x = true -> q x = true) ->
  (List.length (List.filter p l) <= List.length (List.filter q l))%nat.
Proof.
  intros H. induction l as [|x l IH]; simpl; [lia|].
  destruct (p x) eqn:E.
  - rewrite (H x E). simpl. lia.
  - destruct (q x); simpl; lia.
Qed.

Lemma matching_buckets_In (table : list (string * list string))
    (lowerDesc bucket : string) :
  In bucket (matching_buckets table lowerDesc) <->
  exists keywords kw,
    In (bucket, keywords) table /\ In kw keywords
    /\ includes lowerDesc kw = true.
Proof.
  unfold matching_buckets. rewrite List.in_map_iff. split.
  - intros ([b kws] & <- & H). apply List.filter_In in H as [Hin H].
    apply List.existsb_exists in H as (kw & Hkw & H). now exists kws, kw.
  - intros (kws & kw & Hin & Hkw & H). exists (bucket, kws).
    split; [reflexivity|]. apply List.filter_In. split; [exact Hin|].
    apply List.existsb_exists. now exists kw.
Qed.

Lemma append_nonempty (before d after : string) :
  d <> "" -> before ++ d ++ after <> "".
Proof.
  intros Hd. destruct before; [|discriminate].
  rewrite append_nil_l. destruct d; [congruence|discriminate].
Qed.

(** X25 (extractThemes, calculateShockFactor, inferAtmosphere,
    inferEmotionalTone, inferPace): saying more never takes a finding
    away. When a description that is not empty is extended, before or
    after, every theme and every atmosphere found stays found, every tone
    other than neutral stays, the shock factor does not drop, a slow pace
    stays slow and a fast pace does not become moderate. *)
Theorem longer_descriptions_keep_their_findings :
  forall before d after : string,
    d <> "" ->
    (forall theme : string,
       In theme (extractThemes (Some d)) ->
       In theme (extractThemes (Some (before ++ d ++ after))))
    /\ calculateShockFactor (Some d)
       <= calculateShockFactor (Some (before ++ d ++ after))
    /\ (forall a : string,
          In a (inferAtmosphere (Some d)) ->
          In a (inferAtmosphere (Some (before ++ d ++ after))))
    /\ (forall tone : string,
          In tone (inferEmotionalTone (Some d)) -> tone <> "neutral" ->
          In tone (inferEmotionalTone (Some (before ++ d ++ after))))
    /\ (inferPace (Some d) = "slow_burn" ->
        inferPace (Some (before ++ d ++ after)) = "slow_burn")
    /\ (inferPace (Some d) = "fast_paced" ->
        inferPace (Some (before ++ d ++ after)) <> "moderate").
Proof.
  intros before d after Hd.
  destruct (heuristics_of d Hd) as (-> & -> & -> & -> & ->).
  destruct (heuristics_of _ (append_nonempty before d after Hd))
    as (-> & -> & -> & -> & ->).
  pose proof (includes_extended before d after) as Hext.
  set (L := toLowerCase d) in *.
  set (L' := toLowerCase (before ++ d ++ after)) in *.
  assert (Hbuckets : forall table bucket,
            In bucket (matching_buckets table L) ->
            In bucket (matching_buckets table L')).
  { intros table bucket H. apply matching_buckets_In in H as (kws & kw & H1 & H2 & H3).
    apply matching_buckets_In. exists kws, kw. auto. }
  split; [|split; [|split; [|split; [|split]]]].
  - intros theme H. apply List.filter_In in H as [Hin H].
    apply List.filter_In. auto.
  - pose proof (filter_length_le (fun kw => includes L kw)
                  (fun kw => includes L' kw) shockKeywords Hext).
    lia.
  - apply Hbuckets.
  - intros tone H Hne.
    assert (Hin : In tone (matching_buckets toneKeywords L)).
    { destruct (matching_buckets toneKeywords L); [|exact H].
      destruct H as [<-|[]]. congruence. }
    apply Hbuckets in Hin.
    destruct (matching_buckets toneKeywords L'); [destruct Hin|exact Hin].
  - destruct (includes L "slow" || includes L "meditative") eqn:E.
    + intros _. apply orb_true_iff in E as [E|E]; apply Hext in E; rewrite E;
        [reflexivity|now rewrite orb_true_r].
    + destruct (includes L "fast" || includes L "thriller" || includes L "action");
        discriminate.
  - destruct (includes L "slow" || includes L "meditative"); [discriminate|].
    destruct (includes L "fast" || includes L "thriller" || includes L "action")
      eqn:E; [|discriminate].
    intros _.
    assert (E' : includes L' "fast" || includes L' "thriller"
                 || includes L' "action" = true).
    { apply orb_true_iff in E as [E|E]; [apply orb_true_iff in E as [E|E]|];
        apply Hext in E; rewrite E; now rewrite ?orb_true_r. }
    rewrite E'. now destruct (includes L' "slow" || includes L' "meditative").
Qed.

Lemma longer_descriptions_witness :
  In "mystery" (extractThemes (Some ("A " ++ "mystery" ++ " in the fog.")))
  /\ 5 <= calculateShockFactor (Some ("A " ++ "mystery" ++ " in the fog.")).
Proof.
  destruct (longer_descriptions_keep_their_findings "A " "mystery" " in the fog.")
    as (Hthemes & Hshock & _); [discriminate|].
  split; [apply Hthemes; now left|].
  assert (H : calculateShockFactor (Some "mystery") = 5) by reflexivity.
  now rewrite H in Hshock.
Defined.

Lemma occurs_ci_empty (kw : string) : kw <> "" -> ~ occurs_ci kw "".
Proof.
  intros Hne (pre & mid & post & E & H).
  destruct pre; [|discriminate E]. rewrite append_nil_l in E.
  destruct mid; [|discriminate E]. destruct kw; [congruence|discriminate H].
Qed.

Lemma toneKeywords_lower (tone : string) (keywords : list string) (kw : string) :
  In (tone, keywords) toneKeywords -> In kw keywords ->
  toLowerCase kw = kw /\ kw <> "" /\ tone <> "neutral".
Proof.
  unfold toneKeywords. cbn [In]. intros H Hkw.
  repeat (destruct H as [[= <- <-]|H];
          [cbn [In] in Hkw;
           repeat (destruct Hkw as [<-|Hkw];
                   [split; [reflexivity|split; discriminate]|]);
           destruct Hkw|]).
  destruct H.
Qed.

(** X26 (inferEmotionalTone): a book always has a tone. The list of tones
    is never empty and names no tone twice; "neutral" is in it only when
    it is alone, and it is the tone of a description that is absent or
    empty. For a description in ASCII: a tone of the table is in the list
    exactly when one of its keywords occurs in the description, letter
    case set aside, and "neutral" is the tone exactly when no keyword
    occurs. *)
Theorem inferEmotionalTone_is_never_empty :
  forall description : option string,
    let tones := inferEmotionalTone description in
    tones <> []
    /\ List.NoDup tones
    /\ (In "neutral" tones <-> tones = ["neutral"])
    /\ (description = None \/ description = Some "" -> tones = ["neutral"])
    /\ ((forall d : string, description = Some d -> is_ascii d = true) ->
        (forall (d tone : string) (keywords : list string) (kw : string),
           description = Some d ->
           In (tone, keywords) toneKeywords -> In kw keywords ->
           occurs_ci kw d -> In tone tones)
        /\ (forall tone : string,
              In tone tones -> tone <> "neutral" ->
              exists (d : string) (keywords : list string) (kw : string),
                description = Some d /\ In (tone, keywords) toneKeywords
                /\ In kw keywords /\ occurs_ci kw d)
        /\ (tones = ["neutral"] <->
            forall (d tone : string) (keywords : list string) (kw : string),
              description = Some d ->
              In (tone, keywords) toneKeywords -> In kw keywords ->
              ~ occurs_ci kw d)).
Proof.
  intros description tones.
  destruct description as [d|].
  2:{ subst tones. cbn. split; [discriminate|]. split; [repeat constructor; tauto|].
      split; [split; [intros [E|[]]; reflexivity|now left]|].
      split; [reflexivity|]. intros _.
      split; [discriminate|]. split; [intros tone [<-|[]]; congruence|].
      split; [discriminate|reflexivity]. }
  destruct (string_dec d "") as [->|Hd].
  { subst tones. cbn. split; [discriminate|]. split; [repeat constructor; tauto|].
    split; [split; [intros [E|[]]; reflexivity|now left]|].
    split; [reflexivity|]. intros _.
    split.
    { intros d tone keywords kw [= <-] Hin Hkw Hocc. exfalso.
      apply (occurs_ci_empty kw); [|exact Hocc].
      now destruct (toneKeywords_lower _ _ _ Hin Hkw) as (_ & H & _). }
    split; [intros tone [<-|[]]; congruence|].
    split; [|reflexivity].
    intros _ d tone keywords kw [= <-] Hin Hkw.
    apply occurs_ci_empty.
    now destruct (toneKeywords_lower _ _ _ Hin Hkw) as (_ & H & _). }
  destruct (heuristics_of d Hd) as (_ & _ & _ & Htones & _).
  subst tones. rewrite Htones. clear Htones.
  assert (Hin : forall tone,
            In tone (matching_buckets toneKeywords (toLowerCase d)) <->
            exists keywords kw,
              In (tone, keywords) toneKeywords /\ In kw keywords
              /\ occurs_ci kw d).
  { intros tone. rewrite matching_buckets_In.
    split; intros (kws & kw & H1 & H2 & H3); exists kws, kw;
      (split; [exact H1|split; [exact H2|]]);
      destruct (toneKeywords_lower _ _ _ H1 H2) as (Hl & _);
      now apply (includes_toLowerCase d kw Hl). }
  assert (Hnd : List.NoDup (matching_buckets toneKeywords (toLowerCase d))).
  { unfold matching_buckets. apply NoDup_map_filter.
    cbn. repeat constructor; cbn; intuition discriminate. }
  assert (Hnn : ~ In "neutral" (matching_buckets toneKeywords (toLowerCase d))).
  { intros H. apply Hin in H as (kws & kw & H1 & H2 & _).
    now destruct (toneKeywords_lower _ _ _ H1 H2) as (_ & _ & H). }
  destruct (matching_buckets toneKeywords (toLowerCase d)) as [|t ts] eqn:E.
  - split; [discriminate|]. split; [repeat constructor; tauto|].
    split; [split; [reflexivity|now left]|].
    split; [reflexivity|]. intros _.
    split.
    { intros d0 tone keywords kw [= <-] H1 H2 H3. exfalso.
      assert (H : In tone []) by (apply Hin; eauto). destruct H. }
    split; [intros tone [<-|[]]; congruence|].
    split; [|reflexivity].
    intros _ d0 tone keywords kw [= <-] H1 H2 H3.
    assert (H : In tone []) by (apply Hin; eauto). destruct H.
  - split; [discriminate|]. split; [exact Hnd|].
    split; [split; [intros H; contradiction|intros [= -> ->]; now left]|].
    split; [intros [H|[= H]]; [discriminate H|congruence]|]. intros _.
    split; [intros d0 tone keywords kw [= <-] H1 H2 H3; apply Hin; eauto|].
    split.
    { intros tone H _. apply Hin in H as (kws & kw & H1 & H2 & H3).
      now exists d, kws, kw. }
    split.
    + intros [= -> ->]. exfalso. apply Hnn. now left.
    + intros H. exfalso.
      assert (Ht : In t (t :: ts)) by now left.
      apply Hin in Ht as (kws & kw & H1 & H2 & H3).
      exact (H d t kws kw eq_refl H1 H2 H3).
Qed.

Lemma inferEmotionalTone_witness :
  is_ascii "A GRIM but witty tale." = true
  /\ In "dark" (inferEmotionalTone (Some "A GRIM but witty tale."))
  /\ inferEmotionalTone (Some "A GRIM but witty tale.") = ["dark"; "humorous"].
Proof.
  split; [reflexivity|]. split; [|reflexivity].
  destruct (inferEmotionalTone_is_never_empty (Some "A GRIM but witty tale."))
    as (_ & _ & _ & _ & Hascii).
  destruct Hascii as (Hfound & _); [now intros d [= <-]|].
  apply (Hfound "A GRIM but witty tale." "dark"
           ["dark"; "grim"; "bleak"; "sinister"; "ominous"] "grim" eq_refl).
  - now left.
  - right. now left.
  - exists "A ", "GRIM", " but witty tale.". split; reflexivity.
Defined.

Lemma lower_upper (s : string) : toLowerCase (toUpperCase s) = toLowerCase s.
Proof.
  unfold toLowerCase, toUpperCase. induction s as [|c s IH]; [reflexivity|].
  cbn [map_chars]. rewrite IH. f_equal.
  destruct c as [[] [] [] [] [] [] [] []]; reflexivity.
Qed.

Lemma is_ascii_upper (s : string) :
  is_ascii s = true -> is_ascii (toUpperCase s) = true.
Proof.
  unfold toUpperCase. induction s as [|c s IH]; [reflexivity|].
  cbn [map_chars is_ascii]. intros H. apply andb_true_iff in H as [Hc Hs].
  rewrite (IH Hs), andb_true_r. revert Hc.
  destruct c as [[] [] [] [] [] [] [] []]; vm_compute; congruence.
Qed.

(** X27 (enrichBook): the enrichment reads the description and nothing
    else, and reads it without regard to letter case. Title and author do
    not enter the result; and two descriptions in ASCII that are the same
    up to letter case, such as a description and its upper-cased form,
    get the same tones, shock factor, pace, atmosphere and themes. *)
Theorem enrichBook_reads_the_description_only :
  (forall (title author title' author' : string) (description : option string),
     enrichBook title author description = enrichBook title' author' description)
  /\ (forall (title author d d' : string),
        is_ascii d = true -> is_ascii d' = true ->
        toLowerCase d = toLowerCase d' ->
        let e := enrichBook title author (Some d) in
        let e' := enrichBook title author (Some d') in
        emotional_tone e = emotional_tone e'
        /\ shock_factor e = shock_factor e'
        /\ pace e = pace e'
        /\ atmosphere e = atmosphere e'
        /\ themes e = themes e')
  /\ (forall d : string,
        is_ascii d = true ->
        is_ascii (toUpperCase d) = true
        /\ toLowerCase (toUpperCase d) = toLowerCase d).
Proof.
  split; [reflexivity|]. split.
  2:{ intros d Hd. split; [now apply is_ascii_upper|apply lower_upper]. }
  intros title author d d' _ _ E e e'. subst e e'. unfold enrichBook.
  cbn [emotional_tone shock_factor pace atmosphere themes].
  destruct (string_dec d "") as [Hd|Hd].
  - subst d. destruct d'; [now repeat split|discriminate E].
  - assert (Hd' : d' <> "").
    { intros ->. destruct d; [congruence|discriminate E]. }
    destruct (heuristics_of d Hd) as (-> & -> & -> & -> & ->).
    destruct (heuristics_of d' Hd') as (-> & -> & -> & -> & ->).
    rewrite E. now repeat split.
Qed.

Lemma enrichBook_witness :
  toLowerCase "A DARK Thriller" = toLowerCase "a dark thriller"
  /\ pace (enrichBook "t" "a" (Some "A DARK Thriller")) = Some "fast_paced".
Proof.
  assert (E : toLowerCase "A DARK Thriller" = toLowerCase "a dark thriller")
    by reflexivity.
  split; [exact E|].
  destruct (proj1 (proj2 enrichBook_reads_the_description_only) "t" "a"
              "A DARK Thriller" "a dark thriller" eq_refl eq_refl E)
    as (_ & _ & -> & _).
  reflexivity.
Defined.

(* ================================================================== *)
(** ** Cutting and cleaning text *)
(* ================================================================== *)

Lemma length_append (a b : string) :
  String.length (a ++ b) = (String.length a + String.length b)%nat.
Proof.
  induction a as [|c a IH]; [reflexivity|].
  rewrite append_cons. cbn [String.length]. now rewrite IH.
Qed.

Lemma substring_0_length (n : nat) (s : string) :
  String.length (String.substring 0 n s) = Nat.min n (String.length s).
Proof.
  revert s. induction n as [|n IH]; intros [|c s]; cbn; try reflexivity.
  now rewrite IH.
Qed.

Lemma substring_0_prefix (n : nat) (s : string) :
  exists rest : string, s = String.substring 0 n s ++ rest.
Proof.
  revert s. induction n as [|n IH]; intros [|c s]; cbn.
  - now exists "".
  - now exists (String c s).
  - now exists "".
  - destruct (IH s) as (rest & E). exists rest. rewrite append_cons. congruence.
Qed.

Lemma is_ascii_app (a b : string) :
  is_ascii (a ++ b) = is_ascii a && is_ascii b.
Proof.
  induction a as [|c a IH]; [reflexivity|].
  rewrite append_cons. cbn [is_ascii]. now rewrite IH, andb_assoc.
Qed.

Lemma is_ascii_substring (n : nat) (s : string) :
  is_ascii s = true -> is_ascii (String.substring 0 n s) = true.
Proof.
  intros H. destruct (substring_0_prefix n s) as (rest & E).
  rewrite E, is_ascii_app in H. now apply andb_true_iff in H as [H _].
Qed.

(** X28 (truncate): a truncated text fits, provided the limit leaves room
    for the dots. For a text in ASCII and an integer limit: a text no
    longer than [maxLength] is returned as it is; a longer one is cut to
    its first [maxLength - 3] characters followed by "...", which for
    [maxLength >= 3] has exactly [maxLength] characters, so that
    truncating again changes nothing. For a limit below 3 the result of
    cutting is the three dots alone: longer than the limit asked for.
    The result is again a text in ASCII. *)
Theorem truncate_fits_when_the_limit_is_three_or_more :
  forall (text : string) (maxLength : Z),
    is_ascii text = true ->
    is_ascii (truncate text maxLength) = true
    /\ (Z.of_nat (String.length text) <= maxLength -> truncate text maxLength = text)
    /\ (maxLength < Z.of_nat (String.length text) ->
        exists kept rest : string,
          truncate text maxLength = kept ++ "..."
          /\ text = kept ++ rest
          /\ Z.of_nat (String.length kept) = Z.max 0 (maxLength - 3))
    /\ (3 <= maxLength ->
        Z.of_nat (String.length (truncate text maxLength)) <= maxLength
        /\ truncate (truncate text maxLength) maxLength = truncate text maxLength)
    /\ (maxLength < 3 -> maxLength < Z.of_nat (String.length text) ->
        truncate text maxLength = "...").
Proof.
  intros text maxLength Hascii.
  assert (Hshort : Z.of_nat (String.length text) <= maxLength ->
                   truncate text maxLength = text).
  { intros H. unfold truncate. apply Z.leb_le in H. now rewrite H. }
  assert (Hlong : maxLength < Z.of_nat (String.length text) ->
                  truncate text maxLength =
                    String.substring 0 (Z.to_nat (maxLength - 3)) text ++ "...").
  { intros H. unfold truncate, substring_to. apply Z.leb_gt in H. now rewrite H. }
  assert (Hlen : maxLength < Z.of_nat (String.length text) ->
                 Z.of_nat (String.length
                             (String.substring 0 (Z.to_nat (maxLength - 3)) text))
                 = Z.max 0 (maxLength - 3)).
  { intros H. rewrite substring_0_length. lia. }
  split.
  { destruct (Z_le_gt_dec (Z.of_nat (String.length text)) maxLength) as [H|H].
    - now rewrite Hshort.
    - rewrite Hlong by lia. rewrite is_ascii_app, is_ascii_substring by exact Hascii.
      reflexivity. }
  split; [exact Hshort|]. split; [|split].
  - intros H. destruct (substring_0_prefix (Z.to_nat (maxLength - 3)) text)
      as (rest & E).
    exists (String.substring 0 (Z.to_nat (maxLength - 3)) text), rest.
    split; [now apply Hlong|]. split; [exact E|now apply Hlen].
  - intros H3.
    assert (Hfit : Z.of_nat (String.length (truncate text maxLength)) <= maxLength).
    { destruct (Z_le_gt_dec (Z.of_nat (String.length text)) maxLength) as [H|H].
      - now rewrite Hshort.
      - rewrite Hlong by lia. rewrite length_append, Nat2Z.inj_add, Hlen by lia.
        cbn. lia. }
    split; [exact Hfit|]. unfold truncate at 1.
    apply Z.leb_le in Hfit. now rewrite Hfit.
  - intros H3 H. rewrite Hlong by exact H.
    replace (Z.to_nat (maxLength - 3)) with 0%nat by lia.
    now destruct text.
Qed.

Lemma truncate_witness :
  exists kept rest : string,
    truncate "The Moonstone" 10 = kept ++ "..."
    /\ "The Moonstone" = kept ++ rest
    /\ Z.of_nat (String.length kept) = Z.max 0 (10 - 3).
Proof.
  destruct (truncate_fits_when_the_limit_is_three_or_more "The Moonstone" 10
              eq_refl)
    as (_ & _ & H & _).
  apply H. cbn. lia.
Defined.

(** *** [trim] *)

Lemma trimStart_clean (s : string) : starts_clean (trimStart s).
Proof.
  induction s as [|c s IH]; cbn; [exact I|].
  destruct (is_space c) eqn:E; [exact IH|exact E].
Qed.

Lemma trimStart_id (s : string) : starts_clean s -> trimStart s = s.
Proof. destruct s as [|c s]; cbn; [reflexivity|]. now intros ->. Qed.

Lemma trimStart_parts (s : string) :
  exists pre : string, s = pre ++ trimStart s.
Proof.
  induction s as [|c s (pre & E)]; cbn; [now exists ""|].
  destruct (is_space c).
  - exists (String c pre). rewrite append_cons. congruence.
  - now exists "".
Qed.

Lemma trimEnd_parts (s : string) :
  exists post : string, s = trimEnd s ++ post.
Proof.
  induction s as [|c s (post & E)]; cbn; [now exists ""|].
  destruct (trimEnd s) eqn:Et.
  - destruct (is_space c).
    + exists (String c s). reflexivity.
    + exists s. reflexivity.
  - exists post. rewrite append_cons. congruence.
Qed.

Lemma trimEnd_cons (c : ascii) (s : string) :
  is_space c = false ->
  exists t : string, trimEnd (String c s) = String c t /\ t = trimEnd s.
Proof.
  intros E. cbn. destruct (trimEnd s); [rewrite E|]; eauto.
Qed.

Lemma trimEnd_clean (s : string) : starts_clean s -> starts_clean (trimEnd s).
Proof.
  destruct s as [|c s]; [trivial|]. cbn [starts_clean]. intros E.
  destruct (trimEnd_cons c s E) as (t & -> & _). exact E.
Qed.

Lemma trimEnd_idempotent (s : string) : trimEnd (trimEnd s) = trimEnd s.
Proof.
  induction s as [|c s IH]; [reflexivity|]. cbn [trimEnd].
  destruct (trimEnd s) as [|d t] eqn:E.
  - destruct (is_space c) eqn:Ec; [reflexivity|]. cbn. now rewrite Ec.
  - cbn [trimEnd]. cbn [trimEnd] in IH. rewrite IH. reflexivity.
Qed.

Lemma trim_idempotent (s : string) : trim (trim s) = trim s.
Proof.
  unfold trim. rewrite (trimStart_id (trimEnd (trimStart s))).
  - apply trimEnd_idempotent.
  - apply trimEnd_clean, trimStart_clean.
Qed.

Lemma trim_parts (s : string) :
  exists pre post : string, s = pre ++ trim s ++ post.
Proof.
  destruct (trimStart_parts s) as (pre & E1).
  destruct (trimEnd_parts (trimStart s)) as (post & E2).
  exists pre, post. unfold trim. now rewrite <- E2.
Qed.

Lemma trim_length (s : string) : (String.length (trim s) <= String.length s)%nat.
Proof.
  destruct (trim_parts s) as (pre & post & E). rewrite E at 2.
  rewrite !length_append. lia.
Qed.

Lemma is_ascii_trim (s : string) : is_ascii s = true -> is_ascii (trim s) = true.
Proof.
  intros H. destruct (trim_parts s) as (pre & post & E).
  rewrite E, !is_ascii_app in H.
  apply andb_true_iff in H as [_ H]. now apply andb_true_iff in H as [H _].
Qed.

(** X29 (extractVibeKeywords, ingestBook): the vibe tags of an ingested
    book are the beginning of its description. For a description in
    ASCII they are a piece of the description of at most 100 characters,
    in ASCII again, with no white space at either end: the first 100
    characters, trimmed; the whole description, trimmed, when it has no
    more than 100; and the empty string when there is no description.
    They are what ingestion hands to the store as [vibe_tags]. *)
Theorem vibe_keywords_are_the_trimmed_beginning :
  forall description : option string,
    (forall d : string, description = Some d -> is_ascii d = true) ->
    let vibe := extractVibeKeywords description in
    (String.length vibe <= 100)%nat
    /\ is_ascii vibe = true
    /\ trim vibe = vibe
    /\ (description = None \/ description = Some "" -> vibe = "")
    /\ (forall d : string,
          description = Some d ->
          (exists before after : string,
             String.substring 0 100 d = before ++ vibe ++ after)
          /\ includes d vibe = true
          /\ ((String.length d <= 100)%nat -> vibe = trim d))
    /\ (forall (env : Env) (req : IngestBookRequest),
          description = m_description (merged_for env (req_isbn req)) ->
          p_vibe_tags (ingest_data env req) = Some vibe).
Proof.
  intros description Hascii vibe.
  assert (Hcut : forall d, d <> "" ->
            extractVibeKeywords (Some d) = trim (String.substring 0 100 d)).
  { intros d Hd. destruct d; [congruence|reflexivity]. }
  assert (Hfull : forall d, (String.length d <= 100)%nat ->
            String.substring 0 100 d = d).
  { intros d Hd. destruct (substring_0_prefix 100 d) as (rest & E).
    assert (L : String.length (String.substring 0 100 d) = String.length d).
    { rewrite substring_0_length. lia. }
    rewrite E in L at 2. rewrite length_append in L.
    destruct rest; [|cbn in L; lia]. now rewrite append_nil_r in E. }
  split; [|split; [|split; [|split; [|split]]]].
  - subst vibe. destruct description as [d|]; [|cbn; lia].
    destruct (string_dec d "") as [->|Hd]; [cbn; lia|].
    rewrite (Hcut d Hd).
    pose proof (trim_length (String.substring 0 100 d)).
    rewrite substring_0_length in H. lia.
  - subst vibe. destruct description as [d|]; [|reflexivity].
    destruct (string_dec d "") as [->|Hd]; [reflexivity|].
    rewrite (Hcut d Hd). apply is_ascii_trim, is_ascii_substring.
    now apply Hascii.
  - subst vibe. destruct description as [d|]; [|reflexivity].
    destruct (string_dec d "") as [->|Hd]; [reflexivity|].
    rewrite (Hcut d Hd). apply trim_idempotent.
  - intros [ -> | -> ]; reflexivity.
  - intros d ->. subst vibe.
    destruct (string_dec d "") as [->|Hd].
    { split; [now exists "", ""|]. split; reflexivity. }
    rewrite (Hcut d Hd).
    destruct (trim_parts (String.substring 0 100 d)) as (pre & post & E).
    split; [now exists pre, post|]. split.
    + apply includes_spec.
      destruct (substring_0_prefix 100 d) as (rest & Ed).
      exists pre, (post ++ rest). rewrite Ed at 1. rewrite E at 1.
      now rewrite !append_assoc.
    + intros Hlen. now rewrite Hfull.
  - intros env req ->. reflexivity.
Qed.

Lemma vibe_keywords_witness :
  is_ascii "  A dark tale of a diamond.  " = true
  /\ extractVibeKeywords (Some "  A dark tale of a diamond.  ") =
       "A dark tale of a diamond."
  /\ trim (extractVibeKeywords (Some "  A dark tale of a diamond.  ")) =
       extractVibeKeywords (Some "  A dark tale of a diamond.  ").
Proof.
  split; [reflexivity|]. split; [reflexivity|].
  assert (Hascii : forall d : string,
            Some "  A dark tale of a diamond.  " = Some d -> is_ascii d = true).
  { intros d E. injection E as <-. reflexivity. }
  now destruct (vibe_keywords_are_the_trimmed_beginning
                  (Some "  A dark tale of a diamond.  ") Hascii)
    as (_ & _ & H & _).
Defined.

(** *** [cleanText] *)

Lemma single_spaced_tail (c : ascii) (s : string) :
  single_spaced (String c s) = true -> single_spaced s = true.
Proof. cbn [single_spaced]. intros H. now apply andb_true_iff in H as [_ H]. Qed.

Lemma collapse_single_spaced (s : string) :
  forall in_run : bool,
    single_spaced (replace_runs is_space " " in_run s) = true
    /\ (in_run = true -> starts_clean (replace_runs is_space " " in_run s)).
Proof.
  induction s as [|c s IH]; intros in_run; [now split|].
  cbn [replace_runs]. destruct (is_space c) eqn:Ec.
  - destruct in_run.
    + apply IH.
    + split; [|discriminate]. cbn [single_spaced].
      destruct (IH true) as [H1 H2]. rewrite H1, andb_true_r.
      change (is_space " ") with true. cbv iota. cbn [Ascii.eqb Bool.eqb andb].
      specialize (H2 eq_refl).
      destruct (replace_runs is_space " " true s); [reflexivity|].
      cbn in H2. now rewrite H2.
  - split.
    + cbn [single_spaced]. rewrite Ec. now destruct (IH false) as [-> _].
    + intros _. exact Ec.
Qed.

Lemma collapse_length (p : ascii -> bool) (rep : ascii) (s : string) :
  forall in_run : bool,
    (String.length (replace_runs p rep in_run s) <= String.length s)%nat.
Proof.
  induction s as [|c s IH]; intros in_run; cbn; [lia|].
  destruct (p c); [destruct in_run|]; cbn;
    try (specialize (IH true); lia); specialize (IH false); lia.
Qed.

Lemma newline_is_space (c : ascii) : is_newline c = true -> is_space c = true.
Proof.
  unfold is_newline. intros H. apply Ascii.eqb_eq in H. now subst.
Qed.

Lemma newlines_absent (s : string) :
  single_spaced s = true ->
  forall in_run : bool, replace_runs is_newline "010" in_run s = s.
Proof.
  induction s as [|c s IH]; intros H in_run; [reflexivity|].
  pose proof (single_spaced_tail c s H) as Hs.
  cbn [replace_runs]. destruct (is_newline c) eqn:En.
  - exfalso. cbn [single_spaced] in H. rewrite (newline_is_space c En) in H.
    apply andb_true_iff in H as [H _]. apply andb_true_iff in H as [H _].
    apply Ascii.eqb_eq in H. subst c. discriminate En.
  - now rewrite IH.
Qed.

Lemma collapse_id (s : string) :
  single_spaced s = true ->
  forall in_run : bool,
    (in_run = true -> starts_clean s) ->
    replace_runs is_space " " in_run s = s.
Proof.
  induction s as [|c s IH]; intros H in_run Hrun; [reflexivity|].
  pose proof (single_spaced_tail c s H) as Hs.
  cbn [replace_runs]. cbn [single_spaced] in H.
  destruct (is_space c) eqn:Ec.
  - destruct in_run; [specialize (Hrun eq_refl); cbn in Hrun; congruence|].
    apply andb_true_iff in H as [H _]. apply andb_true_iff in H as [Hc Hnext].
    apply Ascii.eqb_eq in Hc. subst c. f_equal. apply IH; [exact Hs|].
    intros _. destruct s; [exact I|]. now apply negb_true_iff in Hnext.
  - f_equal. apply IH; [exact Hs|discriminate].
Qed.

Lemma trimStart_single_spaced (s : string) :
  single_spaced s = true -> single_spaced (trimStart s) = true.
Proof.
  induction s as [|c s IH]; [trivial|]. intros H. cbn [trimStart].
  destruct (is_space c); [|exact H]. apply IH. now apply single_spaced_tail in H.
Qed.

Lemma trimEnd_single_spaced (s : string) :
  single_spaced s = true -> single_spaced (trimEnd s) = true.
Proof.
  induction s as [|c s IH]; [trivial|]. intros H.
  pose proof (IH (single_spaced_tail c s H)) as Ht.
  cbn [trimEnd]. cbn [single_spaced] in H.
  apply andb_true_iff in H as [Hc _].
  destruct (trimEnd s) as [|d t] eqn:E.
  - destruct (is_space c) eqn:Ec; [reflexivity|]. cbn. now rewrite Ec.
  - cbn [single_spaced]. cbn [single_spaced] in Ht. rewrite Ht, andb_true_r.
    destruct (is_space c) eqn:Ec; [|reflexivity].
    apply andb_true_iff in Hc as [Hc Hnext]. rewrite Hc. cbn [andb].
    destruct s as [|d' s']; [discriminate E|].
    destruct (is_space d') eqn:Ed; [discriminate Hnext|].
    destruct (trimEnd_cons d' s' Ed) as (t' & E' & _).
    rewrite E' in E. injection E as <- _. now rewrite Ed.
Qed.

Lemma is_ascii_replace_runs (p : ascii -> bool) (rep : ascii) (s : string) :
  (nat_of_ascii rep <? 128)%nat = true -> is_ascii s = true ->
  forall in_run : bool, is_ascii (replace_runs p rep in_run s) = true.
Proof.
  intros Hrep. induction s as [|c s IH]; intros H in_run; [reflexivity|].
  cbn [is_ascii] in H. apply andb_true_iff in H as [Hc Hs].
  cbn [replace_runs]. destruct (p c); [destruct in_run|];
    cbn [is_ascii]; rewrite ?Hrep, ?Hc, ?IH by exact Hs; reflexivity.
Qed.

(** X30 (cleanText): cleaned text has single spaces and nothing else for
    white space. In a text in ASCII every run of white space becomes one
    space and the ends are trimmed, so that the result, in ASCII again,
    has no white space at either end, no white space character but the
    space (no newline survives, the second replacement of the function
    having nothing left to replace) and no space followed by another; it
    is no longer than the input, and cleaning it again changes
    nothing. *)
Theorem cleanText_leaves_single_spaces :
  forall text : string,
    is_ascii text = true ->
    is_ascii (cleanText text) = true
    /\ cleanText text = trim (replace_runs is_space " " false text)
    /\ single_spaced (cleanText text) = true
    /\ trim (cleanText text) = cleanText text
    /\ (String.length (cleanText text) <= String.length text)%nat
    /\ cleanText (cleanText text) = cleanText text.
Proof.
  intros text Hascii.
  destruct (collapse_single_spaced text false) as [Hss _].
  assert (E : cleanText text = trim (replace_runs is_space " " false text)).
  { unfold cleanText. now rewrite newlines_absent. }
  assert (Hclean : single_spaced (cleanText text) = true).
  { rewrite E. unfold trim.
    now apply trimEnd_single_spaced, trimStart_single_spaced. }
  assert (Htrim : trim (cleanText text) = cleanText text).
  { rewrite E. apply trim_idempotent. }
  split.
  { rewrite E. now apply is_ascii_trim, is_ascii_replace_runs. }
  split; [exact E|]. split; [exact Hclean|]. split; [exact Htrim|]. split.
  - rewrite E. etransitivity; [apply trim_length|apply collapse_length].
  - unfold cleanText at 1.
    rewrite (collapse_id _ Hclean false) by discriminate.
    now rewrite newlines_absent.
Qed.

Lemma cleanText_witness :
  is_ascii "  The   Moonstone
  by Wilkie  Collins " = true
  /\ cleanText "  The   Moonstone
  by Wilkie  Collins " = "The Moonstone by Wilkie Collins"
  /\ single_spaced (cleanText "  The   Moonstone
  by Wilkie  Collins ") = true.
Proof.
  split; [reflexivity|]. split; [reflexivity|].
  now destruct (cleanText_leaves_single_spaces "  The   Moonstone
  by Wilkie  Collins " eq_refl) as (_ & _ & H & _).
Defined.
